(** * AutoGLM-TERMUX web console: scheduler, step interpreter, supervisor, sessions

  A shallow embedding of the parts of [autoglm_web] that decide when a
  task fires ([schedule.py]), what a task run does ([tasks_runner.py],
  [adb.py]) and how the external engine process is supervised
  ([autoglm_process.py]), followed by the properties proved of them.

  Conventions.  Python [str] is [string]; the builtins the code calls are
  modelled in module [Py] for text whose characters are ASCII.  Python
  [int] is [Z].  A [dict] used as an unordered map is a [gmap]; the session
  registry, whose iteration order the code relies on, is an association
  list.  A function that can raise returns [option] or an [outcome].
  Effects on the device, the clock, the log and the engine process are
  recorded in a trace, and what the outside answers is a parameter: a
  [Host] for the interpreter, an [OS] for the supervisor.  The modules
  [config] and [storage], which the sources import, are parameters of the
  [Host] as well. *)

From Stdlib Require Import ZArith List Ascii String Bool Lia DecimalString.
From stdpp Require Import base option list gmap strings.

Local Open Scope string_scope.
Local Open Scope list_scope.
Local Open Scope Z_scope.

(** ** Python builtins used by the sources *)

Module Py.

(** [str.isspace] on ASCII: TAB..CR, FS..US and the blank. *)
Definition isspace (c : ascii) : bool :=
  let n := nat_of_ascii c in
  (Nat.leb 9 n && Nat.leb n 13) || (Nat.leb 28 n && Nat.leb n 32).

(** The narrower set skipped by [int()] around a numeral. *)
Definition is_c_space (c : ascii) : bool :=
  let n := nat_of_ascii c in
  (Nat.leb 9 n && Nat.leb n 13) || Nat.eqb n 32.

Definition isdigit (c : ascii) : bool :=
  let n := nat_of_ascii c in Nat.leb 48 n && Nat.leb n 57.

Definition digit_val (c : ascii) : Z := Z.of_nat (nat_of_ascii c) - 48.

Fixpoint lstrip_by (sp : ascii -> bool) (s : string) : string :=
  match s with
  | EmptyString => EmptyString
  | String c s' => if sp c then lstrip_by sp s' else s
  end.

Fixpoint rstrip_by (sp : ascii -> bool) (s : string) : string :=
  match s with
  | EmptyString => EmptyString
  | String c s' =>
      match rstrip_by sp s' with
      | EmptyString => if sp c then EmptyString else String c EmptyString
      | r => String c r
      end
  end.

(** [s.strip()] *)
Definition strip (s : string) : string := lstrip_by isspace (rstrip_by isspace s).

Definition starts_word (s : string) : bool :=
  match s with
  | EmptyString => false
  | String c _ => negb (isspace c)
  end.

(** [s.split()]: maximal runs of non-blank characters. *)
Fixpoint split (s : string) : list string :=
  match s with
  | EmptyString => []
  | String c s' =>
      if isspace c then split s'
      else if starts_word s' then
        match split s' with
        | w :: ws => String c w :: ws
        | [] => [String c EmptyString]
        end
      else String c EmptyString :: split s'
  end.

(** [s.split(sep)] for a one-character separator. *)
Fixpoint split_on (sep : ascii) (s : string) : list string :=
  match s with
  | EmptyString => [EmptyString]
  | String c s' =>
      if Ascii.eqb c sep then EmptyString :: split_on sep s'
      else match split_on sep s' with
           | w :: ws => String c w :: ws
           | [] => [String c EmptyString]
           end
  end.

(** [s.split(sep, 1)] when [sep in s]; [None] when [sep] does not occur. *)
Fixpoint split_once (sep : ascii) (s : string) : option (string * string) :=
  match s with
  | EmptyString => None
  | String c s' =>
      if Ascii.eqb c sep then Some (EmptyString, s')
      else match split_once sep s' with
           | Some (a, b) => Some (String c a, b)
           | None => None
           end
  end.

(** Digits with single underscores between them, as [int()] reads them. *)
Fixpoint int_digits (acc : Z) (after_digit : bool) (s : string) : option Z :=
  match s with
  | EmptyString => if after_digit then Some acc else None
  | String c s' =>
      if isdigit c then int_digits (10 * acc + digit_val c) true s'
      else if Ascii.eqb c "_"%char then
        if after_digit then int_digits acc false s' else None
      else None
  end.

(** [int(s)] for a string; [None] stands for [ValueError].  The limit
    CPython puts on the number of digits is not modelled. *)
Definition int_of_str (s : string) : option Z :=
  match lstrip_by is_c_space (rstrip_by is_c_space s) with
  | String "+"%char r => int_digits 0 false r
  | String "-"%char r => Z.opp <$> int_digits 0 false r
  | r => int_digits 0 false r
  end.

(** [str(n)] for an integer. *)
Definition str_of_int (n : Z) : string := NilEmpty.string_of_int (Z.to_int n).

(** [range(start, stop, step)] for a positive step. *)
Definition range (start stop step : Z) : list Z :=
  (fun k : nat => start + Z.of_nat k * step)
    <$> seq 0 (Z.to_nat ((stop - start + step - 1) / step)).

(** The values that reach the interpreter from JSON; floats, arrays and
    objects are left out. *)
Inductive value : Type :=
| VNone
| VBool (b : bool)
| VInt (n : Z)
| VStr (s : string).

Definition truthy (v : value) : bool :=
  match v with
  | VNone => false
  | VBool b => b
  | VInt n => negb (Z.eqb n 0)
  | VStr s => negb (String.eqb s EmptyString)
  end.

(** [a or b] *)
Definition or_else (a b : value) : value := if truthy a then a else b.

(** [int(v)]; [None] stands for [ValueError] or [TypeError]. *)
Definition int (v : value) : option Z :=
  match v with
  | VNone => None
  | VBool b => Some (if b then 1 else 0)
  | VInt n => Some n
  | VStr s => int_of_str s
  end.

(** [str(v)] *)
Definition str (v : value) : string :=
  match v with
  | VNone => "None"
  | VBool b => if b then "True" else "False"
  | VInt n => str_of_int n
  | VStr s => s
  end.

(** [s in t] for a one-character [s]. *)
Fixpoint contains (c : ascii) (s : string) : bool :=
match s with
| EmptyString => false
| String c' s' => Ascii.eqb c c' || contains c s'
end.

(** [all(p(ch) for ch in s)] *)
Fixpoint all_chars (p : ascii -> bool) (s : string) : bool :=
match s with
| EmptyString => true
| String c s' => p c && all_chars p s'
end.

Definition isupper (c : ascii) : bool :=
let n := nat_of_ascii c in Nat.leb 65 n && Nat.leb n 90.

Definition islower (c : ascii) : bool :=
let n := nat_of_ascii c in Nat.leb 97 n && Nat.leb n 122.

(** [ch.isalnum()] on ASCII. *)
Definition isalnum (c : ascii) : bool := isupper c || islower c || isdigit c.

(** [s.replace(old, new)] for a one-character [old]. *)
Fixpoint replace_char (old : ascii) (new : string) (s : string) : string :=
match s with
| EmptyString => EmptyString
| String c s' =>
    if Ascii.eqb c old then (new ++ replace_char old new s')%string
    else String c (replace_char old new s')
end.

(** [s.startswith(p)], returning the rest of [s]. *)
Fixpoint strip_prefix (p s : string) : option string :=
match p, s with
| EmptyString, _ => Some s
| String a p', String b s' => if Ascii.eqb a b then strip_prefix p' s' else None
| String _ _, EmptyString => None
end.

(** *** [str.format] with keyword arguments only

    The template language is interpreted for replacement fields that are
    a bare keyword name.  A field that uses a conversion, a format
    specification, attribute or index access or nested braces puts the
    template outside this fragment; [format] then defers to [ext], which
    stands for what Python does with such a template. *)

Inductive fmt_result : Type :=
| FmtOk (s : string)
| FmtError
| FmtOther.

Definition fmt_prepend (p : string) (r : fmt_result) : fmt_result :=
match r with
| FmtOk s => FmtOk (p ++ s)
| other => other
end.

(** Characters that start syntax this development does not interpret. *)
Definition fmt_special (c : ascii) : bool :=
Ascii.eqb c "{"%char || Ascii.eqb c "["%char || Ascii.eqb c "!"%char
|| Ascii.eqb c ":"%char || Ascii.eqb c "."%char.

(** A field name that is empty or a numeral refers to a positional
    argument. *)
Definition fmt_positional (name : string) : bool := all_chars isdigit name.

(** [cur] is [None] in literal text and [Some name] inside a replacement
    field of which [name] has been read. *)
Fixpoint fmt_go (params : gmap string value) (s : string) (cur : option string)
  : fmt_result :=
match cur, s with
| None, EmptyString => FmtOk EmptyString
| None, String c rest =>
    if Ascii.eqb c "{"%char then
      match rest with
      | String c2 rest2 =>
          if Ascii.eqb c2 "{"%char then fmt_prepend "{" (fmt_go params rest2 None)
          else fmt_go params rest (Some EmptyString)
      | EmptyString => FmtError
      end
    else if Ascii.eqb c "}"%char then
      match rest with
      | String c2 rest2 =>
          if Ascii.eqb c2 "}"%char then fmt_prepend "}" (fmt_go params rest2 None)
          else FmtError
      | EmptyString => FmtError
      end
    else fmt_prepend (String c EmptyString) (fmt_go params rest None)
| Some name, EmptyString => FmtError
| Some name, String c rest =>
    if Ascii.eqb c "}"%char then
      if fmt_positional name then FmtError
      else match params !! name with
           | Some v => fmt_prepend (str v) (fmt_go params rest None)
           | None => FmtError
           end
    else if fmt_special c then FmtOther
    else fmt_go params rest (Some (name ++ String c EmptyString)%string)
end.

(** [template.format] applied to the keyword arguments [params]; [None]
    stands for any exception. *)
Definition format (ext : string -> gmap string value -> option string)
  (template : string) (params : gmap string value) : option string :=
match fmt_go params template None with
| FmtOk s => Some s
| FmtError => None
| FmtOther => ext template params
end.

(** The characters [str.splitlines] breaks at, on ASCII. *)
Definition is_linebreak (c : ascii) : bool :=
let n := nat_of_ascii c in
(Nat.leb 10 n && Nat.leb n 13) || (Nat.leb 28 n && Nat.leb n 30).

(** [cur] is the line being read; [after_cr] tells that the previous
    character was a carriage return, which a line feed then completes. *)
Fixpoint splitlines_go (s : string) (cur : string) (after_cr : bool) : list string :=
match s with
| EmptyString => if String.eqb cur "" then [] else [cur]
| String c s' =>
    if is_linebreak c then
      if after_cr && Ascii.eqb c "010"%char then splitlines_go s' "" false
      else cur :: splitlines_go s' "" (Ascii.eqb c "013"%char)
    else splitlines_go s' (cur ++ String c "")%string false
end.

(** [s.splitlines()] *)
Definition splitlines (s : string) : list string := splitlines_go s "" false.

(** [d.get(key, default)] *)
Definition get (d : gmap string value) (key : string) (default : value) : value :=
match d !! key with
| Some v => v
| None => default
end.

End Py.


(** ** [datetime]: civil time in the fixed zone +08:00

  An aware [datetime] at whole seconds is represented by its POSIX
  timestamp; the fields the scheduler reads are computed for the offset
  [_now_beijing] fixes.  Fractions of a second take no part in matching
  and [int(dt.timestamp())] drops them.  The years 1 to 9999 outside of
  which Python raises [OverflowError] are not delimited. *)

Module datetime.

Definition t : Type := Z.

Definition utcoffset : Z := 8 * 3600.

Definition local (dt : t) : Z := dt + utcoffset.

Definition second (dt : t) : Z := local dt mod 60.
Definition minute (dt : t) : Z := (local dt / 60) mod 60.
Definition hour (dt : t) : Z := (local dt / 3600) mod 24.

(** Days since 1970-01-01 in local time. *)
Definition days (dt : t) : Z := local dt / 86400.

(** [dt.weekday()]: Monday is 0; 1970-01-01 was a Thursday. *)
Definition weekday (dt : t) : Z := (days dt + 3) mod 7.

(** Proleptic Gregorian date of a day number, by 400-year eras that
    start on 1 March. *)
Definition civil (d : Z) : Z * Z * Z :=
  let z := d + 719468 in
  let era := z / 146097 in
  let doe := z - era * 146097 in
  let yoe := (doe - doe / 1460 + doe / 36524 - doe / 146096) / 365 in
  let doy := doe - (365 * yoe + yoe / 4 - yoe / 100) in
  let mp := (5 * doy + 2) / 153 in
  let dd := doy - (153 * mp + 2) / 5 + 1 in
  let m := if mp <? 10 then mp + 3 else mp - 9 in
  let y := yoe + era * 400 + (if m <=? 2 then 1 else 0) in
  (y, m, dd).

Definition year (dt : t) : Z := (civil (days dt)).1.1.
Definition month (dt : t) : Z := (civil (days dt)).1.2.
Definition day (dt : t) : Z := (civil (days dt)).2.

(** [dt + timedelta(seconds=n)] *)
Definition add_seconds (dt : t) (n : Z) : t := dt + n.

(** [int(dt.timestamp())] *)
Definition timestamp (dt : t) : Z := dt.

End datetime.

(** ** Results of a task run

  One entry of the list [run_task_by_id] returns: the dictionary
  [{"type": ..., "ok": ..., "output": ...}], with the key ["app_id"] in
  the entry of a retired [app] step. *)

Record step_result : Type := {
r_type : Py.value;
r_app_id : option Py.value;
r_ok : bool;
r_output : Py.value
}.

(** A call that either returns or raises an exception carrying a message. *)
Inductive outcome (A : Type) : Type :=
| Returned (a : A)
| Raised (msg : string).
Arguments Returned {A} a.
Arguments Raised {A} msg.

(** ** schedule.py *)

Module schedule.

Import Py.

(** [x in s] for a set of integers. *)
Definition mem (x : Z) (s : gset Z) : bool := bool_decide (x ∈ s).

(** Truth value of a set: non-empty. *)
Definition nonempty (s : gset Z) : bool := negb (bool_decide (s = ∅)).

(** One comma-separated part of a field: the clamped bounds and the step
    of the range it denotes.  [None] is every path of the loop body that
    ends in [return set()]. *)
Definition part_range (part : string) (min_v max_v : Z) : option (Z * Z * Z) :=
  '(part, step) ←
    match split_once "/" part with
    | Some (base, step_s) =>
        step ← int_of_str step_s;
        Some (if String.eqb base "" then "*" else base, step)
    | None => Some (part, 1)
    end;
  '(start, end_) ←
    (if String.eqb part "*" then Some (min_v, max_v)
     else match split_once "-" part with
          | Some (a, b) =>
              start ← int_of_str a;
              end_ ← int_of_str b;
              Some (start, end_)
          | None =>
              val ← int_of_str part;
              Some (val, val)
          end);
  let start := Z.max min_v start in
  let end_ := Z.min max_v end_ in
  if step <=? 0 then None else Some (start, end_, step).

(** The [for part in field.split(",")] loop with its accumulator. *)
Fixpoint parse_parts (parts : list string) (min_v max_v : Z) (values : gset Z)
  : gset Z :=
  match parts with
  | [] => values
  | part :: rest =>
      let part := strip part in
      if String.eqb part "" then parse_parts rest min_v max_v values
      else match part_range part min_v max_v with
           | None => ∅
           | Some (start, end_, step) =>
               parse_parts rest min_v max_v
                 (values ∪ list_to_set (range start (end_ + 1) step))
           end
  end.

Definition _parse_field (field : string) (min_v max_v : Z) : gset Z :=
  if String.eqb field "*" then list_to_set (range min_v (max_v + 1) 1)
  else parse_parts (split_on "," field) min_v max_v ∅.

(** [if 7 in dow: dow.add(0)] *)
Definition fold_sunday (dow : gset Z) : gset Z :=
  if mem 7 dow then {[0]} ∪ dow else dow.

Definition cron_dow (dt : datetime.t) : Z := (datetime.weekday dt + 1) mod 7.

Definition _matches (cron : string) (dt : datetime.t) : bool :=
  let parts := strip <$> split (strip cron) in
  match parts with
  | [sec_s; min_s; hour_s; dom_s; month_s; dow_s] =>
      let sec_ok := mem (datetime.second dt) (_parse_field sec_s 0 59) in
      let min_ok := mem (datetime.minute dt) (_parse_field min_s 0 59) in
      let hour_ok := mem (datetime.hour dt) (_parse_field hour_s 0 23) in
      let dom_ok := mem (datetime.day dt) (_parse_field dom_s 1 31) in
      let month_ok := mem (datetime.month dt) (_parse_field month_s 1 12) in
      let dow_vals := fold_sunday (_parse_field dow_s 0 7) in
      let dow_ok := mem (cron_dow dt) dow_vals in
      sec_ok && min_ok && hour_ok && dom_ok && month_ok && dow_ok
  | _ => false
  end.

Definition ranges : list (Z * Z) :=
  [(0, 59); (0, 59); (0, 23); (1, 31); (1, 12); (0, 7)].

Definition is_valid_cron (expr : string) : bool :=
  let parts := split (strip expr) in
  if negb (Nat.eqb (length parts) 6) then false
  else forallb (fun fr : string * (Z * Z) =>
                  nonempty (_parse_field (strip fr.1) fr.2.1 fr.2.2))
         (zip parts ranges).

(** The loop of [_cron_sets]: [None] as soon as a field is empty. *)
Fixpoint parse_all (frs : list (string * (Z * Z))) : option (list (gset Z)) :=
  match frs with
  | [] => Some []
  | fr :: rest =>
      let parsed := _parse_field (strip fr.1) fr.2.1 fr.2.2 in
      if nonempty parsed then (parsed ::.) <$> parse_all rest else None
  end.

Definition cron_fields : Type :=
  gset Z * gset Z * gset Z * gset Z * gset Z * gset Z.

Definition _cron_sets (expr : string) : option cron_fields :=
  let parts := split (strip expr) in
  if negb (Nat.eqb (length parts) 6) then None
  else match parse_all (zip parts ranges) with
       | Some [v0; v1; v2; v3; v4; v5] => Some (v0, v1, v2, v3, v4, v5)
       | _ => None
       end.

(** The test the scan applies to one candidate, field by field in the
    order of the source, each failing test skipping the rest. *)
Definition fields_match (fields : cron_fields) (dt : datetime.t) : bool :=
  let '(sec_set, min_set, hour_set, dom_set, month_set, dow_set) := fields in
  if negb (mem (datetime.second dt) sec_set) then false
  else if negb (mem (datetime.minute dt) min_set) then false
  else if negb (mem (datetime.hour dt) hour_set) then false
  else if negb (mem (datetime.day dt) dom_set) then false
  else if negb (mem (datetime.month dt) month_set) then false
  else if negb (mem (cron_dow dt) dow_set) then false
  else true.

(** [for offset in range(max_scan_seconds)], entered at [offset] with
    [fuel] iterations left; 0 when the range is exhausted. *)
Fixpoint scan (fields : cron_fields) (start : datetime.t) (offset : Z) (fuel : nat)
  : Z :=
  match fuel with
  | O => 0
  | S fuel' =>
      let dt := datetime.add_seconds start offset in
      if fields_match fields dt then datetime.timestamp dt
      else scan fields start (offset + 1) fuel'
  end.

Definition default_max_scan_seconds : Z := 31 * 24 * 3600.

Definition next_run_ts (expr : string) (now : datetime.t) (max_scan_seconds : Z) : Z :=
  match _cron_sets expr with
  | None => 0
  | Some (sec_set, min_set, hour_set, dom_set, month_set, dow_set) =>
      let dow_set := fold_sunday dow_set in
      let start := datetime.add_seconds now 1 in
      scan (sec_set, min_set, hour_set, dom_set, month_set, dow_set)
        start 0 (Z.to_nat max_scan_seconds)
  end.

(** The six expanded sets of an expression whose fields are [p1] .. [p6],
    the day-of-week set closed under 7 -> 0 as both readers do. *)
Definition sets_of (p1 p2 p3 p4 p5 p6 : string) : cron_fields :=
  (_parse_field (strip p1) 0 59, _parse_field (strip p2) 0 59,
   _parse_field (strip p3) 0 23, _parse_field (strip p4) 1 31,
   _parse_field (strip p5) 1 12,
   fold_sunday (_parse_field (strip p6) 0 7)).

(** *** Persisted schedules and run history

    A schedule is a dictionary; a key that is absent is represented by
    the default the code reads it with. *)

Record run_record : Type := {
  entry_ts : Z;
  entry_ok : bool;
  entry_output : string
}.

Record sched : Type := {
  sched_id : string;
  sched_task_id : string;
  sched_cron : string;
  sched_enabled : bool;
  sched_last_run_ts : Z;
  sched_history : list run_record
}.

(** [l[-n:]] *)
Definition last_n {A : Type} (n : nat) (l : list A) : list A :=
  drop (length l - n) l.

Fixpoint find_from (items : list sched) (sid : string) (idx : Z) : Z :=
  match items with
  | [] => -1
  | it :: rest =>
      if String.eqb (sched_id it) sid then idx else find_from rest sid (idx + 1)
  end.

Definition _find_index (items : list sched) (sid : string) : Z :=
  find_from items sid 0.

(** The collection is the content of [schedules.json]; the function
    returns its flag and the collection as rewritten. *)
Definition update_schedule_run_state (sid : string) (last_run_ts : Z)
    (history : list run_record) (items : list sched) : bool * list sched :=
  if String.eqb sid "" then (false, items)
  else
    let idx := _find_index items sid in
    if idx <? 0 then (false, items)
    else match items !! Z.to_nat idx with
         | None => (false, items)
         | Some item =>
             let item := {| sched_id := sched_id item;
                            sched_task_id := sched_task_id item;
                            sched_cron := sched_cron item;
                            sched_enabled := sched_enabled item;
                            sched_last_run_ts := last_run_ts;
                            sched_history := history |} in
             (true, <[Z.to_nat idx := item]> items)
         end.

(** [_record_result], with the clock reading it takes; returns the
    schedule as mutated and the line handed to [_log_line]. *)
Definition _record_result (s : sched) (ok : bool) (output : string)
    (now : datetime.t) : sched * string :=
  let history := sched_history s in
  let entry := {| entry_ts := datetime.timestamp now;
                  entry_ok := ok;
                  entry_output := output |} in
  let history := (history ++ [entry])%list in
  let history := last_n 10 history in
  ({| sched_id := sched_id s;
      sched_task_id := sched_task_id s;
      sched_cron := sched_cron s;
      sched_enabled := sched_enabled s;
      sched_last_run_ts := entry_ts entry;
      sched_history := history |},
   (if String.eqb (sched_id s) "" then "(new)" else sched_id s)
     ++ " -> " ++ (if ok then "OK" else "FAIL"))%string.

(** ["\n".join(lines)] *)
Fixpoint join_lines (lines : list string) : string :=
  match lines with
  | [] => ""
  | [l] => l
  | l :: rest => (l ++ String "010"%char (join_lines rest))%string
  end.

Definition summary_line (r : step_result) : string :=
  (str (or_else (r_type r) (VStr "step")) ++ ": "
     ++ str (or_else (r_output r) (VStr "")))%string.

Definition no_output : string := "(无输出)".

(** [_run_once]: [runner] is what the configured runner did when called
    with the schedule's task, [None] when no runner is configured. *)
Definition _run_once (s : sched) (runner : option (outcome (list step_result)))
    (now : datetime.t) : sched * option string :=
  match runner with
  | None => (s, None)
  | Some (Returned results) =>
      let ok := forallb r_ok results in
      let out_lines := summary_line <$> results in
      let output := match out_lines with
                    | [] => no_output
                    | _ => join_lines out_lines
                    end in
      let '(s, line) := _record_result s ok output now in (s, Some line)
  | Some (Raised e) =>
      let '(s, line) := _record_result s false e now in (s, Some line)
  end.

(** The guards of the tick loop: whether the schedule fires at [now]. *)
Definition due (s : sched) (now : datetime.t) (running_tasks : gset string) : bool :=
  if negb (sched_enabled s) then false
  else
    let cron := strip (sched_cron s) in
    let task_id := strip (sched_task_id s) in
    if String.eqb cron "" || String.eqb task_id "" then false
    else if bool_decide (task_id ∈ running_tasks) then false
    else if datetime.timestamp now =? sched_last_run_ts s then false
    else if negb (_matches cron now) then false
    else true.

(** What the tick loop does with a schedule that is due: run it, then
    write the run state back into the stored collection. *)
Definition fire (s : sched) (runner : option (outcome (list step_result)))
    (now : datetime.t) (items : list sched) : list sched :=
  let s := (_run_once s runner now).1 in
  (update_schedule_run_state (sched_id s) (sched_last_run_ts s)
     (sched_history s) items).2.

(** One firing of the schedule stored under [sid], with a runner
    configured: the tick loop reads the item from the collection it has
    just loaded; [run] is what the runner did and the clock reading. *)
Definition fire_stored (sid : string) (items : list sched)
    (run : outcome (list step_result) * datetime.t) : list sched :=
  let idx := _find_index items sid in
  if idx <? 0 then items
  else match items !! Z.to_nat idx with
       | None => items
       | Some s => fire s (Some run.1) run.2 items
       end.

(** The history stored for [sid], if the collection has such an item. *)
Definition stored_history (sid : string) (items : list sched)
  : option (list run_record) :=
  let idx := _find_index items sid in
  if idx <? 0 then None else sched_history <$> items !! Z.to_nat idx.

(** The record a run leaves in the history. *)
Definition run_entry (run : outcome (list step_result) * datetime.t) : run_record :=
  match run.1 with
  | Returned results =>
      {| entry_ts := datetime.timestamp run.2;
         entry_ok := forallb r_ok results;
         entry_output := match summary_line <$> results with
                         | [] => no_output
                         | ls => join_lines ls
                         end |}
  | Raised e =>
      {| entry_ts := datetime.timestamp run.2;
         entry_ok := false;
         entry_output := e |}
  end.

End schedule.



(** ** The interpreter's world

    The step interpreter talks to the device, sleeps, appends to the log
    and drives the engine process.  These effects are recorded, in order,
    in a trace; what the outside answers is given by a [Host]. *)

Inductive event : Type :=
| EvAdb (argv : list Py.value)
| EvSleep (ms : Z)
| EvLog (line : string)
| EvPrompt (text : string) (timeout_s : Z)
| EvEnsure.

(** A task as [find_by_id] returns it. *)
Record task : Type := {
  task_prompt : Py.value;
  task_steps : list (gmap string Py.value)
}.

Class Host (E : Type) : Type := {
  (** [subprocess.run] on an adb command line under the handlers of
      [_run_adb]: the exit code and the stripped output. *)
  host_adb : list Py.value -> E -> (Z * string) * E;
  (** [run_prompt_via_process]: the exchange with the engine process. *)
  host_prompt : string -> Z -> E -> outcome (bool * string) * E;
  (** [ensure_autoglm_running] *)
  host_ensure : E -> outcome unit * E;
  (** [find_by_id(list_tasks(), task_id)] *)
  host_find_task : string -> E -> option task;
  (** [read_config().device_id] *)
  host_config_device_id : E -> Py.value;
  (** What [str.format] does with a template outside the interpreted
      fragment. *)
  host_format : string -> gmap string Py.value -> option string
}.

Record world (E : Type) : Type := {
  trace : list event;
  env : E
}.
Arguments trace {E} w.
Arguments env {E} w.

(** Computations that read and extend the world and may raise. *)
Definition M (E A : Type) : Type := world E -> outcome A * world E.

Definition ret {E A : Type} (a : A) : M E A := fun w => (Returned a, w).

Definition raise {E A : Type} (msg : string) : M E A := fun w => (Raised msg, w).

Definition bind {E A B : Type} (m : M E A) (k : A -> M E B) : M E B :=
fun w =>
  match m w with
  | (Returned a, w') => k a w'
  | (Raised msg, w') => (Raised msg, w')
  end.

Notation "'let*' x ':=' m 'in' k" := (bind m (fun x => k))
  (at level 10, x pattern, m at level 200, k at level 200).

Definition emit {E : Type} (ev : event) : M E unit :=
fun w => (Returned tt, {| trace := trace w ++ [ev]; env := env w |}).

(** A request to the host: recorded, then answered. *)
Definition ask {E A : Type} (ev : event) (reply : E -> A * E) : M E A :=
fun w =>
  let '(a, e) := reply (env w) in
  (Returned a, {| trace := trace w ++ [ev]; env := e |}).

(** ** adb.py *)

Module adb.

Import Py.

Section with_host.

Context {E : Type} `{Host E}.

Definition _adb_base_args (device_id : option string) : list value :=
match device_id with
| Some d => if String.eqb d "" then [VStr "adb"] else [VStr "adb"; VStr "-s"; VStr d]
| None => [VStr "adb"]
end.

Definition _run_adb (args : list value) (device_id : option string) : M E (Z * string) :=
let argv := _adb_base_args device_id ++ args in
ask (EvAdb argv) (host_adb argv).

Definition shell (cmd : value) (device_id : option string) : M E (bool * string) :=
let* (rc, out) := _run_adb [VStr "shell"; cmd] device_id in
ret (rc =? 0, out).

Definition shell_argv (argv : list string) (device_id : option string) : M E (bool * string) :=
let* (rc, out) := _run_adb (VStr "shell" :: (VStr <$> argv)) device_id in
ret (rc =? 0, out).

Definition dquote : string := String "034"%char EmptyString.

(** [shlex.quote] *)
Definition shlex_safe (c : ascii) : bool :=
isalnum c || contains c "_@%+=:,./-".

Definition shlex_quote (s : string) : string :=
if String.eqb s "" then "''"
else if all_chars shlex_safe s then s
else ("'" ++ replace_char "'" ("'" ++ dquote ++ "'" ++ dquote ++ "'") s ++ "'")%string.

Definition input_text (text : value) (device_id : option string) : M E (bool * string) :=
match text with
| VStr text =>
    let sanitized := replace_char "010" " " (replace_char "013" " " text) in
    let safe := shlex_quote sanitized in
    shell (VStr ("input text " ++ safe)%string) device_id
| _ => raise "AttributeError"
end.

Definition tap (x y : Z) (device_id : option string) : M E (bool * string) :=
shell_argv ["input"; "tap"; str_of_int x; str_of_int y] device_id.

Definition swipe (x1 y1 x2 y2 duration_ms : Z) (device_id : option string)
  : M E (bool * string) :=
shell_argv ["input"; "swipe"; str_of_int x1; str_of_int y1; str_of_int x2;
            str_of_int y2; str_of_int duration_ms] device_id.

(** [re.fullmatch(r"\d+", key)] *)
Definition all_digits (key : string) : bool :=
negb (String.eqb key "") && all_chars isdigit key.

Definition keycode_char (c : ascii) : bool :=
isupper c || isdigit c || Ascii.eqb c "_"%char.

(** [re.fullmatch(r"KEYCODE_[A-Z0-9_]+", key)] *)
Definition keycode_name (key : string) : bool :=
match strip_prefix "KEYCODE_" key with
| Some rest => negb (String.eqb rest "") && all_chars keycode_char rest
| None => false
end.

Definition keyevent (key : value) (device_id : option string) : M E (bool * string) :=
let key := strip (str (or_else key (VStr ""))) in
if String.eqb key "" then ret (false, "invalid keyevent")
else if negb (all_digits key || keycode_name key) then ret (false, "invalid keyevent")
else shell_argv ["input"; "keyevent"; key] device_id.

Definition valid_name (name : string) : bool :=
negb (String.eqb name "")
&& all_chars (fun ch => isalnum ch || contains ch "._$") name.

Definition invalid_name (field : string) : string :=
(field ++ " 非法：仅允许字母/数字/._$")%string.

(** [_validate] inside [start_app]; a value that is not text cannot be
    iterated over. *)
Definition _validate (name : value) (field : string) : M E unit :=
match name with
| VStr s => if valid_name s then ret tt else raise (invalid_name field)
| other => if truthy other then raise "TypeError" else raise (invalid_name field)
end.

Definition monkey (package : string) (device_id : option string) : M E (bool * string) :=
shell_argv ["monkey"; "-p"; package; "-c"; "android.intent.category.LAUNCHER"; "1"]
  device_id.

Definition start_app (package activity action : value) (device_id : option string)
  : M E (bool * string) :=
let* _ := _validate package "package" in
let package := str package in
let* _ := (if truthy activity then
           match activity with
           | VStr a =>
               match split_once "/" a with
               | Some (p1, p2) =>
                   let* _ := _validate (VStr p1) "activity" in
                   _validate (VStr p2) "activity"
               | None => _validate (VStr a) "activity"
               end
           | _ => raise "AttributeError"
           end
         else ret tt) in
let is_action (name : string) :=
  match action with VStr a => String.eqb a name | _ => false end in
if is_action "monkey" || (is_action "auto" && negb (truthy activity))
then monkey package device_id
else if truthy activity
then shell_argv ["am"; "start"; "-n"; (package ++ "/" ++ str activity)%string] device_id
else monkey package device_id.

(** [sleep(max(ms, 0) / 1000)]; the event carries the milliseconds. *)
Definition pause_ms (ms : Z) : M E unit := emit (EvSleep (Z.max ms 0)).

(** [devices(raise_on_error=False)]: serial and status of each line after
    the header. *)
Definition devices : M E (list (string * string)) :=
let* (code, out) := _run_adb [VStr "devices"; VStr "-l"] None in
if negb (code =? 0) then ret []
else
  ret (omap (fun line : string =>
               match split line with
               | serial :: status :: _ => Some (serial, status)
               | _ => None
               end)
            (tail (filter (fun ln : string => ln <> "")
                     (strip <$> splitlines out)))).

End with_host.

End adb.

(** ** tasks_runner.py: the step interpreter *)

Module tasks_runner.

Import Py.

Section with_host.

Context {E : Type} `{Host E}.

(** [_log_line]: the text handed over; the time stamp the function puts
    in front is left out. *)
Definition _log_line (text : string) : M E unit := emit (EvLog text).

(** [ensure_autoglm_running()] *)
Definition ensure_autoglm_running : M E unit :=
fun w =>
  let '(r, e) := host_ensure (env w) in
  (r, {| trace := trace w ++ [EvEnsure]; env := e |}).

(** [run_prompt_via_process(text, timeout_s=...)] *)
Definition run_prompt_via_process (text : string) (timeout_s : Z) : M E (bool * string) :=
fun w =>
  let '(r, e) := host_prompt text timeout_s (env w) in
  (r, {| trace := trace w ++ [EvPrompt text timeout_s]; env := e |}).

Definition _format (value : value) (params : gmap string Py.value) : Py.value :=
match value with
| VStr s =>
    match format host_format s params with
    | Some r => VStr r
    | None => value
    end
| _ => value
end.

Definition _step_device_id (step params : gmap string value)
    (default_device_id : option string) : option string :=
match step !! "device_id" with
| None | Some VNone => default_device_id
| Some raw =>
    let value := _format raw params in
    let device_id := strip (str (or_else value (VStr ""))) in
    if String.eqb device_id "" then default_device_id else Some device_id
end.

(** [int(_format(step.get(key, default), params) or default)]; raises when
    [int] does. *)
Definition int_field (step params : gmap string value) (key : string) (default : Z)
  : M E Z :=
match int (or_else (_format (get step key (VInt default)) params) (VInt default)) with
| Some n => ret n
| None => raise "ValueError"
end.

Definition is_type (stype : value) (name : string) : bool :=
match stype with
| VStr s => String.eqb s name
| _ => false
end.

Definition run_step (step params : gmap string value)
    (default_device_id : option string) : M E (bool * value) :=
let stype := get step "type" (VStr "") in
let device_id := _step_device_id step params default_device_id in
if is_type stype "note" then
  let msg := _format (get step "text" (VStr "")) params in
  let* _ := _log_line ("[note] " ++ str msg)%string in
  ret (true, msg)
else if is_type stype "sleep" then
  let* ms := int_field step params "ms" 500 in
  let* _ := adb.pause_ms ms in
  ret (true, VStr ("sleep " ++ str_of_int ms ++ "ms")%string)
else if is_type stype "adb_shell" then
  let cmd := _format (get step "command" (VStr "")) params in
  let* (ok, out) := adb.shell cmd device_id in
  let* _ := _log_line ("[adb shell] " ++ str cmd ++ " -> " ++ out)%string in
  ret (ok, VStr out)
else if is_type stype "adb_input" then
  let text := _format (get step "text" (VStr "")) params in
  let* (ok, out) := adb.input_text text device_id in
  let* _ := _log_line ("[adb input] " ++ str text ++ " -> " ++ out)%string in
  ret (ok, VStr out)
else if is_type stype "adb_tap" then
  let* x := int_field step params "x" 0 in
  let* y := int_field step params "y" 0 in
  let* (ok, out) := adb.tap x y device_id in
  let* _ := _log_line ("[adb tap] (" ++ str_of_int x ++ "," ++ str_of_int y
                       ++ ") -> " ++ out)%string in
  ret (ok, VStr out)
else if is_type stype "adb_swipe" then
  let* x1 := int_field step params "x1" 0 in
  let* y1 := int_field step params "y1" 0 in
  let* x2 := int_field step params "x2" 0 in
  let* y2 := int_field step params "y2" 0 in
  let* duration_ms := int_field step params "duration_ms" 300 in
  let* (ok, out) := adb.swipe x1 y1 x2 y2 duration_ms device_id in
  let* _ := _log_line ("[adb swipe] (" ++ str_of_int x1 ++ "," ++ str_of_int y1
                       ++ ")->(" ++ str_of_int x2 ++ "," ++ str_of_int y2 ++ ") "
                       ++ str_of_int duration_ms ++ "ms -> " ++ out)%string in
  ret (ok, VStr out)
else if is_type stype "adb_keyevent" then
  let key := _format (get step "key" (VStr "")) params in
  let* (ok, out) := adb.keyevent key device_id in
  let* _ := _log_line ("[adb keyevent] " ++ str key ++ " -> " ++ out)%string in
  ret (ok, VStr out)
else if is_type stype "app_launch" then
  let package := _format (get step "package" (VStr "")) params in
  let activity := or_else (_format (get step "activity" (VStr "")) params) VNone in
  let action := _format (get step "action" (VStr "auto")) params in
  let* (ok, out) := adb.start_app package activity action device_id in
  let* _ := _log_line ("[app launch] " ++ str package ++ " "
                       ++ str (or_else activity (VStr "")) ++ " -> " ++ out)%string in
  ret (ok, VStr out)
else if is_type stype "autoglm_prompt" then
  let text := _format (get step "text" (VStr "")) params in
  let* timeout_s := int_field step params "timeout_s" 120 in
  let* (ok, output) := run_prompt_via_process (str text) timeout_s in
  let* _ := _log_line ("[autoglm prompt] " ++ str text)%string in
  let* _ := foldr (fun ln k => let* _ := _log_line ("[autoglm prompt output] " ++ ln)%string in k)
              (ret tt) (splitlines output) in
  ret (ok, VStr output)
else ret (false, VStr ("未知步骤类型: " ++ str stype)%string).

(** The default device of a run: the configured one, else the first one
    adb lists with status [device]. *)
Definition default_device : M E (option string) :=
fun w =>
  let cfg := host_config_device_id (env w) in
  if truthy cfg then (Returned (Some (str cfg)), w)
  else (let* ds := adb.devices in
        ret (fst <$> head (filter (fun d : string * string => d.2 = "device") ds))) w.

Definition app_removed (app_id : value) : string :=
("应用库功能已移除，无法执行应用 " ++ str (or_else app_id (VStr "未指定"))
 ++ "，请直接在任务步骤中编排 adb_* 或 autoglm_prompt")%string.

(** The [for st in steps] loop; [results] is the list built so far. *)
Fixpoint run_steps (steps : list (gmap string value)) (params : gmap string value)
    (default_device_id : option string) (results : list step_result)
  : M E (list step_result) :=
match steps with
| [] => ret results
| st :: rest =>
    if is_type (get st "type" VNone) "app" then
      let app_id := get st "app_id" (VStr "") in
      ret (results ++ [{| r_type := VStr "app"; r_app_id := Some app_id;
                          r_ok := false;
                          r_output := VStr (app_removed app_id) |}])
    else
      let* (ok, out) := run_step st params default_device_id in
      let results := results ++ [{| r_type := get st "type" VNone;
                                    r_app_id := None;
                                    r_ok := ok; r_output := out |}] in
      if negb ok then ret results
      else run_steps rest params default_device_id results
end.

Definition needs_autoglm (steps : list (gmap string value)) : bool :=
existsb (fun st => String.eqb (str (or_else (get st "type" (VStr "")) (VStr "")))
                     "autoglm_prompt") steps.

Definition run_task_by_id (task_id : string) (params : gmap string value)
  : M E (list step_result) :=
fun w =>
  match host_find_task task_id (env w) with
  | None => (Raised "未找到任务", w)
  | Some task =>
      (let* default_device_id := default_device in
       let prompt := task_prompt task in
       let steps := task_steps task in
       if truthy prompt then
         let timeout_s :=
           match int (or_else (_format (get params "timeout_s" (VInt 600)) params)
                        (VInt 600)) with
           | Some n => n
           | None => 600
           end in
         let* (ok, out) := run_prompt_via_process (str (or_else prompt (VStr ""))) timeout_s in
         ret [{| r_type := VStr "autoglm_prompt"; r_app_id := None;
                 r_ok := ok; r_output := VStr out |}]
       else
         let* _ := (if needs_autoglm steps then ensure_autoglm_running else ret tt) in
         run_steps steps params default_device_id []) w
  end.

End with_host.

(** *** Interactive sessions

    [_sessions] is a dictionary whose insertion order the code relies on:
    an association list, oldest key first.  The fresh identifier and the
    result of [stat] on the log file are inputs. *)

Definition MAX_SESSIONS : nat := 50.

Record registry : Type := {
  _sessions : list (string * list string);
  _session_offsets : gmap string Z
}.

Definition empty_registry : registry :=
{| _sessions := []; _session_offsets := ∅ |}.

(** [d[key] = v]: in place when the key is present, at the end otherwise. *)
Fixpoint dict_set {V : Type} (key : string) (v : V) (d : list (string * V))
  : list (string * V) :=
match d with
| [] => [(key, v)]
| (k, x) :: rest =>
    if String.eqb k key then (k, v) :: rest else (k, x) :: dict_set key v rest
end.

(** [del d[key]] *)
Definition dict_del {V : Type} (key : string) (d : list (string * V))
  : list (string * V) :=
filter (fun kv => kv.1 <> key) d.

Definition dict_has {V : Type} (key : string) (d : list (string * V)) : bool :=
existsb (fun kv => String.eqb kv.1 key) d.

(** [new_session]; [log_size] is [None] when [stat] raises.  Returns the
    registry and the line logged afterwards. *)
Definition new_session (sid : string) (log_size : option Z) (r : registry)
  : registry * string :=
let r :=
  if Nat.leb MAX_SESSIONS (length (_sessions r)) then
    match _sessions r with
    | (oldest_sid, _) :: _ =>
        {| _sessions := dict_del oldest_sid (_sessions r);
           _session_offsets := delete oldest_sid (_session_offsets r) |}
    | [] => r
    end
  else r in
({| _sessions := dict_set sid [] (_sessions r);
    _session_offsets :=
      <[sid := match log_size with Some n => n | None => 0 end]>
        (_session_offsets r) |},
 ("[session " ++ sid ++ "] started")%string).

(** What [send_interactive] writes to the registry once the exchange is
    over: the new offset and the lines of the exchange; [None] when the
    session is gone ([ValueError]). *)
Definition send_interactive_record (sid : string) (offset : Z) (text : string)
    (output_lines : list string) (r : registry) : option registry :=
if negb (dict_has sid (_sessions r)) then None
else
  let new_lines :=
    ("[session " ++ sid ++ "] " ++ text)%string
    :: ((fun ln => "[session " ++ sid ++ "] " ++ ln)%string <$> output_lines) in
  Some {| _sessions := (fun kv : string * list string =>
                          if String.eqb kv.1 sid then (kv.1, kv.2 ++ new_lines)
                          else kv) <$> _sessions r;
          _session_offsets := <[sid := offset]> (_session_offsets r) |}.

(** [get_interactive_log] *)
Definition get_interactive_log (sid : string) (r : registry) : list string :=
match list_find (fun kv : string * list string => kv.1 = sid) (_sessions r) with
| Some (_, (_, lines)) => schedule.last_n 50 lines
| None => []
end.

End tasks_runner.

(** ** autoglm_process.py: the supervisor *)

Module autoglm_process.

Inductive signal : Type := SIG0 | SIGTERM | SIGKILL.

(** What the supervisor asks of the operating system, in order. *)
Inductive sys_event : Type :=
| SysKill (pid : Z) (sig : signal) (sent : bool)
| SysSleep (ms : Z)
| SysPoll (pid : Z) (exited : bool)
| SysUnlink
| SysCloseStdin.

Class OS (O : Type) : Type := {
  (** [os.kill(pid, sig)]: whether the call returned rather than raised. *)
  os_kill : Z -> signal -> O -> bool * O;
  (** [proc.poll() is not None] for the child with this pid. *)
  os_poll : Z -> O -> bool * O;
  (** The passing of [ms] milliseconds. *)
  os_sleep : Z -> O -> O
}.

(** The [Popen] handle kept in [_proc]. *)
Record popen : Type := {
  popen_pid : Z;
  popen_stdin : bool
}.

(** The pid marker (the text of [autoglm.pid], [None] when the file is
    absent), the handle [_proc], the calls made so far and the system. *)
Record supervisor (O : Type) : Type := {
  pid_file : option string;
  _proc : option popen;
  calls : list sys_event;
  os : O
}.
Arguments pid_file {O} s.
Arguments _proc {O} s.
Arguments calls {O} s.
Arguments os {O} s.

Section with_os.

Context {O : Type} `{OS O}.

Definition kill (pid : Z) (sig : signal) (s : supervisor O) : bool * supervisor O :=
let '(sent, o) := os_kill pid sig (os s) in
(sent, {| pid_file := pid_file s; _proc := _proc s;
          calls := calls s ++ [SysKill pid sig sent]; os := o |}).

Definition _is_running (pid : Z) (s : supervisor O) : bool * supervisor O :=
kill pid SIG0 s.

Definition sleep (ms : Z) (s : supervisor O) : supervisor O :=
{| pid_file := pid_file s; _proc := _proc s;
   calls := calls s ++ [SysSleep ms]; os := os_sleep ms (os s) |}.

(** [pid_file().unlink()] with its exception swallowed. *)
Definition unlink (s : supervisor O) : supervisor O :=
{| pid_file := None; _proc := _proc s;
   calls := calls s ++ [SysUnlink]; os := os s |}.

(** The liveness reported and the pid on record. *)
Definition status (s : supervisor O) : (bool * option Z) * supervisor O :=
let pid :=
  match pid_file s with
  | Some text => Py.int_of_str (Py.strip text)
  | None => None
  end in
let '(running, pid, s) :=
  match pid with
  | Some p =>
      if p =? 0 then (false, Some p, s)
      else
        let '(running, s) := _is_running p s in
        if running then (true, Some p, s) else (false, None, unlink s)
  | None => (false, None, s)
  end in
let s :=
  match _proc s with
  | Some proc =>
      let '(exited, o) := os_poll (popen_pid proc) (os s) in
      {| pid_file := pid_file s;
         _proc := if exited then None else Some proc;
         calls := calls s ++ [SysPoll (popen_pid proc) exited];
         os := o |}
  | None => s
  end in
((running, pid), s).

(** [for _ in range(n): if not _is_running(pid): break; time.sleep(0.2)] *)
Fixpoint wait_exit (n : nat) (pid : Z) (s : supervisor O) : supervisor O :=
match n with
| 0%nat => s
| S n' =>
    let '(running, s) := _is_running pid s in
    if negb running then s else wait_exit n' pid (sleep 200 s)
end.

Definition nothing_to_stop : string := "当前没有由 Web 管理端启动的进程".
Definition stop_failed : string := "停止失败: ".
Definition stopped : string := "已停止".

Definition stop (s : supervisor O) : (bool * string) * supervisor O :=
let '((_, pid), s) := status s in
match pid with
| None => ((false, nothing_to_stop), s)
| Some pid =>
    if pid =? 0 then ((false, nothing_to_stop), s)
    else
      let '(sent, s) := kill pid SIGTERM s in
      if negb sent then ((false, stop_failed), s)
      else
        let s := wait_exit 30 pid s in
        let '(running, s) := _is_running pid s in
        let s := if running then (kill pid SIGKILL s).2 else s in
        let s := unlink s in
        let s :=
          match _proc s with
          | Some proc =>
              if popen_stdin proc then
                {| pid_file := pid_file s; _proc := _proc s;
                   calls := calls s ++ [SysCloseStdin]; os := os s |}
              else s
          | None => s
          end in
        ((true, stopped),
         {| pid_file := pid_file s; _proc := None; calls := calls s; os := os s |})
end.

End with_os.

(** *** Reading the log

    The log file is its bytes, [None] when it does not exist; one call
    sees one snapshot of it.  [decode] is
    [bytes.decode("utf-8", errors="replace")]. *)

(** [f.read(n)] on what is left of the file: all of it for a negative
    [n]. *)
Definition read (n : Z) (rest : list Byte.byte) : list Byte.byte :=
if n <? 0 then rest else take (Z.to_nat n) rest.

(** The position the read starts at. *)
Definition tail_start (size offset max_bytes : Z) : Z :=
if (offset <? 0) || (size <? offset) then Z.max 0 (size - max_bytes) else offset.

(** The bytes [tail_log] reads. *)
Definition tail_data (content : list Byte.byte) (offset max_bytes : Z) : list Byte.byte :=
let size := Z.of_nat (length content) in
read max_bytes (drop (Z.to_nat (tail_start size offset max_bytes)) content).

Definition tail_log (decode : list Byte.byte -> string)
    (lf : option (list Byte.byte)) (offset max_bytes : Z) : Z * string :=
match lf with
| None => (0, "")
| Some content =>
    let size := Z.of_nat (length content) in
    let offset := tail_start size offset max_bytes in
    let data := read max_bytes (drop (Z.to_nat offset) content) in
    let new_offset := offset + Z.of_nat (length data) in
    (new_offset, decode data)
end.

Definition default_max_bytes : Z := 32000.

End autoglm_process.

(** ** Templates as the specification describes them

    Literal text with named placeholders.  [text_of] writes such a
    template in the syntax of [str.format]; [render] substitutes the
    parameters, and fails when one is absent. *)

Module template.

Import Py.

Inductive piece : Type :=
| Lit (c : ascii)
| Field (name : string).

Definition piece_text (p : piece) : string :=
match p with
| Lit c =>
    if Ascii.eqb c "{"%char then "{{"
    else if Ascii.eqb c "}"%char then "}}"
    else String c EmptyString
| Field name => ("{" ++ name ++ "}")%string
end.

Fixpoint text_of (ps : list piece) : string :=
match ps with
| [] => EmptyString
| p :: rest => (piece_text p ++ text_of rest)%string
end.

(** A character with no meaning inside a replacement field. *)
Definition field_char (c : ascii) : bool :=
negb (fmt_special c || Ascii.eqb c "}"%char).

(** A placeholder name with no syntax of its own: not a numeral, and free
    of braces, brackets, [!], [:] and [.]. *)
Definition plain_name (name : string) : bool :=
negb (all_chars isdigit name) && all_chars field_char name.

Definition plain (p : piece) : bool :=
match p with
| Lit _ => true
| Field name => plain_name name
end.

Fixpoint render (params : gmap string value) (ps : list piece) : option string :=
match ps with
| [] => Some EmptyString
| Lit c :: rest => String c <$> render params rest
| Field name :: rest =>
    match params !! name with
    | Some v => String.append (str v) <$> render params rest
    | None => None
    end
end.

End template.

(** ** Executing steps one by one *)

Module run_spec.

Import Py tasks_runner.

Section with_host.

Context {E : Type} `{Host E}.

(** What executing one step adds to the result list: the fixed failure
    of a retired [app] step, else what [run_step] returns. *)
Definition step_entry (st params : gmap string value)
    (default_device_id : option string) : M E step_result :=
if is_type (get st "type" VNone) "app" then
  let app_id := get st "app_id" (VStr "") in
  ret {| r_type := VStr "app"; r_app_id := Some app_id; r_ok := false;
         r_output := VStr (app_removed app_id) |}
else
  let* (ok, out) := run_step st params default_device_id in
  ret {| r_type := get st "type" VNone; r_app_id := None;
         r_ok := ok; r_output := out |}.

(** Executing every step of a list, first to last, whatever the flags. *)
Fixpoint entries (steps : list (gmap string value)) (params : gmap string value)
    (default_device_id : option string) : M E (list step_result) :=
match steps with
| [] => ret []
| st :: rest =>
    let* r := step_entry st params default_device_id in
    let* rs := entries rest params default_device_id in
    ret (r :: rs)
end.

(** What [run_task_by_id] does before the loop over the steps of a
    step-driven task. *)
Definition preamble (steps : list (gmap string value)) : M E (option string) :=
let* default_device_id := default_device in
let* _ := (if needs_autoglm steps then ensure_autoglm_running else ret tt) in
ret default_device_id.

End with_host.

End run_spec.

(** ** Histories of the session registry *)

Module session_spec.

Import tasks_runner.

(** The two operations that write to the registry: creating a session,
    and recording an exchange in one. *)
Inductive session_op : Type :=
| OpNew (sid : string) (log_size : option Z)
| OpSend (sid : string) (offset : Z) (text : string) (output_lines : list string).

Definition apply_op (r : registry) (op : session_op) : registry :=
match op with
| OpNew sid log_size => (new_session sid log_size r).1
| OpSend sid offset text output_lines =>
    match send_interactive_record sid offset text output_lines r with
    | Some r' => r'
    | None => r
    end
end.

Definition run_ops (ops : list session_op) : registry :=
foldl apply_op empty_registry ops.

(** The identifiers of the sessions created, in order of creation. *)
Definition created (ops : list session_op) : list string :=
omap (fun op => match op with OpNew sid _ => Some sid | OpSend _ _ _ _ => None end) ops.

(** The identifiers held, oldest first. *)
Definition held (r : registry) : list string := (_sessions r).*1.

End session_spec.

(** ** Reading a trace of system calls *)

Module sys_spec.

Import autoglm_process.

(** The time spent sleeping, in milliseconds. *)
Fixpoint slept (evs : list sys_event) : Z :=
match evs with
| [] => 0
| SysSleep ms :: rest => ms + slept rest
| _ :: rest => slept rest
end.

Definition is_sigkill (ev : sys_event) : bool :=
match ev with
| SysKill _ SIGKILL _ => true
| _ => false
end.

Definition is_sigterm_to (pid : Z) (ev : sys_event) : bool :=
match ev with
| SysKill p SIGTERM _ => p =? pid
| _ => false
end.

End sys_spec.

(** ** schedule.py: editing the stored collection *)

Module schedule_store.

Import Py schedule.

Definition with_id (s : sched) (sid : string) : sched :=
{| sched_id := sid;
   sched_task_id := sched_task_id s;
   sched_cron := sched_cron s;
   sched_enabled := sched_enabled s;
   sched_last_run_ts := sched_last_run_ts s;
   sched_history := sched_history s |}.

(** [upsert_schedule]; [uuid] is the value of [uuid.uuid4().hex] and
    [items] the collection read from the file.  Returns the schedule and
    the collection written back.  The three [setdefault] calls leave a
    [sched] as it is, a key that is absent being represented by its
    default already. *)
Definition upsert_schedule (s : sched) (uuid : string) (items : list sched)
  : sched * list sched :=
let s := if String.eqb (sched_id s) "" then with_id s uuid else s in
let idx := _find_index items (sched_id s) in
if 0 <=? idx then (s, <[Z.to_nat idx := s]> items)
else (s, items ++ [s]).

(** [delete_schedule]: the flag and the collection as it is afterwards;
    the file is rewritten only when an item has gone. *)
Definition delete_schedule (sid : string) (items : list sched) : bool * list sched :=
let new_items := filter (fun it => sched_id it <> sid) items in
let changed := negb (Nat.eqb (length new_items) (length items)) in
if changed then (changed, new_items) else (changed, items).

End schedule_store.

(** ** app.py: saving a schedule *)

Module web_api.

Import Py schedule schedule_store.

Definition no_such_task : string := "任务不存在".
Definition bad_cron : string := "cron 表达式无效（需 6 段，秒 分 时 日 月 周）".

(** [api_save_schedule]: [task_ids] are the ids of [list_tasks()],
    [items] the stored schedules.  An [HTTPException] is a [Raised]
    outcome, and then nothing is written. *)
Definition api_save_schedule (payload : gmap string value) (task_ids : list string)
    (uuid : string) (items : list sched) : outcome (sched * list sched) :=
let task_id := strip (str (get payload "task_id" (VStr ""))) in
let cron := strip (str (get payload "cron" (VStr ""))) in
let sid := strip (str (get payload "id" (VStr ""))) in
let enabled := truthy (get payload "enabled" (VBool true)) in
if String.eqb task_id "" || negb (existsb (String.eqb task_id) task_ids)
then Raised no_such_task
else if String.eqb cron "" || negb (is_valid_cron cron)
then Raised bad_cron
else
  let existing := head (filter (fun s => sched_id s = sid) items) in
  let new_sched :=
    {| sched_id := sid;
       sched_task_id := task_id;
       sched_cron := cron;
       sched_enabled := enabled;
       sched_last_run_ts :=
         match existing with Some b => sched_last_run_ts b | None => 0 end;
       sched_history :=
         match existing with Some b => sched_history b | None => [] end |} in
  Returned (upsert_schedule new_sched uuid items).

End web_api.
(** ** adb.py: screenshots

    Bytes are [list Byte.byte].  [_run_adb_bytes] is what the outside
    answers to one [adb exec-out screencap -p]: the exit code, the bytes
    of standard output and the error text; [S] is the state of the
    outside. *)

Module adb_screen.

Import Py.

Definition byte_val (b : Byte.byte) : Z := Z.of_N (Byte.to_N b).

(** [b"\x89PNG\r\n\x1a\n"] *)
Definition PNG_SIGNATURE : list Byte.byte :=
[Byte.x89; Byte.x50; Byte.x4e; Byte.x47; Byte.x0d; Byte.x0a; Byte.x1a; Byte.x0a].

(** [b"IHDR"] *)
Definition IHDR : list Byte.byte := [Byte.x49; Byte.x48; Byte.x44; Byte.x52].

(** [a == b] on bytes. *)
Fixpoint bytes_eqb (a b : list Byte.byte) : bool :=
match a, b with
| [], [] => true
| x :: a', y :: b' => Byte.eqb x y && bytes_eqb a' b'
| _, _ => false
end.

(** [not data] *)
Definition is_empty (data : list Byte.byte) : bool :=
match data with
| [] => true
| _ :: _ => false
end.

(** [data.startswith(prefix)] *)
Definition startswith (prefix data : list Byte.byte) : bool :=
bytes_eqb (take (length prefix) data) prefix.

(** [data[i:j]] for indices that are not negative. *)
Definition slice (i j : nat) (data : list Byte.byte) : list Byte.byte :=
take (j - i) (drop i data).

(** [int.from_bytes(bs, "big", signed=False)] *)
Definition from_bytes_big (bs : list Byte.byte) : Z :=
fold_left (fun acc b => 256 * acc + byte_val b) bs 0.

(** [n.to_bytes(length, "big")] for [0 <= n < 256 ^ length]. *)
Fixpoint to_bytes_big (length : nat) (n : Z) : list Byte.byte :=
match length with
| O => []
| S k =>
    to_bytes_big k (n / 256)
    ++ [match Byte.of_N (Z.to_N (n mod 256)) with
        | Some b => b
        | None => Byte.x00
        end]
end.

Definition png_dimensions (png : list Byte.byte) : option Z * option Z :=
if negb (startswith PNG_SIGNATURE png) then (None, None)
else if (length png <? 24)%nat then (None, None)
else if negb (bytes_eqb (slice 12 16 png) IHDR) then (None, None)
else
  let w := from_bytes_big (slice 16 20 png) in
  let h := from_bytes_big (slice 20 24 png) in
  if (w <=? 0) || (h <=? 0) then (None, None)
  else (Some w, Some h).

Definition bad_signature : string := "截图格式异常（PNG signature 不匹配）".
Definition screenshot_failed : string := "截图失败".

(** Whether an answer is returned as the screenshot. *)
Definition acceptable (answer : Z * list Byte.byte * string) : bool :=
let '(rc, data, err) := answer in
if negb (rc =? 0) || is_empty data then false
else if (length data <=? length PNG_SIGNATURE + 8)%nat
        || negb (startswith PNG_SIGNATURE data) then false
else true.

Section with_outside.

Context {S : Type}.
Variable _run_adb_bytes : list value -> option string -> S -> (Z * list Byte.byte * string) * S.

Definition screencap_args : list value :=
[VStr "exec-out"; VStr "screencap"; VStr "-p"].

(** [for _ in range(attempts)] with [last_err] as it stands. *)
Fixpoint screenshot_loop (attempts : nat) (device_id : option string)
    (last_err : string) (s : S) : (bool * list Byte.byte * string) * S :=
match attempts with
| O => ((false, [], if String.eqb last_err "" then screenshot_failed else last_err), s)
| Datatypes.S n =>
    let '((rc, data, err), s) := _run_adb_bytes screencap_args device_id s in
    if negb (rc =? 0) || is_empty data then
      screenshot_loop n device_id
        (if String.eqb err "" then ("exec-out failed rc=" ++ str_of_int rc)%string
         else err) s
    else if (length data <=? length PNG_SIGNATURE + 8)%nat
            || negb (startswith PNG_SIGNATURE data) then
      screenshot_loop n device_id bad_signature s
    else ((true, data, "ok"), s)
end.

Definition screenshot_png (device_id : option string) (retries : Z) (s : S)
  : (bool * list Byte.byte * string) * S :=
screenshot_loop (Z.to_nat (Z.max 1 (retries + 1))) device_id "" s.

(** The state of the outside after [k] requests for a screenshot, and
    the answer to the next one. *)
Fixpoint after_requests (k : nat) (device_id : option string) (s : S) : S :=
match k with
| O => s
| Datatypes.S n =>
    after_requests n device_id (_run_adb_bytes screencap_args device_id s).2
end.

Definition answer (k : nat) (device_id : option string) (s : S)
  : Z * list Byte.byte * string :=
(_run_adb_bytes screencap_args device_id (after_requests k device_id s)).1.

End with_outside.

End adb_screen.

(** ** Names that reach the device *)

Module adb_spec.

Import Py.

(** A character of a component name [package/activity]. *)
Definition component_char (ch : ascii) : bool :=
isalnum ch || contains ch "._$/".

Definition LF : ascii := "010"%char.
Definition CR : ascii := "013"%char.

End adb_spec.

(** ** Reading the session registry *)

Module session_view.

Import tasks_runner.

(** [d.get(sid)] on the ordered dictionary. *)
Definition lookup (sid : string) (d : list (string * list string))
  : option (list string) :=
(fun found : nat * (string * list string) => found.2.2)
  <$> list_find (fun kv : string * list string => kv.1 = sid) d.

(** The lines kept for a session. *)
Definition lines_of (sid : string) (r : registry) : option (list string) :=
lookup sid (_sessions r).

(** The lines an exchange adds to its session. *)
Definition exchange_lines (sid text : string) (output_lines : list string)
  : list string :=
("[session " ++ sid ++ "] " ++ text)%string
:: ((fun ln => "[session " ++ sid ++ "] " ++ ln)%string <$> output_lines).

End session_view.

(** ** Reading the supervisor's state and calls *)

Module sys_view.

Import autoglm_process.

(** The pid the marker holds, as [status] reads it. *)
Definition recorded_pid {O : Type} (s : supervisor O) : option Z :=
match pid_file s with
| Some text => Py.int_of_str (Py.strip text)
| None => None
end.

(** A call that observes or tidies up: a liveness probe, the removal of
    the marker, a poll of the handle. *)
Definition is_probe (ev : sys_event) : bool :=
match ev with
| SysKill _ SIG0 _ | SysUnlink | SysPoll _ _ => true
| _ => false
end.

(** [os.kill], whatever the signal. *)
Definition is_kill (ev : sys_event) : bool :=
match ev with
| SysKill _ _ _ => true
| _ => false
end.

(** No [os.kill] but to [pid]. *)
Definition only_to (pid : Z) (ev : sys_event) : bool :=
match ev with
| SysKill p _ _ => p =? pid
| _ => true
end.

End sys_view.

(** ** What a computation does to the world *)

Module effects.

Definition is_adb (ev : event) : bool :=
match ev with
| EvAdb _ => true
| _ => false
end.

(** The number of adb commands among the events. *)
Definition device_commands (evs : list event) : nat :=
length (List.filter is_adb evs).

Section with_env.

Context {E A : Type}.

(** The world is never changed. *)
Definition pure (m : M E A) : Prop :=
forall w, (m w).2 = w.

(** No exception. *)
Definition total (m : M E A) : Prop :=
forall w, exists a, (m w).1 = Returned a.

(** An exception leaves the world as it was. *)
Definition atomic (m : M E A) : Prop :=
forall w msg, (m w).1 = Raised msg -> (m w).2 = w.

(** Events are only added, at most [k] adb commands among them. *)
Definition bounded (k : nat) (m : M E A) : Prop :=
forall w, exists evs,
  trace (m w).2 = trace w ++ evs /\ (device_commands evs <= k)%nat.

End with_env.

End effects.

(** ** tasks_runner.py: one exchange of an interactive session

    What [send_interactive] does between reading the offset of the
    session and recording the exchange (the result of which is what
    [send_interactive_record] takes).  [log_at k] is the log file as
    the [k]-th call of [tail_log] finds it and [sent] what [send_input]
    returned; that the engine is running has been checked before. *)

Module interactive.

Import Py autoglm_process tasks_runner.

Definition no_new_log : string := "已发送，暂无新日志（可能仍在执行）".
Definition send_failed (msg : string) : string := ("执行失败: " ++ msg)%string.

Section with_log.

Variable decode : list Byte.byte -> string.
Variable log_at : nat -> option (list Byte.byte).

(** [for _ in range(n)], entered with [k] calls of [tail_log] made and
    [slept] milliseconds slept; returns the offset, the lines collected,
    the calls made and the time slept. *)
Fixpoint poll (n k : nat) (offset : Z) (collected : list string) (slept : Z)
  : Z * list string * nat * Z :=
match n with
| O => (offset, collected, k, slept)
| S n' =>
    let '(new_offset, chunk) := tail_log decode (log_at k) offset default_max_bytes in
    let offset := new_offset in
    if negb (String.eqb chunk "") then
      let collected := collected ++ splitlines chunk in
      if negb (String.eqb (strip chunk) "") then (offset, collected, S k, slept)
      else poll n' (S k) offset collected (slept + 250)
    else poll n' (S k) offset collected (slept + 250)
end.

(** The lines reported for what was collected. *)
Definition output_lines_of (collected : list string) : list string :=
match filter (fun ln => strip ln <> "") collected with
| [] => [no_new_log]
| ls => ls
end.

(** The offset and the output lines of the exchange. *)
Definition exchange (offset : Z) (sent : bool * string) : Z * list string :=
if negb sent.1 then (offset, [send_failed sent.2])
else
  let '(offset, collected, _, _) := poll 12 0 offset [] 0 in
  (offset, output_lines_of collected).

End with_log.

End interactive.

(** ** Sample data for the worked examples *)

Module samples.

Import schedule.

Definition nightly : sched :=
  {| sched_id := "s1"; sched_task_id := "t1"; sched_cron := "0 0 3 * * *";
     sched_enabled := true; sched_last_run_ts := 0; sched_history := [] |}.

Definition other : sched :=
  {| sched_id := "s2"; sched_task_id := "t2"; sched_cron := "0 */5 * * * *";
     sched_enabled := true; sched_last_run_ts := 0; sched_history := [] |}.

Definition ok_result : step_result :=
  {| r_type := Py.VStr "note"; r_app_id := None; r_ok := true;
   r_output := Py.VStr "done" |}.

(** Fifteen runs, one a day, the k-th at instant [86400 * k]. *)
Definition run_at (k : nat) : outcome (list step_result) * datetime.t :=
  (Returned [ok_result], 86400 * Z.of_nat k).

Definition fifteen_runs : list (outcome (list step_result) * datetime.t) :=
  run_at <$> seq 2 14.

Definition step_a : gmap string Py.value :=
{[ "type" := Py.VStr "note"; "text" := Py.VStr "hello {name}" ]}.

Definition step_b : gmap string Py.value :=
{[ "type" := Py.VStr "adb_keyevent"; "key" := Py.VStr "3;rm -rf /" ]}.

Definition step_c : gmap string Py.value :=
{[ "type" := Py.VStr "adb_shell"; "command" := Py.VStr "input keyevent 3" ]}.

Definition abc_task : task :=
{| task_prompt := Py.VStr ""; task_steps := [step_a; step_b; step_c] |}.

(** A host that counts the adb commands it has answered; every command
    succeeds with the output [ok]. *)
Definition counting_host : Host nat :=
{| host_adb := fun _ n => ((0, "ok"), S n);
   host_prompt := fun _ _ n => (Returned (true, "done"), n);
   host_ensure := fun n => (Returned tt, n);
   host_find_task := fun task_id _ =>
     if String.eqb task_id "abc" then Some abc_task else None;
   host_config_device_id := fun _ => Py.VStr "emulator-5554";
   host_format := fun _ _ => None |}.

Definition fresh_world : world nat := {| trace := []; env := 0%nat |}.

Definition name_world : gmap string Py.value := {[ "name" := Py.VStr "world" ]}.

(** The template ["hello {name}"]. *)
Definition hello : list template.piece :=
[template.Lit "h"; template.Lit "e"; template.Lit "l"; template.Lit "l";
 template.Lit "o"; template.Lit " "; template.Field "name"].

Definition sleep_step (ms : Py.value) : gmap string Py.value :=
{[ "type" := Py.VStr "sleep"; "ms" := ms ]}.

(** Fifty-one sessions [s0] .. [s50], created while the log grows by a
    hundred bytes each time; [s0] is used after [s1] has been created. *)
Definition session_id (k : nat) : string := ("s" ++ Py.str_of_int (Z.of_nat k))%string.

Definition create (k : nat) : session_spec.session_op :=
session_spec.OpNew (session_id k) (Some (100 * Z.of_nat k)).

Definition session_history : list session_spec.session_op :=
[create 0; create 1; session_spec.OpSend (session_id 0) 250 "hello" ["hi"]]
++ (create <$> seq 2 49).

(** A system in which the supervised process answers the next [n]
    queries and is gone after that. *)
Definition mortal : autoglm_process.OS nat :=
{| autoglm_process.os_kill := fun _ _ n =>
     match n with
     | O => (false, O)
     | S m => (true, m)
     end;
   autoglm_process.os_poll := fun _ n =>
     match n with
     | O => (true, O)
     | S m => (false, m)
     end;
   autoglm_process.os_sleep := fun _ n => n |}.

Definition engine : autoglm_process.popen :=
{| autoglm_process.popen_pid := 4242; autoglm_process.popen_stdin := true |}.

(** The engine on record under pid 4242, alive for [n] more queries. *)
Definition supervised (n : nat) : autoglm_process.supervisor nat :=
{| autoglm_process.pid_file := Some (String "4" (String "2" (String "4" (String "2"
                                 (String "010" EmptyString)))));
   autoglm_process._proc := Some engine;
   autoglm_process.calls := [];
   autoglm_process.os := n |}.

Definition ascii_decode (data : list Byte.byte) : string :=
string_of_list_ascii (ascii_of_byte <$> data).

Definition three_bytes : list Byte.byte := [Byte.x61; Byte.x62; Byte.x63].

End samples.

(** * Properties *)

(** ** Facts about the string builtins *)

Module Py_facts.

Import Py.

Lemma lstrip_by_idem sp s : lstrip_by sp (lstrip_by sp s) = lstrip_by sp s.
Proof.
  induction s as [|c s IH]; simpl; [reflexivity|].
  destruct (sp c) eqn:E; [assumption|]. simpl. by rewrite E.
Qed.

Lemma rstrip_by_idem sp s : rstrip_by sp (rstrip_by sp s) = rstrip_by sp s.
Proof.
  induction s as [|c s IH]; simpl; [reflexivity|].
  destruct (rstrip_by sp s) as [|c' r] eqn:E.
  - destruct (sp c) eqn:Ec; simpl; [reflexivity|]. by rewrite Ec.
  - change (rstrip_by sp (String c (String c' r)))
      with (match rstrip_by sp (String c' r) with
            | EmptyString => if sp c then EmptyString else String c EmptyString
            | r0 => String c r0
            end).
    by rewrite IH.
Qed.

Lemma rstrip_lstrip sp s :
  rstrip_by sp (lstrip_by sp s) = lstrip_by sp (rstrip_by sp s).
Proof.
  induction s as [|c s IH]; simpl; [reflexivity|].
  destruct (sp c) eqn:Ec.
  - rewrite IH. destruct (rstrip_by sp s) eqn:E; simpl; [reflexivity|].
    by rewrite Ec.
  - simpl. destruct (rstrip_by sp s) eqn:E; simpl; by rewrite Ec.
Qed.

Lemma strip_idem s : strip (strip s) = strip s.
Proof.
  unfold strip.
  by rewrite rstrip_lstrip, rstrip_by_idem, lstrip_by_idem.
Qed.

End Py_facts.

(** ** The cron scheduler *)

Module schedule_facts.

Import schedule.

Lemma mem_empty (x : Z) : mem x ∅ = false.
Proof. unfold mem. apply bool_decide_eq_false. apply not_elem_of_empty. Qed.

Lemma nonempty_false (s : gset Z) : nonempty s = false -> s = ∅.
Proof.
  unfold nonempty. intros H. apply negb_false_iff in H.
  by apply bool_decide_eq_true in H.
Qed.

Lemma fold_sunday_empty : fold_sunday ∅ = ∅.
Proof. unfold fold_sunday. by rewrite mem_empty. Qed.

Lemma length_six {A : Type} (l : list A) :
  length l = 6%nat -> exists a b c d e f, l = [a; b; c; d; e; f].
Proof.
  intros H.
  do 6 (destruct l as [|? l]; [discriminate H|]).
  destruct l; [|discriminate H]. by repeat eexists.
Qed.

Lemma matches_six expr p1 p2 p3 p4 p5 p6 dt :
  Py.split (Py.strip expr) = [p1; p2; p3; p4; p5; p6] ->
  _matches expr dt = fields_match (sets_of p1 p2 p3 p4 p5 p6) dt.
Proof.
  intros Hp. unfold _matches, fields_match, sets_of. rewrite Hp. simpl.
  repeat match goal with |- context [mem ?x ?s] => destruct (mem x s) end;
    reflexivity.
Qed.

Lemma matches_not_six expr dt :
  length (Py.split (Py.strip expr)) <> 6%nat -> _matches expr dt = false.
Proof.
  intros Hn. unfold _matches.
  assert (Hl : length (Py.strip <$> Py.split (Py.strip expr)) <> 6%nat)
    by by rewrite length_fmap.
  destruct (Py.strip <$> Py.split (Py.strip expr)) as [|? [|? [|? [|? [|? [|? [|? ?]]]]]]];
    simpl in Hl; congruence.
Qed.

(** What [next_run_ts] does once the expression has been split. *)
Lemma next_run_six expr p1 p2 p3 p4 p5 p6 now n :
  Py.split (Py.strip expr) = [p1; p2; p3; p4; p5; p6] ->
  is_valid_cron expr = true ->
  next_run_ts expr now n =
    scan (sets_of p1 p2 p3 p4 p5 p6) (datetime.add_seconds now 1) 0 (Z.to_nat n).
Proof.
  intros Hp Hv. unfold next_run_ts, _cron_sets, is_valid_cron in *.
  rewrite Hp in *. simpl in *.
  repeat match type of Hv with
         | (nonempty ?s && _) = true =>
             apply andb_true_iff in Hv; destruct Hv as [-> Hv]
         end.
  reflexivity.
Qed.

Lemma invalid_six expr p1 p2 p3 p4 p5 p6 dt :
  Py.split (Py.strip expr) = [p1; p2; p3; p4; p5; p6] ->
  is_valid_cron expr = false ->
  fields_match (sets_of p1 p2 p3 p4 p5 p6) dt = false.
Proof.
  intros Hp Hv. unfold is_valid_cron in Hv. rewrite Hp in Hv. simpl in Hv.
  unfold fields_match, sets_of.
  repeat match type of Hv with
         | (nonempty ?s && _) = false =>
             let E := fresh "E" in
             destruct (nonempty s) eqn:E;
             [simpl in Hv
             |apply nonempty_false in E; rewrite E;
              rewrite ?fold_sunday_empty, ?mem_empty; simpl;
              repeat match goal with |- context [mem ?x ?s] => destruct (mem x s) end;
              reflexivity]
         end.
  discriminate Hv.
Qed.

(** The scan returns the first candidate that passes the test, and 0
    when none of the [fuel] candidates does. *)
Lemma scan_first fields start fuel : forall offset,
  (exists k : nat, (k < fuel)%nat /\
      scan fields start offset fuel = start + offset + Z.of_nat k /\
      fields_match fields (start + offset + Z.of_nat k) = true /\
      forall j : nat, (j < k)%nat ->
        fields_match fields (start + offset + Z.of_nat j) = false)
  \/ (scan fields start offset fuel = 0 /\
      forall j : nat, (j < fuel)%nat ->
        fields_match fields (start + offset + Z.of_nat j) = false).
Proof.
  induction fuel as [|fuel IH]; intros offset.
  - right. split; [reflexivity|]. intros j Hj. lia.
  - simpl. unfold datetime.add_seconds, datetime.timestamp.
    destruct (fields_match fields (start + offset)) eqn:E.
    + left. exists 0%nat. rewrite Z.add_0_r.
      repeat split; [lia|assumption|]. intros j Hj. lia.
    + destruct (IH (offset + 1)) as [(k & Hk & Hs & Hm & Hb)|[Hs Hb]].
      * left. exists (S k).
        replace (start + offset + Z.of_nat (S k))
          with (start + (offset + 1) + Z.of_nat k) by lia.
        repeat split; [lia|assumption|assumption|].
        intros [|j] Hj; [by rewrite Z.add_0_r|].
        replace (start + offset + Z.of_nat (S j))
          with (start + (offset + 1) + Z.of_nat j) by lia.
        apply Hb. lia.
      * right. split; [assumption|].
        intros [|j] Hj; [by rewrite Z.add_0_r|].
        replace (start + offset + Z.of_nat (S j))
          with (start + (offset + 1) + Z.of_nat j) by lia.
        apply Hb. lia.
Qed.

Lemma matches_strip expr dt : _matches (Py.strip expr) dt = _matches expr dt.
Proof. unfold _matches. by rewrite Py_facts.strip_idem. Qed.

Lemma invalid_never_matches expr dt :
  is_valid_cron expr = false -> _matches expr dt = false.
Proof.
  intros Hv.
  destruct (Nat.eq_dec (length (Py.split (Py.strip expr))) 6%nat) as [Hl|Hl].
  - destruct (length_six _ Hl) as (p1 & p2 & p3 & p4 & p5 & p6 & Hp).
    rewrite (matches_six _ _ _ _ _ _ _ _ Hp).
    by apply (invalid_six expr).
  - by apply matches_not_six.
Qed.

Lemma valid_six expr :
  is_valid_cron expr = true ->
  exists p1 p2 p3 p4 p5 p6, Py.split (Py.strip expr) = [p1; p2; p3; p4; p5; p6].
Proof.
  unfold is_valid_cron. intros Hv.
  destruct (Nat.eqb (length (Py.split (Py.strip expr))) 6) eqn:E;
    [|discriminate Hv].
  apply Nat.eqb_eq in E. by apply length_six.
Qed.

(** The forward search over any horizon [n]: the first matching instant
    among [now + 1 .. now + n], or 0 when there is none. *)
Lemma next_run_ts_cases expr now n :
  is_valid_cron expr = true ->
  0 <= n ->
  let r := next_run_ts expr now n in
  (now < r <= now + n /\ _matches expr r = true /\
     forall t, now < t < r -> _matches expr t = false)
  \/ (r = 0 /\ forall t, now < t <= now + n -> _matches expr t = false).
Proof.
  intros Hv Hn r.
  destruct (valid_six _ Hv) as (p1 & p2 & p3 & p4 & p5 & p6 & Hp).
  assert (Hm : forall t, _matches expr t = fields_match (sets_of p1 p2 p3 p4 p5 p6) t)
    by (intros t; by apply matches_six).
  subst r. rewrite (next_run_six _ _ _ _ _ _ _ _ _ Hp Hv).
  unfold datetime.add_seconds.
  destruct (scan_first (sets_of p1 p2 p3 p4 p5 p6) (now + 1) (Z.to_nat n) 0)
    as [(k & Hk & -> & Hmk & Hb)|[-> Hb]].
  - left. split; [lia|]. split; [by rewrite Hm|].
    intros t Ht. rewrite Hm.
    replace t with (now + 1 + 0 + Z.of_nat (Z.to_nat (t - now - 1))) by lia.
    apply Hb. lia.
  - right. split; [reflexivity|].
    intros t Ht. rewrite Hm.
    replace t with (now + 1 + 0 + Z.of_nat (Z.to_nat (t - now - 1))) by lia.
    apply Hb. lia.
Qed.



(** C10.  An expression that validation rejects is matched by no
    instant, so the guards of the tick loop never let a schedule that
    carries it fire.  ([_matches] is total here: Python's version turns
    every exception into [False].) *)
Theorem invalid_cron_never_fires (expr : string) :
  is_valid_cron expr = false ->
  forall dt : datetime.t,
    _matches expr dt = false /\
    forall (s : sched) (running_tasks : gset string),
      sched_cron s = expr -> due s dt running_tasks = false.
Proof.
  intros Hv dt.
  assert (Hm : _matches expr dt = false) by by apply invalid_never_matches.
  split; [assumption|].
  intros s running <-. unfold due.
  rewrite matches_strip, Hm. simpl.
  repeat match goal with |- context [if ?b then _ else _] => destruct b end;
    reflexivity.
Qed.

Lemma invalid_cron_never_fires_witness :
  is_valid_cron "61 * * * * *" = false /\
  _matches "61 * * * * *" 1762056000 = false /\
  forall (s : sched) (running_tasks : gset string),
    sched_cron s = "61 * * * * *" -> due s 1762056000 running_tasks = false.
Proof.
  split; [vm_compute; reflexivity|].
  apply (invalid_cron_never_fires "61 * * * * *"). vm_compute; reflexivity.
Defined.

(** *** A valid expression that never fires *)

Lemma mem_singleton (x y : Z) : mem x {[y]} = true -> x = y.
Proof.
  unfold mem. intros H. apply bool_decide_eq_true in H.
  by apply elem_of_singleton in H.
Qed.

(** Local midnight: the three time fields are 0 only at a multiple of a
    day. *)
Lemma midnight (t : datetime.t) :
  datetime.second t = 0 -> datetime.minute t = 0 -> datetime.hour t = 0 ->
  datetime.local t = 86400 * datetime.days t.
Proof.
  unfold datetime.second, datetime.minute, datetime.hour, datetime.days.
  generalize (datetime.local t). intros l H1 H2 H3.
  Z.div_mod_to_equations. lia.
Qed.

(** No day of January 1970 or 1 February 1970 is a 30 February. *)
Lemma no_feb_30 (d : Z) :
  0 <= d <= 31 ->
  ((datetime.civil d).2 =? 30) && ((datetime.civil d).1.2 =? 2) = false.
Proof.
  intros Hd.
  assert (Hall : forallb (fun n : nat =>
              negb (((datetime.civil (Z.of_nat n)).2 =? 30)
                    && ((datetime.civil (Z.of_nat n)).1.2 =? 2)))
            (seq 0 32) = true) by (vm_compute; reflexivity).
  rewrite forallb_forall in Hall.
  specialize (Hall (Z.to_nat d)).
  rewrite Z2Nat.id in Hall by lia.
  apply negb_true_iff, Hall, in_seq. lia.
Qed.

Lemma feb_30_sets :
  sets_of "0" "0" "0" "30" "2" "*"
  = ({[0]}, {[0]}, {[0]}, {[30]}, {[2]}, fold_sunday (_parse_field "*" 0 7)).
Proof. vm_compute; reflexivity. Qed.

Lemma feb_30_no_match (t : datetime.t) :
  0 < t <= 31 * 24 * 3600 -> _matches "0 0 0 30 2 *" t = false.
Proof.
  intros Ht.
  rewrite (matches_six _ "0" "0" "0" "30" "2" "*") by reflexivity.
  rewrite feb_30_sets. unfold fields_match.
  destruct (mem (datetime.second t) {[0]}) eqn:E1; [|reflexivity].
  destruct (mem (datetime.minute t) {[0]}) eqn:E2; [|reflexivity].
  destruct (mem (datetime.hour t) {[0]}) eqn:E3; [|reflexivity].
  destruct (mem (datetime.day t) {[30]}) eqn:E4; [|reflexivity].
  destruct (mem (datetime.month t) {[2]}) eqn:E5; [|reflexivity].
  exfalso.
  apply mem_singleton in E1, E2, E3, E4, E5.
  pose proof (midnight t E1 E2 E3) as Hmid.
  unfold datetime.day in E4. unfold datetime.month in E5.
  assert (Hd : 0 <= datetime.days t <= 31)
    by (unfold datetime.local, datetime.utcoffset in Hmid; lia).
  pose proof (no_feb_30 _ Hd) as Hno.
  rewrite E4, E5 in Hno. discriminate Hno.
Qed.


(** *** Run history *)

Lemma last_n_length {A : Type} (n : nat) (l : list A) :
  (length (last_n n l) <= n)%nat.
Proof. unfold last_n. rewrite length_drop. lia. Qed.

Lemma last_n_short {A : Type} (n : nat) (l : list A) :
  (length l <= n)%nat -> last_n n l = l.
Proof.
  intros H. unfold last_n. replace (length l - n)%nat with 0%nat by lia.
  reflexivity.
Qed.

(** Trimming early does not change what a later trim keeps. *)
Lemma last_n_app {A : Type} (n : nat) (l l' : list A) :
  last_n n (last_n n l ++ l') = last_n n (l ++ l').
Proof.
  destruct (Nat.le_gt_cases (length l) n) as [Hle|Hgt].
  - by rewrite (last_n_short n l).
  - unfold last_n. rewrite !length_app, length_drop.
    replace (length l - (length l - n) + length l' - n)%nat
      with (length l')%nat by lia.
    replace (length l + length l' - n)%nat
      with ((length l - n) + length l')%nat by lia.
    rewrite <- drop_drop. f_equal.
    rewrite drop_app_le by lia. reflexivity.
Qed.

Lemma record_result_history s ok output now :
  sched_history (_record_result s ok output now).1
  = last_n 10 (sched_history s
               ++ [{| entry_ts := datetime.timestamp now;
                      entry_ok := ok; entry_output := output |}]).
Proof. reflexivity. Qed.

Lemma record_result_id s ok output now :
  sched_id (_record_result s ok output now).1 = sched_id s.
Proof. reflexivity. Qed.

Lemma run_once_history s run :
  sched_history (_run_once s (Some run.1) run.2).1
  = last_n 10 (sched_history s ++ [run_entry run]).
Proof.
  destruct run as [[[|r results]|e] now]; reflexivity.
Qed.

Lemma run_once_id s run : sched_id (_run_once s (Some run.1) run.2).1 = sched_id s.
Proof. destruct run as [[results|e] now]; reflexivity. Qed.

Lemma find_from_found items sid : forall base r,
  find_from items sid base = r -> 0 <= base -> r <> -1 ->
  base <= r /\
  exists it, items !! Z.to_nat (r - base) = Some it /\ sched_id it = sid.
Proof.
  induction items as [|it items IH]; intros base r Hf Hb Hr; simpl in Hf.
  - congruence.
  - destruct (String.eqb (sched_id it) sid) eqn:E.
    + subst r. split; [lia|]. exists it. rewrite Z.sub_diag. simpl.
      split; [reflexivity|]. by apply String.eqb_eq.
    + destruct (IH (base + 1) r Hf ltac:(lia) Hr) as (Hle & it' & Hl & Hid).
      split; [lia|]. exists it'. split; [|assumption].
      replace (Z.to_nat (r - base)) with (S (Z.to_nat (r - (base + 1)))) by lia.
      exact Hl.
Qed.

(** Rewriting an item without changing its id leaves every index as it
    was. *)
Lemma find_from_insert items sid it' : forall i base it,
  items !! i = Some it -> sched_id it' = sched_id it ->
  find_from (<[i := it']> items) sid base = find_from items sid base.
Proof.
  induction items as [|x items IH]; intros i base it Hl Hid; [discriminate Hl|].
  destruct i as [|i]; simpl in *.
  - injection Hl as ->. by rewrite Hid.
  - destruct (String.eqb (sched_id x) sid); [reflexivity|].
    by apply (IH i (base + 1) it).
Qed.

Lemma stored_item sid items h :
  stored_history sid items = Some h ->
  0 <= _find_index items sid /\
  exists s, items !! Z.to_nat (_find_index items sid) = Some s /\
            sched_id s = sid /\ sched_history s = h.
Proof.
  unfold stored_history. intros Hst.
  destruct (_find_index items sid <? 0) eqn:Eidx; [discriminate Hst|].
  apply Z.ltb_ge in Eidx. split; [assumption|].
  destruct (items !! Z.to_nat (_find_index items sid)) as [s|] eqn:El;
    [|discriminate Hst].
  injection Hst as <-. exists s. split; [reflexivity|]. split; [|reflexivity].
  destruct (find_from_found items sid 0 (_find_index items sid) eq_refl)
    as (_ & it & Hit & Hid); [lia|lia|].
  rewrite Z.sub_0_r, El in Hit. by injection Hit as <-.
Qed.

Lemma update_stored sid last_run_ts history items h :
  sid <> "" ->
  stored_history sid items = Some h ->
  stored_history sid
    (update_schedule_run_state sid last_run_ts history items).2
  = Some history.
Proof.
  intros Hsid Hst.
  destruct (stored_item _ _ _ Hst) as (Hidx & s & El & Hid & _).
  unfold update_schedule_run_state.
  apply String.eqb_neq in Hsid. rewrite Hsid.
  apply Z.ltb_ge in Hidx. rewrite Hidx, El.
  cbn [snd]. unfold stored_history, _find_index.
  rewrite (find_from_insert items sid _ _ 0 s El) by reflexivity.
  fold (_find_index items sid). rewrite Hidx.
  rewrite list_lookup_insert_eq by (by eapply lookup_lt_Some).
  reflexivity.
Qed.

Lemma fire_stored_history sid items h run :
  sid <> "" ->
  stored_history sid items = Some h ->
  stored_history sid (fire_stored sid items run)
  = Some (last_n 10 (h ++ [run_entry run])).
Proof.
  intros Hsid Hst.
  destruct (stored_item _ _ _ Hst) as (Hidx & s & El & Hid & Hh).
  unfold fire_stored.
  apply Z.ltb_ge in Hidx. rewrite Hidx, El.
  unfold fire. rewrite run_once_id, Hid, run_once_history, Hh.
  by apply (update_stored sid _ _ items h).
Qed.

Lemma fire_stored_fold sid runs : forall run items h,
  sid <> "" ->
  stored_history sid items = Some h ->
  stored_history sid (foldl (fire_stored sid) items (run :: runs))
  = Some (last_n 10 (h ++ (run_entry <$> run :: runs))).
Proof.
  induction runs as [|run' runs IH]; intros run items h Hsid Hst.
  - simpl. by apply fire_stored_history.
  - change (foldl (fire_stored sid) items (run :: run' :: runs))
      with (foldl (fire_stored sid) (fire_stored sid items run) (run' :: runs)).
    rewrite (IH run' _ (last_n 10 (h ++ [run_entry run])) Hsid)
      by by apply fire_stored_history.
    rewrite last_n_app. by rewrite <- app_assoc.
Qed.

(** C3.  Each recording leaves a history of at most 10 entries; after
    any non-empty sequence of recorded runs of a stored schedule the
    stored history is the last 10 of the earlier history followed by the
    new records, oldest first; after 15 runs from an empty history it is
    exactly records 6 to 15 in the order they were made. *)
Theorem history_keeps_last_ten (sid : string) (items : list sched)
    (h : list run_record) (run : outcome (list step_result) * datetime.t)
    (runs : list (outcome (list step_result) * datetime.t)) :
  sid <> "" ->
  stored_history sid items = Some h ->
  (forall s ok output now,
      (length (sched_history (_record_result s ok output now).1) <= 10)%nat) /\
  exists h',
    stored_history sid (foldl (fire_stored sid) items (run :: runs)) = Some h' /\
    (length h' <= 10)%nat /\
    h' = last_n 10 (h ++ (run_entry <$> run :: runs)) /\
    (h = [] -> length (run :: runs) = 15%nat ->
     h' = drop 5 (run_entry <$> run :: runs)).
Proof.
  intros Hsid Hst. split.
  - intros s ok output now. rewrite record_result_history. apply last_n_length.
  - eexists. split; [by apply fire_stored_fold|].
    split; [apply last_n_length|]. split; [reflexivity|].
    intros -> Hlen. unfold last_n.
    rewrite app_nil_l, length_fmap, Hlen. reflexivity.
Qed.

Lemma history_keeps_last_ten_witness :
  "s1" <> "" /\
  stored_history "s1" [samples.other; samples.nightly] = Some [] /\
  exists h',
    stored_history "s1"
      (foldl (fire_stored "s1") [samples.other; samples.nightly]
         (samples.run_at 1 :: samples.fifteen_runs)) = Some h' /\
    (length h' <= 10)%nat /\
    h' = drop 5 (run_entry <$> samples.run_at 1 :: samples.fifteen_runs).
Proof.
  assert (H1 : "s1" <> "") by discriminate.
  assert (H2 : stored_history "s1" [samples.other; samples.nightly] = Some [])
    by reflexivity.
  split; [exact H1|]. split; [exact H2|].
  destruct (history_keeps_last_ten "s1" [samples.other; samples.nightly] []
              (samples.run_at 1) samples.fifteen_runs H1 H2)
    as (_ & h' & Hs & Hl & _ & H15).
  exists h'. split; [exact Hs|]. split; [exact Hl|].
  apply H15; reflexivity.
Defined.

End schedule_facts.

(** ** The step interpreter *)

Module format_facts.

Import Py template.

Lemma append_cons c (s t : string) :
  (String c s ++ t)%string = String c (s ++ t)%string.
Proof. reflexivity. Qed.

Lemma append_nil_l (t : string) : ("" ++ t)%string = t.
Proof. reflexivity. Qed.

Lemma string_app_nil (s : string) : (s ++ "")%string = s.
Proof.
  induction s as [|c s IH]; [reflexivity|]. by rewrite append_cons, IH.
Qed.

Lemma string_app_assoc (a b c : string) :
  ((a ++ b) ++ c)%string = (a ++ (b ++ c))%string.
Proof.
  induction a as [|x a IH]; [reflexivity|]. by rewrite !append_cons, IH.
Qed.

(** Inside a replacement field the characters of a plain name are
    collected up to the closing brace. *)
Lemma fmt_go_field params name : forall acc rest,
  all_chars field_char name = true ->
  fmt_go params (name ++ String "}"%char rest) (Some acc)
  = if fmt_positional (acc ++ name)
    then FmtError
    else match params !! (acc ++ name)%string with
         | Some v => fmt_prepend (str v) (fmt_go params rest None)
         | None => FmtError
         end.
Proof.
  induction name as [|c name IH]; intros acc rest Hname.
  - rewrite append_nil_l, string_app_nil. reflexivity.
  - simpl in Hname. apply andb_true_iff in Hname as [Hc Hname].
    unfold field_char in Hc. apply negb_true_iff, orb_false_iff in Hc as [Hs Hb].
    rewrite append_cons.
    change (fmt_go params (String c (name ++ String "}" rest)) (Some acc))
      with (if Ascii.eqb c "}"
            then if fmt_positional acc then FmtError
                 else match params !! acc with
                      | Some v => fmt_prepend (str v)
                                    (fmt_go params (name ++ String "}" rest) None)
                      | None => FmtError
                      end
            else if fmt_special c then FmtOther
                 else fmt_go params (name ++ String "}" rest)
                        (Some (acc ++ String c "")%string)).
    rewrite Hb, Hs, (IH (acc ++ String c "")%string rest Hname).
    by rewrite string_app_assoc.
Qed.

Lemma text_of_lit c ps :
  text_of (Lit c :: ps)
  = if Ascii.eqb c "{" then String "{" (String "{" (text_of ps))
    else if Ascii.eqb c "}" then String "}" (String "}" (text_of ps))
    else String c (text_of ps).
Proof.
  change (text_of (Lit c :: ps)) with (piece_text (Lit c) ++ text_of ps)%string.
  unfold piece_text.
  destruct (Ascii.eqb c "{"); [reflexivity|].
  destruct (Ascii.eqb c "}"); reflexivity.
Qed.

Lemma text_of_field name ps :
  text_of (Field name :: ps) = String "{" (name ++ String "}" (text_of ps)).
Proof.
  change (text_of (Field name :: ps))
    with (("{" ++ name ++ "}") ++ text_of ps)%string.
  rewrite !append_cons, append_nil_l, string_app_assoc. reflexivity.
Qed.

Lemma fmt_go_render params ps :
  forallb plain ps = true ->
  fmt_go params (text_of ps) None
  = match render params ps with
    | Some r => FmtOk r
    | None => FmtError
    end.
Proof.
  induction ps as [|p ps IH]; intros Hp; [reflexivity|].
  simpl in Hp. apply andb_true_iff in Hp as [Hp Hps].
  specialize (IH Hps). destruct p as [c|name].
  - rewrite text_of_lit. simpl render.
    destruct (Ascii.eqb c "{") eqn:E1.
    + apply Ascii.eqb_eq in E1 as ->. simpl. rewrite IH.
      destruct (render params ps); reflexivity.
    + destruct (Ascii.eqb c "}") eqn:E2.
      * apply Ascii.eqb_eq in E2 as ->. simpl. rewrite IH.
        destruct (render params ps); reflexivity.
      * simpl. rewrite E1, E2, IH.
        destruct (render params ps); reflexivity.
  - rewrite text_of_field. simpl render.
    unfold plain, plain_name in Hp. apply andb_true_iff in Hp as [Hnum Hchars].
    apply negb_true_iff in Hnum.
    destruct name as [|c name]; [discriminate Hnum|].
    assert (Hc : Ascii.eqb c "{" = false).
    { simpl in Hchars. apply andb_true_iff in Hchars as [Hc _].
      apply negb_true_iff, orb_false_iff in Hc as [Hs _].
      unfold fmt_special in Hs. repeat (apply orb_false_iff in Hs as [Hs ?]).
      exact Hs. }
    rewrite append_cons.
    change (fmt_go params (String "{" (String c (name ++ String "}" (text_of ps)))) None)
      with (if Ascii.eqb c "{"
            then fmt_prepend "{" (fmt_go params (name ++ String "}" (text_of ps)) None)
            else fmt_go params (String c (name ++ String "}" (text_of ps))) (Some "")).
    rewrite Hc, <- append_cons,
      (fmt_go_field params (String c name) "" (text_of ps) Hchars).
    rewrite append_nil_l.
    unfold fmt_positional. rewrite Hnum, IH.
    destruct (params !! String c name); [|reflexivity].
    destruct (render params ps); reflexivity.
Qed.

(** On the interpreted fragment [format] is substitution. *)
Lemma format_render ext params ps :
  forallb plain ps = true ->
  format ext (text_of ps) params = render params ps.
Proof.
  intros Hp. unfold format. rewrite (fmt_go_render params ps Hp).
  destruct (render params ps); reflexivity.
Qed.

End format_facts.
Module interp_facts.

Import Py template tasks_runner run_spec.

Section with_host.

Context {E : Type} `{Host E}.

(** C5.  Rendering a step field never raises.  A value that is not text
    is returned as it is; text is returned either rendered or unchanged,
    unchanged whenever [str.format] raises; and on a template of literal
    text and plain placeholders the result is the substitution when every
    placeholder has a parameter, and the original text when one has
    none. *)
Theorem format_fails_closed (value : Py.value) (params : gmap string Py.value)
    (ps : list piece) :
  forallb plain ps = true ->
  match value with
  | VStr s =>
      (format host_format s params = None -> _format value params = value) /\
      (forall r, format host_format s params = Some r ->
                 _format value params = VStr r)
  | _ => _format value params = value
  end /\
  _format (VStr (text_of ps)) params
  = match render params ps with
    | Some r => VStr r
    | None => VStr (text_of ps)
    end.
Proof.
  intros Hp. split.
  - destruct value as [| | |s]; try reflexivity.
    unfold _format. split.
    + intros ->. reflexivity.
    + intros r ->. reflexivity.
  - unfold _format. by rewrite (format_facts.format_render _ _ _ Hp).
Qed.

Lemma is_type_eq (stype : value) (name : string) :
  is_type stype name = true -> stype = VStr name.
Proof.
  destruct stype as [| | |s]; simpl; try discriminate.
  intros Hs. apply String.eqb_eq in Hs. by subst.
Qed.

Lemma run_step_sleep step params dev (w : world E) :
  get step "type" (VStr "") = VStr "sleep" ->
  run_step step params dev w
  = match int (or_else (_format (get step "ms" (VInt 500)) params) (VInt 500)) with
    | Some ms =>
        (Returned (true, VStr ("sleep " ++ str_of_int ms ++ "ms")%string),
         {| trace := trace w ++ [EvSleep (Z.max ms 0)]; env := env w |})
    | None => (Raised "ValueError", w)
    end.
Proof.
  intros Hty. unfold run_step. rewrite Hty.
  change (is_type (VStr "sleep") "note") with false.
  change (is_type (VStr "sleep") "sleep") with true.
  cbv iota. unfold bind, int_field.
  destruct (int (or_else (_format (get step "ms" (VInt 500)) params) (VInt 500)));
    reflexivity.
Qed.


(** The token [keyevent] validates and sends: the key as text, trimmed. *)
Lemma keyevent_cases (key : value) (dev : option string) (w : world E) :
  let token := strip (str (or_else key (VStr ""))) in
  adb.keyevent key dev w
  = if adb.all_digits token || adb.keycode_name token
    then adb.shell_argv ["input"; "keyevent"; token] dev w
    else (Returned (false, "invalid keyevent"), w).
Proof.
  intros token. unfold adb.keyevent. fold token.
  destruct (String.eqb token "") eqn:Ecase.
  - apply String.eqb_eq in Ecase. rewrite Ecase. reflexivity.
  - destruct (adb.all_digits token || adb.keycode_name token); reflexivity.
Qed.

Lemma shell_argv_run (argv : list string) (dev : option string) (w : world E) :
  let cmd := adb._adb_base_args dev ++ VStr "shell" :: (VStr <$> argv) in
  adb.shell_argv argv dev w
  = (Returned ((host_adb cmd (env w)).1.1 =? 0, (host_adb cmd (env w)).1.2),
     {| trace := trace w ++ [EvAdb cmd]; env := (host_adb cmd (env w)).2 |}).
Proof.
  intros cmd. unfold adb.shell_argv, adb._run_adb, bind, ask. fold cmd.
  destruct (host_adb cmd (env w)) as [[rc out] e]. reflexivity.
Qed.

Lemma all_chars_impl (p q : ascii -> bool) (s : string) :
  (forall c, p c = true -> q c = true) ->
  all_chars p s = true -> all_chars q s = true.
Proof.
  intros Hpq. induction s as [|c s IH]; simpl; [reflexivity|].
  intros Hs. apply andb_true_iff in Hs as [Hc Hs].
  by rewrite (Hpq c Hc), IH.
Qed.

Lemma strip_prefix_chars (p : ascii -> bool) (pre s rest : string) :
  strip_prefix pre s = Some rest ->
  all_chars p pre = true -> all_chars p rest = true -> all_chars p s = true.
Proof.
  revert s. induction pre as [|a pre IH]; intros s Hs Hpre Hrest.
  - simpl in Hs. by injection Hs as ->.
  - destruct s as [|b s]; [discriminate Hs|]. simpl in Hs.
    destruct (Ascii.eqb a b) eqn:Eab; [|discriminate Hs].
    apply Ascii.eqb_eq in Eab as <-.
    simpl in Hpre. apply andb_true_iff in Hpre as [Ha Hpre].
    simpl. rewrite Ha. by apply IH.
Qed.

(** A token that passes consists of capitals, digits and underscores. *)
Lemma valid_token_chars (token : string) :
  adb.all_digits token || adb.keycode_name token = true ->
  all_chars adb.keycode_char token = true.
Proof.
  intros Hv. apply orb_true_iff in Hv as [Hd|Hk].
  - unfold adb.all_digits in Hd. apply andb_true_iff in Hd as [_ Hd].
    apply (all_chars_impl isdigit); [|exact Hd].
    intros c Hc. unfold adb.keycode_char. rewrite Hc.
    by destruct (isupper c).
  - unfold adb.keycode_name in Hk.
    destruct (strip_prefix "KEYCODE_" token) as [rest|] eqn:Ecase; [|discriminate Hk].
    apply andb_true_iff in Hk as [_ Hk].
    by apply (strip_prefix_chars _ "KEYCODE_" token rest).
Qed.


(** One turn of the loop. *)
Lemma run_steps_cons st rest params dev acc (w : world E) :
  run_steps (st :: rest) params dev acc w
  = match step_entry st params dev w with
    | (Returned r, w') =>
        if r_ok r then run_steps rest params dev (acc ++ [r]) w'
        else (Returned (acc ++ [r]), w')
    | (Raised msg, w') => (Raised msg, w')
    end.
Proof.
  unfold step_entry. simpl.
  destruct (is_type (get st "type" VNone) "app"); [reflexivity|].
  unfold bind. destruct (run_step st params dev w) as [[[ok out]|msg] w'];
    [|reflexivity].
  simpl. destruct ok; reflexivity.
Qed.

Lemma run_steps_nil params dev acc (w : world E) :
  run_steps [] params dev acc w = (Returned acc, w).
Proof. reflexivity. Qed.

(** The loop runs the steps in order as long as they succeed and stops
    at the first that fails. *)
Lemma run_steps_first_failure pre : forall s post params dev acc rs r (w w1 w2 : world E),
  entries pre params dev w = (Returned rs, w1) ->
  forallb r_ok rs = true ->
  step_entry s params dev w1 = (Returned r, w2) ->
  r_ok r = false ->
  run_steps (pre ++ s :: post) params dev acc w = (Returned (acc ++ rs ++ [r]), w2).
Proof.
  induction pre as [|st pre IH]; intros s post params dev acc rs r w w1 w2 Hpre Hok Hs Hr.
  - simpl in Hpre. injection Hpre as <- <-.
    simpl app. rewrite run_steps_cons, Hs, Hr. reflexivity.
  - simpl in Hpre. unfold bind in Hpre.
    destruct (step_entry st params dev w) as [[r0|msg] w0] eqn:Hst;
      [|discriminate Hpre].
    destruct (entries pre params dev w0) as [[rs0|msg] w0'] eqn:Hrest;
      [|discriminate Hpre].
    injection Hpre as <- <-.
    simpl in Hok. apply andb_true_iff in Hok as [Hok0 Hok].
    change ((st :: pre) ++ s :: post) with (st :: (pre ++ s :: post)).
    rewrite run_steps_cons, Hst, Hok0.
    rewrite (IH s post params dev (acc ++ [r0]) rs0 r w0 w0' w2 Hrest Hok Hs Hr).
    by rewrite <- app_assoc.
Qed.

(** When every step succeeds the loop runs them all. *)
Lemma run_steps_all_ok steps : forall params dev acc rs (w w1 : world E),
  entries steps params dev w = (Returned rs, w1) ->
  forallb r_ok rs = true ->
  run_steps steps params dev acc w = (Returned (acc ++ rs), w1).
Proof.
  induction steps as [|st steps IH]; intros params dev acc rs w w1 Hall Hok.
  - simpl in Hall. injection Hall as <- <-. by rewrite app_nil_r.
  - simpl in Hall. unfold bind in Hall.
    destruct (step_entry st params dev w) as [[r0|msg] w0] eqn:Hst;
      [|discriminate Hall].
    destruct (entries steps params dev w0) as [[rs0|msg] w0'] eqn:Hrest;
      [|discriminate Hall].
    injection Hall as <- <-.
    simpl in Hok. apply andb_true_iff in Hok as [Hok0 Hok].
    rewrite run_steps_cons, Hst, Hok0.
    rewrite (IH params dev (acc ++ [r0]) rs0 w0 w0' Hrest Hok).
    by rewrite <- app_assoc.
Qed.

Lemma run_task_steps task_id params task (w : world E) :
  host_find_task task_id (env w) = Some task ->
  truthy (task_prompt task) = false ->
  run_task_by_id task_id params w
  = match preamble (task_steps task) w with
    | (Returned dev, w0) => run_steps (task_steps task) params dev [] w0
    | (Raised msg, w0) => (Raised msg, w0)
    end.
Proof.
  intros Htask Hprompt. unfold run_task_by_id, preamble. rewrite Htask, Hprompt.
  unfold bind. destruct (default_device w) as [[dev|msg] w']; [|reflexivity].
  destruct (needs_autoglm (task_steps task)).
  - destruct (ensure_autoglm_running w') as [[[]|msg] w0]; reflexivity.
  - reflexivity.
Qed.

(** C2.  A step-driven task whose steps are [pre ++ s :: post], where the
    steps of [pre], executed in order, all succeed and [s], executed
    next, fails: [run_task_by_id] returns the results of [pre] followed
    by that of [s], and leaves the world as it is right after [s].  The
    steps of [post] appear neither in the result nor in the world: they
    are not executed. *)
Theorem run_task_stops_at_first_failure (task_id : string)
    (params : gmap string value) (task : task)
    (pre : list (gmap string value)) (s : gmap string value)
    (post : list (gmap string value)) (dev : option string)
    (rs : list step_result) (r : step_result) (w w0 w1 w2 : world E) :
  host_find_task task_id (env w) = Some task ->
  truthy (task_prompt task) = false ->
  task_steps task = pre ++ s :: post ->
  preamble (task_steps task) w = (Returned dev, w0) ->
  entries pre params dev w0 = (Returned rs, w1) ->
  forallb r_ok rs = true ->
  step_entry s params dev w1 = (Returned r, w2) ->
  r_ok r = false ->
  run_task_by_id task_id params w = (Returned (rs ++ [r]), w2).
Proof.
  intros Htask Hprompt Hsteps Hpre Hrs Hok Hs Hr.
  rewrite (run_task_steps _ _ _ _ Htask Hprompt), Hpre, Hsteps.
  by rewrite (run_steps_first_failure pre s post params dev [] rs r w0 w1 w2).
Qed.

End with_host.

Lemma format_fails_closed_witness :
  forallb plain samples.hello = true /\
  text_of samples.hello = "hello {name}" /\
  @_format nat samples.counting_host (VStr "hello {name}") samples.name_world
  = VStr "hello world" /\
  @_format nat samples.counting_host (VStr "hello {name}") ∅
  = VStr "hello {name}".
Proof.
  assert (Hp : forallb plain samples.hello = true) by reflexivity.
  split; [exact Hp|]. split; [reflexivity|]. split.
  - exact (proj2 (@format_fails_closed nat samples.counting_host
                    VNone samples.name_world samples.hello Hp)).
  - exact (proj2 (@format_fails_closed nat samples.counting_host
                    VNone ∅ samples.hello Hp)).
Defined.




Lemma run_task_stops_at_first_failure_witness :
  @run_task_by_id nat samples.counting_host "abc" samples.name_world
    samples.fresh_world
  = (Returned
       [{| r_type := VStr "note"; r_app_id := None; r_ok := true;
           r_output := VStr "hello world" |};
        {| r_type := VStr "adb_keyevent"; r_app_id := None; r_ok := false;
           r_output := VStr "invalid keyevent" |}],
     {| trace := [EvLog "[note] hello world";
                  EvLog "[adb keyevent] 3;rm -rf / -> invalid keyevent"];
        env := 0%nat |}).
Proof.
  apply (@run_task_stops_at_first_failure nat samples.counting_host
           "abc" samples.name_world samples.abc_task
           [samples.step_a] samples.step_b [samples.step_c]
           (Some "emulator-5554")
           [{| r_type := VStr "note"; r_app_id := None; r_ok := true;
               r_output := VStr "hello world" |}]
           {| r_type := VStr "adb_keyevent"; r_app_id := None; r_ok := false;
              r_output := VStr "invalid keyevent" |}
           samples.fresh_world samples.fresh_world
           {| trace := [EvLog "[note] hello world"]; env := 0%nat |});
    vm_compute; reflexivity.
Defined.

End interp_facts.

(** ** The session registry *)

Module session_facts.

Import tasks_runner session_spec.

Lemma dict_set_keys {V : Type} (key : string) (v : V) (d : list (string * V)) :
  (dict_set key v d).*1 = if bool_decide (key ∈ d.*1) then d.*1 else d.*1 ++ [key].
Proof.
  induction d as [|[k x] d IH].
  - rewrite bool_decide_eq_false_2 by apply not_elem_of_nil. reflexivity.
  - change (dict_set key v ((k, x) :: d))
      with (if String.eqb k key then (k, v) :: d else (k, x) :: dict_set key v d).
    change (((k, x) :: d).*1) with (k :: d.*1).
    destruct (String.eqb k key) eqn:Ek.
    + apply String.eqb_eq in Ek as ->.
      rewrite bool_decide_eq_true_2 by apply list_elem_of_here. reflexivity.
    + apply String.eqb_neq in Ek.
      change (((k, x) :: dict_set key v d).*1) with (k :: (dict_set key v d).*1).
      rewrite IH.
      destruct (bool_decide (key ∈ d.*1)) eqn:Ed.
      * apply bool_decide_eq_true in Ed.
        rewrite bool_decide_eq_true_2 by (by apply list_elem_of_further).
        reflexivity.
      * apply bool_decide_eq_false in Ed.
        rewrite bool_decide_eq_false_2; [reflexivity|].
        intros Hin. apply elem_of_cons in Hin as [->|Hin]; [by apply Ek|by apply Ed].
Qed.

Lemma dict_set_length {V : Type} (key : string) (v : V) (d : list (string * V)) :
  (length (dict_set key v d) <= S (length d))%nat.
Proof.
  induction d as [|[k x] d IH]; simpl; [lia|].
  destruct (String.eqb k key); simpl; lia.
Qed.

Lemma dict_del_length {V : Type} (key : string) (d : list (string * V)) :
  (length (dict_del key d) <= length d)%nat.
Proof. unfold dict_del. apply length_filter. Qed.

Lemma dict_del_head {V : Type} (k : string) (x : V) (d : list (string * V)) :
  k ∉ d.*1 -> dict_del k ((k, x) :: d) = d.
Proof.
  intros Hk. unfold dict_del. rewrite filter_cons_False by (simpl; tauto).
  induction d as [|[k' x'] d IH]; [reflexivity|].
  change (((k', x') :: d).*1) with (k' :: d.*1) in Hk.
  rewrite filter_cons_True.
  - f_equal. apply IH. intros Hin. apply Hk. by apply list_elem_of_further.
  - simpl. intros ->. apply Hk. apply list_elem_of_here.
Qed.

(** The bound is kept by every creation. *)
Lemma new_session_bound sid log_size r :
  (length (_sessions r) <= MAX_SESSIONS)%nat ->
  (length (_sessions (new_session sid log_size r).1) <= MAX_SESSIONS)%nat.
Proof.
  destruct r as [ss offs]. cbn [_sessions]. intros Hb.
  unfold new_session. cbn [fst _sessions _session_offsets].
  destruct (Nat.leb MAX_SESSIONS (length ss)) eqn:Efull.
  - apply Nat.leb_le in Efull.
    destruct ss as [|[k x] d].
    + simpl in Efull. unfold MAX_SESSIONS in Efull. lia.
    + cbn [_sessions].
      pose proof (dict_set_length sid [] (dict_del k ((k, x) :: d))) as H1.
      assert (H2 : (length (dict_del k ((k, x) :: d)) <= length d)%nat).
      { unfold dict_del. rewrite filter_cons_False by (simpl; tauto).
        apply length_filter. }
      simpl in Hb. lia.
  - apply Nat.leb_gt in Efull. cbn [_sessions].
    pose proof (dict_set_length sid [] ss) as H1. lia.
Qed.

Lemma send_keeps_keys sid offset text lines r r' :
  send_interactive_record sid offset text lines r = Some r' -> held r' = held r.
Proof.
  unfold send_interactive_record, held.
  destruct (negb (dict_has sid (_sessions r))); [discriminate|].
  intros [= <-]. cbn [_sessions].
  rewrite <- list_fmap_compose. apply list_fmap_ext.
  intros i [k x] _. simpl. by destruct (String.eqb k sid).
Qed.

Lemma apply_op_bound r op :
  (length (_sessions r) <= MAX_SESSIONS)%nat ->
  (length (_sessions (apply_op r op)) <= MAX_SESSIONS)%nat.
Proof.
  intros Hb. destruct op as [sid log_size|sid offset text lines]; simpl.
  - by apply (new_session_bound sid log_size r).
  - destruct (send_interactive_record sid offset text lines r) as [r'|] eqn:Es;
      [|exact Hb].
    apply send_keeps_keys in Es. unfold held in Es.
    rewrite <- (length_fmap fst), Es, length_fmap. exact Hb.
Qed.

Lemma run_ops_bound ops : (length (_sessions (run_ops ops)) <= MAX_SESSIONS)%nat.
Proof.
  unfold run_ops. induction ops as [|op ops IH] using rev_ind.
  - simpl. unfold MAX_SESSIONS. lia.
  - rewrite foldl_app. simpl. by apply apply_op_bound.
Qed.

(** Creating a session with a fresh identifier: appended when there is
    room, else the oldest leaves and the new one is appended. *)
Lemma new_session_held sid log_size r :
  NoDup (held r) -> sid ∉ held r ->
  held (new_session sid log_size r).1
  = if Nat.leb MAX_SESSIONS (length (held r))
    then tail (held r) ++ [sid]
    else held r ++ [sid].
Proof.
  destruct r as [ss offs]. unfold held. cbn [_sessions]. intros Hnd Hfresh.
  unfold new_session. cbn [fst _sessions _session_offsets].
  rewrite length_fmap.
  destruct (Nat.leb MAX_SESSIONS (length ss)) eqn:Efull.
  - destruct ss as [|[k x] d]; [discriminate Efull|].
    cbn [_sessions].
    change (((k, x) :: d).*1) with (k :: d.*1) in *.
    apply NoDup_cons in Hnd as [Hk Hnd].
    rewrite (dict_del_head k x d Hk), dict_set_keys.
    rewrite bool_decide_eq_false_2; [reflexivity|].
    intros Hin. apply Hfresh. apply elem_of_cons. by right.
  - cbn [_sessions]. rewrite dict_set_keys.
    rewrite bool_decide_eq_false_2 by exact Hfresh. reflexivity.
Qed.

Lemma last_n_snoc_short {A : Type} (n : nat) (l : list A) (x : A) :
  (length l < n)%nat -> schedule.last_n n (l ++ [x]) = schedule.last_n n l ++ [x].
Proof.
  intros Hl. rewrite !schedule_facts.last_n_short; [reflexivity|lia|].
  rewrite length_app. simpl. lia.
Qed.

Lemma drop_S_tail {A : Type} (k : nat) : forall l : list A,
  drop (S k) l = tail (drop k l).
Proof.
  induction k as [|k IH]; intros l.
  - by destruct l.
  - destruct l as [|x l]; [reflexivity|]. simpl. apply IH.
Qed.

Lemma last_n_snoc_full {A : Type} (n : nat) (l : list A) (x : A) :
  (n <= length l)%nat -> (0 < n)%nat ->
  schedule.last_n n (l ++ [x]) = tail (schedule.last_n n l) ++ [x].
Proof.
  intros Hl Hn. unfold schedule.last_n. rewrite length_app. simpl.
  replace (length l + 1 - n)%nat with (S (length l - n)) by lia.
  rewrite drop_app_le by lia. f_equal. apply drop_S_tail.
Qed.

Lemma created_snoc ops op :
  created (ops ++ [op])
  = created ops ++ match op with OpNew sid _ => [sid] | OpSend _ _ _ _ => [] end.
Proof.
  unfold created. rewrite omap_app. f_equal. by destruct op.
Qed.

(** The sessions held are the last [MAX_SESSIONS] created, in order of
    creation, whatever exchanges took place in between. *)
Lemma run_ops_held ops :
  NoDup (created ops) ->
  held (run_ops ops) = schedule.last_n MAX_SESSIONS (created ops).
Proof.
  induction ops as [|op ops IH] using rev_ind; intros Hnd; [reflexivity|].
  rewrite created_snoc in Hnd |- *.
  unfold run_ops in *. rewrite foldl_app. cbn [foldl].
  set (r := foldl apply_op empty_registry ops) in *.
  destruct op as [sid log_size|sid offset text lines]; cbn [apply_op].
  - apply NoDup_app in Hnd as (Hnd & Hfresh & _).
    specialize (IH Hnd).
    assert (Hsub : sublist (held r) (created ops)).
    { rewrite IH. unfold schedule.last_n. apply sublist_drop. }
    assert (Hnr : NoDup (held r)) by exact (sublist_NoDup _ _ Hnd Hsub).
    assert (Hfr : sid ∉ held r).
    { intros Hin. apply (Hfresh sid); [|by apply list_elem_of_singleton].
      by apply (elem_of_sublist _ _ _ Hin Hsub). }
    rewrite (new_session_held sid log_size r Hnr Hfr), IH.
    destruct (Nat.leb MAX_SESSIONS
                (length (schedule.last_n MAX_SESSIONS (created ops)))) eqn:Efull.
    + apply Nat.leb_le in Efull.
      pose proof (schedule_facts.last_n_length MAX_SESSIONS (created ops)) as Hle.
      rewrite last_n_snoc_full; [reflexivity| |unfold MAX_SESSIONS; lia].
      unfold schedule.last_n in Efull. rewrite length_drop in Efull. lia.
    + apply Nat.leb_gt in Efull.
      rewrite last_n_snoc_short; [reflexivity|].
      unfold schedule.last_n in Efull. rewrite length_drop in Efull.
      unfold MAX_SESSIONS in *. lia.
  - rewrite app_nil_r in Hnd |- *. specialize (IH Hnd).
    destruct (send_interactive_record sid offset text lines r) as [r'|] eqn:Es;
      [|exact IH].
    by rewrite (send_keeps_keys _ _ _ _ _ _ Es).
Qed.

Lemma new_session_offset sid log_size r :
  _session_offsets (new_session sid log_size r).1 !! sid
  = Some (match log_size with Some n => n | None => 0 end).
Proof. unfold new_session. cbn [fst _session_offsets]. apply lookup_insert_eq. Qed.

(** C7.  After any history of creations (with identifiers that do not
    repeat) and exchanges, the registry holds at most 50 sessions: the
    last 50 created, in order of creation, whichever were used last.
    Creating one more appends it, after dropping the head of that list,
    the session created first, when 50 are held; and its offset is the
    size of the log file at that moment (0 when the size cannot be
    read). *)
Theorem registry_fifo_bound (ops : list session_op) :
  MAX_SESSIONS = 50%nat /\
  (length (_sessions (run_ops ops)) <= 50)%nat /\
  (forall sid log_size r,
      _session_offsets (new_session sid log_size r).1 !! sid
      = Some (match log_size with Some n => n | None => 0 end)) /\
  (NoDup (created ops) ->
   held (run_ops ops) = schedule.last_n 50 (created ops) /\
   forall sid log_size,
     sid ∉ created ops ->
     held (new_session sid log_size (run_ops ops)).1
     = (if Nat.leb 50 (length (held (run_ops ops)))
        then tail (held (run_ops ops))
        else held (run_ops ops)) ++ [sid]).
Proof.
  split; [reflexivity|]. split; [apply run_ops_bound|].
  split; [intros sid log_size r; apply new_session_offset|].
  intros Hnd.
  pose proof (run_ops_held ops Hnd) as Hheld. split; [exact Hheld|].
  intros sid log_size Hfresh.
  assert (Hsub : sublist (held (run_ops ops)) (created ops)).
  { rewrite Hheld. unfold schedule.last_n. apply sublist_drop. }
  rewrite new_session_held.
  - unfold MAX_SESSIONS. by destruct (Nat.leb 50 (length (held (run_ops ops)))).
  - exact (sublist_NoDup _ _ Hnd Hsub).
  - intros Hin. apply Hfresh. exact (elem_of_sublist _ _ _ Hin Hsub).
Qed.

Lemma registry_fifo_bound_witness :
  NoDup (created samples.session_history) /\
  (length (_sessions (run_ops samples.session_history)) <= 50)%nat /\
  held (run_ops samples.session_history) = samples.session_id <$> seq 1 50 /\
  held (new_session "fresh" (Some 7) (run_ops samples.session_history)).1
  = (samples.session_id <$> seq 2 49) ++ ["fresh"] /\
  _session_offsets (new_session "fresh" (Some 7) (run_ops samples.session_history)).1
    !! "fresh" = Some 7.
Proof.
  assert (Hnd : NoDup (created samples.session_history)).
  { apply (bool_decide_unpack _). vm_compute. exact I. }
  destruct (registry_fifo_bound samples.session_history)
    as (_ & Hlen & Hoff & Hfifo).
  destruct (Hfifo Hnd) as [Hheld Hnew].
  split; [exact Hnd|]. split; [exact Hlen|].
  split; [rewrite Hheld; vm_compute; reflexivity|].
  assert (Hfresh : "fresh" ∉ created samples.session_history).
  { apply (bool_decide_unpack _). vm_compute. exact I. }
  split; [rewrite (Hnew "fresh" (Some 7) Hfresh), Hheld; vm_compute; reflexivity|].
  apply Hoff.
Defined.

End session_facts.

(** ** The supervisor *)

Module process_facts.

Import autoglm_process sys_spec.

Section with_os.

Context {O : Type} `{OS O}.

Lemma slept_app evs evs' : slept (evs ++ evs') = slept evs + slept evs'.
Proof.
  induction evs as [|[] evs IH]; simpl; rewrite ?IH; lia.
Qed.

Lemma kill_spec pid sig (s : supervisor O) :
  pid_file (kill pid sig s).2 = pid_file s /\
  _proc (kill pid sig s).2 = _proc s /\
  calls (kill pid sig s).2 = calls s ++ [SysKill pid sig (kill pid sig s).1].
Proof.
  unfold kill. destruct (os_kill pid sig (os s)) as [sent o]. by repeat split.
Qed.

(** Waiting adds liveness probes and sleeps of 200 ms, at most [n] of the
    latter, and touches neither the marker nor the handle. *)
Lemma wait_exit_spec n pid : forall s : supervisor O,
  pid_file (wait_exit n pid s) = pid_file s /\
  _proc (wait_exit n pid s) = _proc s /\
  exists evs,
    calls (wait_exit n pid s) = calls s ++ evs /\
    0 <= slept evs <= 200 * Z.of_nat n /\
    existsb is_sigkill evs = false.
Proof.
  induction n as [|n IH]; intros s.
  - repeat split. exists []. rewrite app_nil_r. repeat split; simpl; lia.
  - simpl. unfold _is_running, kill.
    destruct (os_kill pid SIG0 (os s)) as [running o]. destruct running; simpl.
    + match goal with |- context [wait_exit n pid ?s'] =>
        destruct (IH s') as (Hpf & Hpr & evs & Hc & Hs & Hk) end.
      simpl in Hpf, Hpr, Hc.
      split; [exact Hpf|]. split; [exact Hpr|].
      exists (SysKill pid SIG0 true :: SysSleep 200 :: evs).
      rewrite Hc, <- !app_assoc. simpl. repeat split; try assumption; lia.
    + repeat split. exists [SysKill pid SIG0 false]. repeat split; simpl; lia.
Qed.


End with_os.



(** *** Reading the tail of the log *)

(** C8 (as amended).  For a log file that exists and a limit that is not
    negative, [tail_log] decodes at most [max_bytes] bytes read from the
    start position and returns the position after them.  The start is
    [offset] when it lies within the file and [max 0 (size - max_bytes)]
    when it is negative or beyond the size; in the latter case the window
    ends at the end of the file, and it is empty exactly when the file is
    empty or the limit is 0.  A missing file gives [(0, "")]. *)
Theorem tail_log_window (decode : list Byte.byte -> string)
    (content : list Byte.byte) (offset max_bytes : Z) :
  0 <= max_bytes ->
  let size := Z.of_nat (length content) in
  let start := if (offset <? 0) || (size <? offset)
               then Z.max 0 (size - max_bytes) else offset in
  let data := tail_data content offset max_bytes in
  tail_log decode (Some content) offset max_bytes
  = (start + Z.of_nat (length data), decode data) /\
  data = take (Z.to_nat max_bytes) (drop (Z.to_nat start) content) /\
  Z.of_nat (length data) <= max_bytes /\
  (offset < 0 \/ size < offset ->
     start + Z.of_nat (length data) = size /\
     (data = [] <-> size = 0 \/ max_bytes = 0)) /\
  tail_log decode None offset max_bytes = (0, "").
Proof.
  intros Hmb size start data.
  assert (Hstart : tail_start size offset max_bytes = start) by reflexivity.
  assert (Hdata : data = take (Z.to_nat max_bytes) (drop (Z.to_nat start) content)).
  { unfold data, tail_data. fold size. rewrite Hstart. unfold read.
    destruct (max_bytes <? 0) eqn:En; [lia|reflexivity]. }
  split; [|split; [exact Hdata|]].
  - unfold tail_log. fold size. rewrite Hstart. reflexivity.
  - assert (Hlen : Z.of_nat (length data)
                   = Z.min max_bytes (Z.of_nat (length (drop (Z.to_nat start) content)))).
    { rewrite Hdata, length_take. lia. }
    rewrite length_drop in Hlen.
    split; [lia|]. split; [|reflexivity].
    intros Hout.
    assert (Hs : start = Z.max 0 (size - max_bytes)).
    { unfold start. destruct (offset <? 0) eqn:E1; [reflexivity|].
      destruct (size <? offset) eqn:E2; [reflexivity|]. lia. }
    split; [unfold size in *; lia|].
    rewrite <- length_zero_iff_nil. unfold size in *. lia.
Qed.

Lemma tail_log_window_witness :
  0 <= 2 /\
  tail_log samples.ascii_decode (Some samples.three_bytes) 99 2 = (3, "bc") /\
  tail_data samples.three_bytes 99 2 = [Byte.x62; Byte.x63].
Proof.
  assert (Hmb : 0 <= 2) by lia.
  split; [exact Hmb|].
  destruct (tail_log_window samples.ascii_decode samples.three_bytes 99 2 Hmb)
    as (Hlog & Hdata & _).
  split; [rewrite Hlog; reflexivity|rewrite Hdata; reflexivity].
Defined.

(** C8, counterexample.  On an empty log file an offset beyond the size
    gives an empty window; and a negative limit reads the whole file. *)
Lemma tail_log_empty_or_unbounded :
  tail_log samples.ascii_decode (Some []) 5 default_max_bytes = (0, "") /\
  tail_data [] 5 default_max_bytes = [] /\
  tail_log samples.ascii_decode (Some samples.three_bytes) 0 (-1) = (3, "abc").
Proof. repeat split; reflexivity. Qed.

End process_facts.

(** * Further properties *)

(** ** Cron fields and the forward search *)

Module cron_facts.

Import Py schedule.

Lemma range_bounds (start stop step v : Z) :
  0 < step -> v ∈ range start stop step -> start <= v < stop.
Proof.
  intros Hstep Hv. unfold range in Hv.
  apply list_elem_of_fmap in Hv as (k & -> & Hk).
  apply elem_of_seq in Hk as [_ Hk]. simpl in Hk.
  assert (Hn : Z.of_nat k < (stop - start + step - 1) / step) by lia.
  pose proof (Z.mul_div_le (stop - start + step - 1) step Hstep).
  split; nia.
Qed.

Lemma range_unit_complete (start stop v : Z) :
  start <= v < stop -> v ∈ range start stop 1.
Proof.
  intros Hv. unfold range. apply list_elem_of_fmap.
  exists (Z.to_nat (v - start)). split; [lia|].
  apply elem_of_seq. rewrite Z.div_1_r. lia.
Qed.

Lemma part_range_bounds part min_v max_v start end_ step :
  part_range part min_v max_v = Some (start, end_, step) ->
  min_v <= start /\ end_ <= max_v /\ 0 < step.
Proof.
  unfold part_range. intros Hp.
  apply bind_Some in Hp as ([part' step'] & _ & Hp).
  apply bind_Some in Hp as ([start' end'] & _ & Hp).
  destruct (step' <=? 0) eqn:Hstep; [discriminate Hp|].
  apply Z.leb_gt in Hstep. injection Hp as <- <- <-. lia.
Qed.

Lemma parse_parts_bounds parts min_v max_v : forall values v,
  (forall x, x ∈ values -> min_v <= x <= max_v) ->
  v ∈ parse_parts parts min_v max_v values -> min_v <= v <= max_v.
Proof.
  induction parts as [|part parts IH]; intros values v Hvals Hv; simpl in Hv.
  - by apply Hvals.
  - destruct (String.eqb (strip part) ""); [by apply (IH values)|].
    destruct (part_range (strip part) min_v max_v) as [[[start end_] step]|] eqn:Hp.
    + apply part_range_bounds in Hp as (Hs & He & Hstep).
      eapply IH; [|exact Hv].
      intros x Hx. apply elem_of_union in Hx as [Hx|Hx]; [by apply Hvals|].
      apply elem_of_list_to_set in Hx.
      apply range_bounds in Hx; [lia|exact Hstep].
    + by apply not_elem_of_empty in Hv.
Qed.

(** X1.  Whatever the text of a field, the set it expands to lies within
    the bounds given; and [*] expands to all of them. *)
Theorem parse_field_within_bounds (field : string) (min_v max_v v : Z) :
  (v ∈ _parse_field field min_v max_v -> min_v <= v <= max_v) /\
  (v ∈ _parse_field "*" min_v max_v <-> min_v <= v <= max_v).
Proof.
  assert (Hstar : v ∈ _parse_field "*" min_v max_v <-> min_v <= v <= max_v).
  { unfold _parse_field. change (String.eqb "*" "*") with true. cbv iota.
    rewrite elem_of_list_to_set. split.
    - intros Hv. apply range_bounds in Hv; lia.
    - intros Hv. apply range_unit_complete. lia. }
  split; [|exact Hstar].
  unfold _parse_field. destruct (String.eqb field "*") eqn:Ef.
  - intros Hv. apply Hstar. unfold _parse_field.
    change (String.eqb "*" "*") with true. exact Hv.
  - apply parse_parts_bounds. intros x Hx. by apply not_elem_of_empty in Hx.
Qed.

Lemma valid_iff_six expr p1 p2 p3 p4 p5 p6 :
  split (strip expr) = [p1; p2; p3; p4; p5; p6] ->
  is_valid_cron expr
  = nonempty (_parse_field (strip p1) 0 59) && nonempty (_parse_field (strip p2) 0 59)
    && nonempty (_parse_field (strip p3) 0 23) && nonempty (_parse_field (strip p4) 1 31)
    && nonempty (_parse_field (strip p5) 1 12) && nonempty (_parse_field (strip p6) 0 7).
Proof.
  intros Hp. unfold is_valid_cron. rewrite Hp. simpl.
  repeat match goal with |- context [nonempty ?s] => destruct (nonempty s) end;
    reflexivity.
Qed.

Lemma cron_sets_six expr p1 p2 p3 p4 p5 p6 :
  split (strip expr) = [p1; p2; p3; p4; p5; p6] ->
  _cron_sets expr
  = if is_valid_cron expr
    then Some (_parse_field (strip p1) 0 59, _parse_field (strip p2) 0 59,
               _parse_field (strip p3) 0 23, _parse_field (strip p4) 1 31,
               _parse_field (strip p5) 1 12, _parse_field (strip p6) 0 7)
    else None.
Proof.
  intros Hp. rewrite (valid_iff_six _ _ _ _ _ _ _ Hp).
  unfold _cron_sets. rewrite Hp. simpl.
  repeat match goal with |- context [nonempty ?s] => destruct (nonempty s) end;
    reflexivity.
Qed.

Lemma cron_sets_not_six expr :
  length (split (strip expr)) <> 6%nat ->
  _cron_sets expr = None /\ is_valid_cron expr = false.
Proof.
  intros Hn. apply Nat.eqb_neq in Hn.
  unfold _cron_sets, is_valid_cron. by rewrite Hn.
Qed.

Lemma invalid_next_run_zero expr now n :
  is_valid_cron expr = false -> next_run_ts expr now n = 0.
Proof.
  intros Hinv. unfold next_run_ts.
  destruct (Nat.eq_dec (length (split (strip expr))) 6%nat) as [Hl|Hl].
  - destruct (schedule_facts.length_six _ Hl) as (p1 & p2 & p3 & p4 & p5 & p6 & Hp).
    by rewrite (cron_sets_six _ _ _ _ _ _ _ Hp), Hinv.
  - by rewrite (proj1 (cron_sets_not_six _ Hl)).
Qed.

(** X2.  The two readers of an expression agree: [_cron_sets] gives the
    six sets exactly when [is_valid_cron] accepts, and each of these sets
    is then non-empty; for an expression that is rejected the forward
    search returns 0 whatever the reference instant and the horizon. *)
Theorem validators_agree (expr : string) :
  (is_valid_cron expr = true <-> is_Some (_cron_sets expr)) /\
  (forall s1 s2 s3 s4 s5 s6,
      _cron_sets expr = Some (s1, s2, s3, s4, s5, s6) ->
      s1 <> ∅ /\ s2 <> ∅ /\ s3 <> ∅ /\ s4 <> ∅ /\ s5 <> ∅ /\ s6 <> ∅) /\
  (is_valid_cron expr = false ->
   forall now n, next_run_ts expr now n = 0).
Proof.
  destruct (Nat.eq_dec (length (split (strip expr))) 6%nat) as [Hl|Hl].
  - destruct (schedule_facts.length_six _ Hl) as (p1 & p2 & p3 & p4 & p5 & p6 & Hp).
    pose proof (cron_sets_six _ _ _ _ _ _ _ Hp) as Hcs.
    pose proof (valid_iff_six _ _ _ _ _ _ _ Hp) as Hv.
    split; [|split].
    + rewrite Hcs. destruct (is_valid_cron expr); split; intros Hx;
        try done; by inversion Hx.
    + intros s1 s2 s3 s4 s5 s6 Hs. rewrite Hcs in Hs.
      destruct (is_valid_cron expr); [|discriminate Hs].
      injection Hs as <- <- <- <- <- <-. symmetry in Hv.
      repeat (apply andb_true_iff in Hv as [Hv ?]).
      unfold nonempty in *.
      repeat split; intros Hempty;
        match goal with
        | H : negb (bool_decide (?s = ∅)) = true |- _ =>
            match type of Hempty with s = ∅ =>
              rewrite (bool_decide_eq_true_2 _ Hempty) in H; discriminate H
            end
        end.
    + intros Hinv now n. by apply invalid_next_run_zero.
  - destruct (cron_sets_not_six _ Hl) as [Hcs Hv].
    split; [|split].
    + rewrite Hcs, Hv. split; intros Hx; [discriminate Hx|by inversion Hx].
    + intros s1 s2 s3 s4 s5 s6 Hs. rewrite Hcs in Hs. discriminate Hs.
    + intros Hinv now n. by apply invalid_next_run_zero.
Qed.


Lemma cron_dow_range (dt : datetime.t) : 0 <= cron_dow dt < 7.
Proof. unfold cron_dow. apply Z.mod_pos_bound. lia. Qed.

Lemma scan_ext f1 f2 start n :
  (forall dt, fields_match f1 dt = fields_match f2 dt) ->
  forall offset, scan f1 start offset n = scan f2 start offset n.
Proof.
  intros Hext. induction n as [|n IH]; intros offset; simpl; [reflexivity|].
  by rewrite Hext, IH.
Qed.

Lemma parse_seven : _parse_field (strip "7") 0 7 = {[7]}.
Proof. vm_compute; reflexivity. Qed.

Lemma parse_zero : _parse_field (strip "0") 0 7 = {[0]}.
Proof. vm_compute; reflexivity. Qed.

Lemma sunday_mem (dt : datetime.t) :
  mem (cron_dow dt) (fold_sunday {[7]}) = mem (cron_dow dt) (fold_sunday {[0]}).
Proof.
  pose proof (cron_dow_range dt) as Hr.
  unfold fold_sunday, mem.
  rewrite (bool_decide_eq_true_2 (7 ∈ ({[7]} : gset Z)))
    by (by apply elem_of_singleton).
  rewrite (bool_decide_eq_false_2 (7 ∈ ({[0]} : gset Z)))
    by (intros Hx; by apply elem_of_singleton in Hx).
  apply bool_decide_ext. rewrite elem_of_union, !elem_of_singleton. lia.
Qed.

(** X4.  Sunday may be written 7 or 0: two expressions whose fields are
    the same but for a day-of-week field that is [7] in one and [0] in
    the other are accepted alike, match the same instants and have the
    same next run. *)
Theorem sunday_seven_is_zero (e7 e0 p1 p2 p3 p4 p5 : string) :
  split (strip e7) = [p1; p2; p3; p4; p5; "7"] ->
  split (strip e0) = [p1; p2; p3; p4; p5; "0"] ->
  is_valid_cron e7 = is_valid_cron e0 /\
  (forall dt, _matches e7 dt = _matches e0 dt) /\
  (forall now n, next_run_ts e7 now n = next_run_ts e0 now n).
Proof.
  intros H7 H0.
  assert (Hv : is_valid_cron e7 = is_valid_cron e0).
  { rewrite (valid_iff_six _ _ _ _ _ _ _ H7), (valid_iff_six _ _ _ _ _ _ _ H0).
    by rewrite parse_seven, parse_zero. }
  assert (Hm : forall dt,
             fields_match (sets_of p1 p2 p3 p4 p5 "7") dt
             = fields_match (sets_of p1 p2 p3 p4 p5 "0") dt).
  { intros dt. unfold sets_of, fields_match.
    by rewrite parse_seven, parse_zero, sunday_mem. }
  split; [exact Hv|]. split.
  - intros dt.
    rewrite (schedule_facts.matches_six _ _ _ _ _ _ _ dt H7).
    rewrite (schedule_facts.matches_six _ _ _ _ _ _ _ dt H0). apply Hm.
  - intros now n. unfold next_run_ts.
    rewrite (cron_sets_six _ _ _ _ _ _ _ H7), (cron_sets_six _ _ _ _ _ _ _ H0).
    rewrite <- Hv. destruct (is_valid_cron e7); [|reflexivity].
    apply (scan_ext (sets_of p1 p2 p3 p4 p5 "7") (sets_of p1 p2 p3 p4 p5 "0")).
    exact Hm.
Qed.

Lemma sunday_seven_is_zero_witness :
  is_valid_cron "0 30 9 * * 7" = is_valid_cron "0 30 9 * * 0" /\
  (forall dt, _matches "0 30 9 * * 7" dt = _matches "0 30 9 * * 0" dt) /\
  (forall now n, next_run_ts "0 30 9 * * 7" now n = next_run_ts "0 30 9 * * 0" now n).
Proof.
  apply (sunday_seven_is_zero _ _ "0" "30" "9" "*" "*"); reflexivity.
Defined.

(** X24.  The preview and the tick loop agree: the instant [next_run_ts]
    announces for the expression of a schedule is one at which the tick
    loop finds the schedule due, provided the schedule is enabled, names
    a task that is not running and has not already run at that
    instant. *)
Theorem next_run_is_due (s : sched) (now : datetime.t) (n : Z)
    (running_tasks : gset string) :
  let ts := next_run_ts (sched_cron s) now n in
  ts <> 0 ->
  sched_enabled s = true ->
  strip (sched_task_id s) <> "" ->
  strip (sched_task_id s) ∉ running_tasks ->
  sched_last_run_ts s <> ts ->
  now < ts /\ due s ts running_tasks = true.
Proof.
  intros ts Hts Hen Htask Hrun Hlast.
  assert (Hm : now < ts /\ _matches (sched_cron s) ts = true).
  { destruct (is_valid_cron (sched_cron s)) eqn:Hv.
    - destruct (Z.le_gt_cases n 0) as [Hn|Hn].
      + exfalso. apply Hts. unfold ts, next_run_ts.
        destruct (_cron_sets (sched_cron s)) as [[[[[[s1 s2] s3] s4] s5] s6]|];
          [|reflexivity].
        replace (Z.to_nat n) with 0%nat by lia. reflexivity.
      + destruct (schedule_facts.next_run_ts_cases (sched_cron s) now n Hv ltac:(lia))
          as [(Hr & Hmt & _)|[Hr _]]; [split; [lia|exact Hmt]|contradiction].
    - exfalso. apply Hts. by apply invalid_next_run_zero. }
  destruct Hm as [Hlt Hm]. split; [exact Hlt|].
  unfold due. rewrite Hen. cbn [negb].
  assert (Hcron : strip (sched_cron s) <> "").
  { intros Hempty.
    rewrite (schedule_facts.matches_not_six (sched_cron s) ts) in Hm;
      [discriminate Hm|].
    by rewrite Hempty. }
  apply String.eqb_neq in Hcron, Htask. rewrite Hcron, Htask. cbn [orb].
  rewrite bool_decide_eq_false_2 by exact Hrun.
  unfold datetime.timestamp.
  rewrite (proj2 (Z.eqb_neq ts (sched_last_run_ts s))) by congruence.
  by rewrite schedule_facts.matches_strip, Hm.
Qed.

Lemma next_run_is_due_witness :
  0 < next_run_ts (sched_cron samples.other) 0 600 /\
  due samples.other (next_run_ts (sched_cron samples.other) 0 600) ∅ = true.
Proof.
  apply (next_run_is_due samples.other 0 600 ∅).
  - vm_compute. discriminate.
  - reflexivity.
  - vm_compute. discriminate.
  - apply not_elem_of_empty.
  - vm_compute. discriminate.
Defined.

End cron_facts.

(** ** The stored collection of schedules *)

Module store_facts.

Import Py schedule schedule_store.

Lemma find_from_none items sid : forall base,
  find_from items sid base = -1 -> 0 <= base ->
  Forall (fun it => sched_id it <> sid) items.
Proof.
  induction items as [|it items IH]; intros base Hf Hb; [constructor|].
  simpl in Hf. destruct (String.eqb (sched_id it) sid) eqn:Eid; [lia|].
  constructor; [by apply String.eqb_neq|]. apply (IH (base + 1)); [exact Hf|lia].
Qed.

Lemma find_from_absent items sid : forall base,
  Forall (fun it => sched_id it <> sid) items -> find_from items sid base = -1.
Proof.
  induction items as [|it items IH]; intros base Hall; [reflexivity|].
  inversion Hall as [|? ? Hit Hrest]; subst. simpl.
  apply String.eqb_neq in Hit. rewrite Hit. by apply IH.
Qed.

Lemma find_from_first items sid : forall base,
  0 <= base ->
  find_from items sid base = -1 \/
  exists i it, find_from items sid base = base + Z.of_nat i /\
    items !! i = Some it /\ sched_id it = sid /\
    Forall (fun it' => sched_id it' <> sid) (take i items).
Proof.
  induction items as [|x items IH]; intros base Hb; [by left|].
  simpl. destruct (String.eqb (sched_id x) sid) eqn:Eid.
  - right. exists 0%nat, x. apply String.eqb_eq in Eid.
    repeat split; [lia|exact Eid|constructor].
  - destruct (IH (base + 1) ltac:(lia)) as [Hn|(i & it & Hf & Hl & Hid & Hall)];
      [by left|].
    right. exists (S i), it. repeat split; [lia|exact Hl|exact Hid|].
    simpl. constructor; [by apply String.eqb_neq|exact Hall].
Qed.

Lemma find_index_cases items sid :
  (_find_index items sid = -1 /\ Forall (fun it => sched_id it <> sid) items) \/
  (exists i it, _find_index items sid = Z.of_nat i /\
     items !! i = Some it /\ sched_id it = sid /\
     Forall (fun it' => sched_id it' <> sid) (take i items)).
Proof.
  unfold _find_index.
  destruct (find_from_first items sid 0 ltac:(lia))
    as [Hn|(i & it & Hf & Hl & Hid & Hall)].
  - left. split; [exact Hn|]. by apply (find_from_none items sid 0).
  - right. exists i, it. by rewrite Hf.
Qed.

(** X5.  [_find_index] returns -1 exactly when no item carries the id;
    otherwise it returns the position of the first item that does. *)
Theorem find_index_first_or_absent (items : list sched) (sid : string) :
  (_find_index items sid = -1 <-> Forall (fun it => sched_id it <> sid) items) /\
  (_find_index items sid = -1 \/
   exists i it, _find_index items sid = Z.of_nat i /\
     items !! i = Some it /\ sched_id it = sid /\
     Forall (fun it' => sched_id it' <> sid) (take i items)).
Proof.
  split.
  - split; [intros Hf; by apply (find_from_none items sid 0)|].
    intros Hall. by apply find_from_absent.
  - destruct (find_index_cases items sid) as [[Hn _]|Hfound]; [by left|by right].
Qed.

Lemma filter_length_eq {A : Type} (P : A -> Prop) `{!forall x, Decision (P x)}
    (l : list A) :
  length (filter P l) = length l -> filter P l = l.
Proof.
  induction l as [|x l IH]; [reflexivity|].
  rewrite filter_cons. destruct (decide (P x)) as [Hx|Hx]; simpl; intros Hlen.
  - f_equal. apply IH. lia.
  - pose proof (length_filter P l). lia.
Qed.

Lemma filter_all {A : Type} (P : A -> Prop) `{!forall x, Decision (P x)}
    (l : list A) :
  Forall P l -> filter P l = l.
Proof.
  induction 1 as [|x l Hx Hall IH]; [reflexivity|].
  rewrite filter_cons, decide_True by exact Hx. by f_equal.
Qed.

Lemma filter_other_insert (sid : string) (s : sched) :
  forall (items : list sched) (i : nat) (it : sched),
  items !! i = Some it -> sched_id it = sid -> sched_id s = sid ->
  filter (fun x => sched_id x <> sid) (<[i := s]> items)
  = filter (fun x => sched_id x <> sid) items.
Proof.
  induction items as [|x items IH]; intros i it Hl Hit Hs; [discriminate Hl|].
  destruct i as [|i]; simpl in *.
  - injection Hl as ->. rewrite !filter_cons.
    rewrite !decide_False by (intros Hne; by apply Hne). reflexivity.
  - rewrite !filter_cons. rewrite (IH i it Hl Hit Hs). reflexivity.
Qed.

Lemma upsert_id (s : sched) (uuid : string) (items : list sched) :
  sched_id (upsert_schedule s uuid items).1
  = if String.eqb (sched_id s) "" then uuid else sched_id s.
Proof.
  unfold upsert_schedule.
  destruct (String.eqb (sched_id s) ""); simpl;
    match goal with |- context [0 <=? ?x] => destruct (0 <=? x) end; reflexivity.
Qed.

(** X6.  After [upsert_schedule] the schedule returned carries an id
    that is not empty (its own, or the fresh one when it had none), and
    it is the item [_find_index] finds under that id in the collection
    written back; the items stored under other ids are as they were, in
    the same order; the collection grows by one exactly when the id was
    not stored before. *)
Theorem upsert_then_find (s : sched) (uuid : string) (items : list sched) :
  uuid <> "" ->
  let r := upsert_schedule s uuid items in
  sched_id r.1 <> "" /\
  (sched_id s <> "" -> r.1 = s) /\
  (exists i, _find_index r.2 (sched_id r.1) = Z.of_nat i /\ r.2 !! i = Some r.1) /\
  filter (fun it => sched_id it <> sched_id r.1) r.2
  = filter (fun it => sched_id it <> sched_id r.1) items /\
  length r.2
  = (if _find_index items (sched_id r.1) =? -1
     then S (length items) else length items).
Proof.
  intros Huuid r.
  assert (Hid : sched_id r.1 <> "").
  { unfold r. rewrite upsert_id.
    destruct (String.eqb (sched_id s) "") eqn:Es; [exact Huuid|].
    by apply String.eqb_neq. }
  split; [exact Hid|].
  split.
  { intros Hs. apply String.eqb_neq in Hs. unfold r, upsert_schedule.
    rewrite Hs. by destruct (0 <=? _find_index items (sched_id s)). }
  revert Hid. unfold r, upsert_schedule.
  set (s' := if String.eqb (sched_id s) "" then with_id s uuid else s).
  clearbody s'. clear r. intros Hid.
  destruct (find_index_cases items (sched_id s'))
    as [[Hn Hall]|(i & it & Hf & Hl & Hit & Hall)].
  - rewrite Hn. change (0 <=? -1) with false. cbv iota. cbn [fst snd].
    rewrite Hn. change (-1 =? -1) with true. cbv iota.
    split; [|split].
    + exists (length items). split.
      * unfold _find_index.
        destruct (find_from_first (items ++ [s']) (sched_id s') 0 ltac:(lia))
          as [Hx|(j & it & Hf & Hl & Hit & Hpre)].
        { apply (find_from_none _ _ 0) in Hx; [|lia].
          apply Forall_app in Hx as [_ Hx]. inversion Hx; congruence. }
        rewrite Hf, Z.add_0_l. f_equal.
        destruct (Nat.lt_trichotomy j (length items)) as [Hlt|[Heq|Hgt]].
        { rewrite lookup_app_l in Hl by exact Hlt.
          rewrite Forall_forall in Hall.
          exfalso. apply (Hall it); [|exact Hit].
          by eapply list_elem_of_lookup_2. }
        { exact Heq. }
        { apply lookup_lt_Some in Hl. rewrite length_app in Hl. simpl in Hl. lia. }
      * rewrite lookup_app_r by lia. by rewrite Nat.sub_diag.
    + rewrite filter_app, filter_cons, decide_False by (intros Hne; by apply Hne).
      by rewrite filter_nil, app_nil_r.
    + rewrite length_app. simpl. lia.
  - rewrite Hf. rewrite (proj2 (Z.leb_le 0 (Z.of_nat i))) by lia.
    cbn [fst snd]. rewrite Hf, Nat2Z.id.
    replace (Z.of_nat i =? -1) with false by (symmetry; apply Z.eqb_neq; lia).
    split; [|split].
    + exists i. split.
      * unfold _find_index.
        rewrite (schedule_facts.find_from_insert items (sched_id s') s' i 0 it Hl)
          by (by rewrite Hit).
        exact Hf.
      * apply list_lookup_insert_eq. by eapply lookup_lt_Some.
    + by apply (filter_other_insert (sched_id s') s' items i it).
    + by rewrite length_insert.
Qed.

Lemma upsert_then_find_witness :
  let r := upsert_schedule samples.nightly "0123abcd" [samples.other] in
  sched_id r.1 <> "" /\
  (sched_id samples.nightly <> "" -> r.1 = samples.nightly) /\
  (exists i, _find_index r.2 (sched_id r.1) = Z.of_nat i /\ r.2 !! i = Some r.1) /\
  filter (fun it => sched_id it <> sched_id r.1) r.2
  = filter (fun it => sched_id it <> sched_id r.1) [samples.other] /\
  length r.2
  = (if _find_index [samples.other] (sched_id r.1) =? -1
     then S (length [samples.other]) else length [samples.other]).
Proof.
  apply (upsert_then_find samples.nightly "0123abcd" [samples.other]).
  discriminate.
Defined.

(** X7.  [delete_schedule] leaves exactly the items stored under other
    ids, in their order, so that the id is found no more; it reports a
    change exactly when the id was stored, and otherwise the collection
    is as it was. *)
Theorem delete_then_absent (sid : string) (items : list sched) :
  let r := delete_schedule sid items in
  r.2 = filter (fun it => sched_id it <> sid) items /\
  _find_index r.2 sid = -1 /\
  (r.1 = true <-> _find_index items sid <> -1) /\
  (r.1 = false -> r.2 = items).
Proof.
  intros r. unfold r, delete_schedule.
  set (new_items := filter (fun it => sched_id it <> sid) items).
  assert (Habs : _find_index new_items sid = -1).
  { apply find_from_absent. apply Forall_forall. intros it Hit.
    by apply list_elem_of_filter in Hit as [Hne _]. }
  destruct (Nat.eqb (length new_items) (length items)) eqn:Elen; cbn [negb fst snd].
  - apply Nat.eqb_eq in Elen. apply filter_length_eq in Elen.
    fold new_items in Elen.
    split; [by rewrite Elen|]. split; [by rewrite <- Elen|].
    split; [|reflexivity].
    split; [discriminate|]. intros Hf. exfalso. apply Hf. by rewrite <- Elen.
  - split; [reflexivity|]. split; [exact Habs|]. split; [|discriminate].
    split; [|reflexivity]. intros _ Hf.
    apply (find_from_none items sid 0) in Hf; [|lia].
    apply Nat.eqb_neq in Elen. apply Elen. unfold new_items.
    by rewrite (filter_all _ items Hf).
Qed.

Lemma update_run_state_cases sid ts h items :
  (sid = "" \/ _find_index items sid = -1) /\
    update_schedule_run_state sid ts h items = (false, items) \/
  exists i it,
    sid <> "" /\ _find_index items sid = Z.of_nat i /\ items !! i = Some it /\
    sched_id it = sid /\
    update_schedule_run_state sid ts h items
    = (true, <[i := {| sched_id := sched_id it; sched_task_id := sched_task_id it;
                      sched_cron := sched_cron it; sched_enabled := sched_enabled it;
                      sched_last_run_ts := ts; sched_history := h |}]> items).
Proof.
  unfold update_schedule_run_state.
  destruct (String.eqb sid "") eqn:Es.
  - left. apply String.eqb_eq in Es. split; [by left|reflexivity].
  - apply String.eqb_neq in Es.
    destruct (find_index_cases items sid)
      as [[Hn Hall]|(i & it & Hf & Hl & Hit & Hall)].
    + left. rewrite Hn. split; [by right|reflexivity].
    + right. exists i, it. rewrite Hf.
      rewrite (proj2 (Z.ltb_ge (Z.of_nat i) 0)) by lia.
      rewrite Nat2Z.id, Hl. done.
Qed.

(** X8.  [update_schedule_run_state] rewrites the run state of the
    first item stored under the id and nothing else: the collection
    keeps its length and, position by position, the id, task, expression
    and enabled flag of every item; the items at other positions are
    untouched.  It returns [False], writing nothing, exactly when the
    id is empty or not stored. *)
Theorem update_run_state_frame (sid : string) (ts : Z) (h : list run_record)
    (items : list sched) :
  let r := update_schedule_run_state sid ts h items in
  length r.2 = length items /\
  sched_id <$> r.2 = sched_id <$> items /\
  sched_task_id <$> r.2 = sched_task_id <$> items /\
  sched_cron <$> r.2 = sched_cron <$> items /\
  sched_enabled <$> r.2 = sched_enabled <$> items /\
  (r.1 = false <-> sid = "" \/ _find_index items sid = -1) /\
  (r.1 = false -> r.2 = items) /\
  (r.1 = true ->
   exists i it, _find_index items sid = Z.of_nat i /\
     r.2 !! i = Some it /\ sched_last_run_ts it = ts /\ sched_history it = h /\
     forall j, j <> i -> r.2 !! j = items !! j).
Proof.
  intros r. unfold r.
  destruct (update_run_state_cases sid ts h items)
    as [[Hwhy ->]|(i & it & Hsid & Hf & Hl & Hit & ->)]; cbn [fst snd].
  - repeat split; try done.
  - assert (Hlt : (i < length items)%nat) by by eapply lookup_lt_Some.
    split; [by rewrite length_insert|].
    split; [rewrite list_fmap_insert; by apply list_insert_id; rewrite list_lookup_fmap, Hl|].
    split; [rewrite list_fmap_insert; by apply list_insert_id; rewrite list_lookup_fmap, Hl|].
    split; [rewrite list_fmap_insert; by apply list_insert_id; rewrite list_lookup_fmap, Hl|].
    split; [rewrite list_fmap_insert; by apply list_insert_id; rewrite list_lookup_fmap, Hl|].
    split.
    { split; [discriminate|]. intros [Hx|Hx]; [done|lia]. }
    split; [discriminate|].
    intros _. eexists i, _. split; [exact Hf|].
    split; [by apply list_lookup_insert_eq|].
    split; [reflexivity|]. split; [reflexivity|].
    intros j Hj. by apply list_lookup_insert_ne.
Qed.

(** X9.  A schedule that has just fired cannot fire again at the same
    instant: after [fire_stored] the item stored under the id has the
    instant of the run as its last run and the record of the run as the
    newest entry of its history, and the guard of the tick loop rejects
    it at that instant whatever else holds. *)
Theorem fired_not_due_again (sid : string) (items : list sched)
    (run : outcome (list step_result) * datetime.t) (running : gset string) :
  sid <> "" ->
  _find_index items sid <> -1 ->
  exists i it,
    _find_index (fire_stored sid items run) sid = Z.of_nat i /\
    fire_stored sid items run !! i = Some it /\
    sched_id it = sid /\
    sched_last_run_ts it = datetime.timestamp run.2 /\
    last (sched_history it) = Some (run_entry run) /\
    due it run.2 running = false.
Proof.
  intros Hsid Hfound.
  destruct (find_index_cases items sid)
    as [[Hn _]|(i & s & Hf & Hl & Hs & _)]; [contradiction|].
  unfold fire_stored. rewrite Hf.
  rewrite (proj2 (Z.ltb_ge (Z.of_nat i) 0)) by lia.
  rewrite Nat2Z.id, Hl. unfold fire.
  rewrite schedule_facts.run_once_id, Hs.
  destruct (update_run_state_cases sid
              (sched_last_run_ts (_run_once s (Some run.1) run.2).1)
              (sched_history (_run_once s (Some run.1) run.2).1) items)
    as [[[Hx|Hx] _]|(i' & it & _ & Hf' & Hl' & Hit & ->)]; [done|congruence|].
  assert (i' = i) as -> by lia.
  cbn [snd]. eexists i, _.
  split.
  { unfold _find_index.
    rewrite (schedule_facts.find_from_insert items sid _ i 0 it Hl') by reflexivity.
    exact Hf. }
  split; [apply list_lookup_insert_eq; by eapply lookup_lt_Some|].
  cbn [sched_id sched_last_run_ts sched_history sched_enabled sched_cron sched_task_id].
  split; [exact Hit|].
  assert (Hts : sched_last_run_ts (_run_once s (Some run.1) run.2).1
                = datetime.timestamp run.2).
  { destruct run as [[results|e] now]; reflexivity. }
  split; [exact Hts|]. split.
  - rewrite schedule_facts.run_once_history. unfold last_n.
    rewrite drop_app_le by (rewrite length_app; simpl; lia).
    apply last_snoc.
  - unfold due. cbn [sched_enabled sched_cron sched_task_id sched_last_run_ts].
    rewrite Hts, Z.eqb_refl.
    destruct (negb (sched_enabled it)); [reflexivity|].
    destruct (String.eqb (strip (sched_cron it)) ""
              || String.eqb (strip (sched_task_id it)) ""); [reflexivity|].
    by destruct (bool_decide (strip (sched_task_id it) ∈ running)).
Qed.

Lemma fired_not_due_again_witness :
  exists i it,
    _find_index (fire_stored "s1" [samples.other; samples.nightly] (samples.run_at 1))
      "s1" = Z.of_nat i /\
    fire_stored "s1" [samples.other; samples.nightly] (samples.run_at 1) !! i
    = Some it /\
    sched_id it = "s1" /\
    sched_last_run_ts it = datetime.timestamp (samples.run_at 1).2 /\
    last (sched_history it) = Some (run_entry (samples.run_at 1)) /\
    due it (samples.run_at 1).2 ∅ = false.
Proof.
  apply (fired_not_due_again "s1" [samples.other; samples.nightly]
           (samples.run_at 1) ∅); [discriminate|].
  vm_compute. discriminate.
Defined.

End store_facts.

(** ** Saving a schedule through the web interface *)

Module web_facts.

Import Py schedule schedule_store web_api.

Lemma upsert_elem (s : sched) (uuid : string) (items : list sched) :
  (upsert_schedule s uuid items).1 ∈ (upsert_schedule s uuid items).2.
Proof.
  unfold upsert_schedule.
  set (s' := if String.eqb (sched_id s) "" then with_id s uuid else s).
  destruct (store_facts.find_index_cases items (sched_id s'))
    as [[Hn _]|(i & it & Hf & Hl & _)].
  - rewrite Hn. change (0 <=? -1) with false. cbv iota. cbn [fst snd].
    apply elem_of_app. right. apply list_elem_of_here.
  - rewrite Hf, (proj2 (Z.leb_le 0 (Z.of_nat i))) by lia.
    cbn [fst snd]. rewrite Nat2Z.id.
    apply (list_elem_of_lookup_2 _ i), list_lookup_insert_eq.
    by eapply lookup_lt_Some.
Qed.

Lemma upsert_fields (s : sched) (uuid : string) (items : list sched) :
  let s' := (upsert_schedule s uuid items).1 in
  sched_task_id s' = sched_task_id s /\ sched_cron s' = sched_cron s /\
  sched_enabled s' = sched_enabled s /\
  sched_last_run_ts s' = sched_last_run_ts s /\
  sched_history s' = sched_history s /\
  (sched_id s <> "" -> sched_id s' = sched_id s).
Proof.
  unfold upsert_schedule.
  destruct (String.eqb (sched_id s) "") eqn:Es;
    match goal with |- context [0 <=? ?x] => destruct (0 <=? x) end;
    cbn; repeat split; try reflexivity; intros Hne;
    apply String.eqb_eq in Es; contradiction.
Qed.

(** X10.  [api_save_schedule] stores a schedule only for a task that
    exists and with an expression, trimmed, that [is_valid_cron]
    accepts; otherwise it raises one of its two errors.  The schedule it
    returns is in the collection written back, and when the payload
    names a stored schedule the run state of that schedule (last run
    and history) is carried over; a new schedule starts with none. *)
Theorem save_schedule_checked (payload : gmap string value) (task_ids : list string)
    (uuid : string) (items : list sched) :
  match api_save_schedule payload task_ids uuid items with
  | Raised msg => msg = no_such_task \/ msg = bad_cron
  | Returned (s, items') =>
      sched_task_id s ∈ task_ids /\ sched_task_id s <> "" /\
      sched_cron s <> "" /\ is_valid_cron (sched_cron s) = true /\
      sched_cron s = strip (str (get payload "cron" (VStr ""))) /\
      s ∈ items' /\
      match head (filter (fun it => sched_id it
                            = strip (str (get payload "id" (VStr "")))) items) with
      | Some old =>
          sched_last_run_ts s = sched_last_run_ts old /\
          sched_history s = sched_history old
      | None => sched_last_run_ts s = 0 /\ sched_history s = []
      end
  end.
Proof.
  unfold api_save_schedule.
  set (task_id := strip (str (get payload "task_id" (VStr "")))).
  set (cron := strip (str (get payload "cron" (VStr "")))).
  set (sid := strip (str (get payload "id" (VStr "")))).
  destruct (String.eqb task_id "" || negb (existsb (String.eqb task_id) task_ids))
    eqn:Et; [by left|].
  destruct (String.eqb cron "" || negb (is_valid_cron cron)) eqn:Ec; [by right|].
  apply orb_false_iff in Et as [Et1 Et2], Ec as [Ec1 Ec2].
  apply negb_false_iff in Et2, Ec2.
  apply String.eqb_neq in Et1, Ec1.
  apply existsb_exists in Et2 as (t & Ht & Heq). apply String.eqb_eq in Heq.
  subst t. apply list_elem_of_In in Ht.
  match goal with |- context [upsert_schedule ?n uuid items] => set (new := n) end.
  pose proof (upsert_elem new uuid items) as Hel.
  destruct (upsert_fields new uuid items) as (H1 & H2 & _ & H4 & H5 & _).
  destruct (upsert_schedule new uuid items) as [s items'].
  cbn [fst snd] in *. rewrite H1, H2, H4, H5.
  repeat split; try done.
  by destruct (head (filter (fun it => sched_id it = sid) items)).
Qed.

End web_facts.

(** ** The step loop and the device commands *)

Module step_facts.

Import Py tasks_runner run_spec.

Section with_host.

Context {E : Type} `{Host E}.

(** The entry of a step carries the type the step declares. *)
Lemma step_entry_type st params dev (w w' : world E) r :
  step_entry st params dev w = (Returned r, w') ->
  r_type r = get st "type" VNone.
Proof.
  unfold step_entry.
  destruct (is_type (get st "type" VNone) "app") eqn:Eapp.
  - apply interp_facts.is_type_eq in Eapp. rewrite Eapp.
    intros Hr. by injection Hr as <- _.
  - unfold bind. destruct (run_step st params dev w) as [[[ok out]|msg] w1];
      [|discriminate].
    intros Hr. by injection Hr as <- _.
Qed.

Lemma run_steps_shape params dev steps : forall acc rs (w w' : world E),
  run_steps steps params dev acc w = (Returned rs, w') ->
  exists new,
    rs = acc ++ new /\
    (length new <= length steps)%nat /\
    r_type <$> new = (fun st => get st "type" VNone) <$> take (length new) steps /\
    forallb r_ok (take (length new - 1) new) = true /\
    ((length new < length steps)%nat ->
     exists r, last new = Some r /\ r_ok r = false).
Proof.
  induction steps as [|st steps IH]; intros acc rs w w' Hrun.
  - rewrite interp_facts.run_steps_nil in Hrun. injection Hrun as <- <-.
    exists []. rewrite app_nil_r. repeat split; simpl; try lia.
  - rewrite interp_facts.run_steps_cons in Hrun.
    destruct (step_entry st params dev w) as [[r|msg] w1] eqn:Hst;
      [|discriminate Hrun].
    pose proof (step_entry_type _ _ _ _ _ _ Hst) as Hty.
    destruct (r_ok r) eqn:Hok.
    + destruct (IH _ _ _ _ Hrun) as (new & -> & Hlen & Htypes & Hall & Hlast).
      exists (r :: new). rewrite <- app_assoc.
      split; [reflexivity|]. split; [simpl; lia|].
      split; [cbn [length take]; by rewrite !fmap_cons, Hty, Htypes|].
      split.
      * destruct new as [|r' new]; [reflexivity|].
        simpl. rewrite Hok. simpl in Hall. by rewrite Nat.sub_0_r in Hall.
      * simpl. intros Hlt.
        destruct Hlast as (r0 & Hl & Hr0); [lia|].
        exists r0. split; [|exact Hr0].
        destruct new as [|r' new]; [discriminate Hl|exact Hl].
    + injection Hrun as <- <-. exists [r].
      split; [reflexivity|]. split; [simpl; lia|].
      split; [cbn [length take]; by rewrite !fmap_cons, Hty, take_0|].
      split; [reflexivity|].
      intros _. by exists r.
Qed.

(** X11.  Whatever the steps, when the loop returns, its results are
    those of an initial part of the steps, one for each and in order,
    each carrying the type of its step; every result but the last is a
    success; if steps are left over the last result is a failure; so
    when all results are successes every step has been run. *)
Theorem run_steps_results_shape (steps : list (gmap string value))
    (params : gmap string value) (dev : option string)
    (rs : list step_result) (w w' : world E) :
  run_steps steps params dev [] w = (Returned rs, w') ->
  (length rs <= length steps)%nat /\
  r_type <$> rs = (fun st => get st "type" VNone) <$> take (length rs) steps /\
  forallb r_ok (take (length rs - 1) rs) = true /\
  ((length rs < length steps)%nat ->
   exists r, last rs = Some r /\ r_ok r = false) /\
  (forallb r_ok rs = true -> length rs = length steps).
Proof.
  intros Hrun.
  destruct (run_steps_shape _ _ _ _ _ _ _ Hrun)
    as (new & Hrs & Hlen & Htypes & Hall & Hlast).
  simpl in Hrs. subst new.
  split; [exact Hlen|]. split; [exact Htypes|]. split; [exact Hall|].
  split; [exact Hlast|].
  intros Hok.
  destruct (Nat.eq_dec (length rs) (length steps)) as [Heq|Hne]; [exact Heq|].
  destruct Hlast as (r & Hl & Hr); [lia|].
  rewrite forallb_forall in Hok.
  rewrite Hok in Hr; [discriminate Hr|].
  apply list_elem_of_In, last_Some_elem_of, Hl.
Qed.

(** *** Which device a step addresses *)

(** X12.  The device of a step is the default one unless the step names
    one: a [device_id] that is absent or [None] gives the default, and a
    device id that is not the default is the rendered field, trimmed,
    and never blank; so [-s] is never followed by an empty serial. *)
Theorem step_device_never_blank (step params : gmap string value)
    (default_device_id : option string) :
  (step !! "device_id" = None \/ step !! "device_id" = Some VNone ->
   _step_device_id step params default_device_id = default_device_id) /\
  (forall d, _step_device_id step params default_device_id = Some d ->
     default_device_id = Some d \/
     (d <> "" /\ strip d = d /\
      exists raw, step !! "device_id" = Some raw /\
                  d = strip (str (or_else (_format raw params) (VStr ""))))) /\
  (forall d, _step_device_id step params default_device_id = Some d ->
     d <> "" ->
     adb._adb_base_args (Some d) = [VStr "adb"; VStr "-s"; VStr d]).
Proof.
  split; [|split].
  - unfold _step_device_id. intros [-> | ->]; reflexivity.
  - intros d. unfold _step_device_id.
    destruct (step !! "device_id") as [raw|] eqn:Eraw; [|by left].
    set (dev := strip (str (or_else (_format raw params) (VStr "")))).
    assert (Hgen : (if String.eqb dev "" then default_device_id else Some dev)
                   = Some d ->
                   default_device_id = Some d \/
                   d <> "" /\ strip d = d /\
                   exists raw0, Some raw = Some raw0 /\
                     d = strip (str (or_else (_format raw0 params) (VStr "")))).
    { destruct (String.eqb dev "") eqn:Edev; [by left|].
      intros Hd. injection Hd as <-. right.
      split; [by apply String.eqb_neq|].
      split; [apply Py_facts.strip_idem|]. by exists raw. }
    destruct raw; exact Hgen.
  - intros d _ Hd. unfold adb._adb_base_args.
    apply String.eqb_neq in Hd. by rewrite Hd.
Qed.

(** *** Steps that stay away from the device *)

(** X13.  A step whose type is none of the five [adb_*] types,
    [app_launch] or [autoglm_prompt] never reaches the device or the
    engine: the environment is left as it was and at most one event is
    recorded, a log line or a pause.  If the type is not [note] or
    [sleep] either, the step fails with a message naming the type and
    records nothing. *)
Theorem other_steps_leave_device_alone (step params : gmap string value)
    (dev : option string) (w : world E) :
  let stype := get step "type" (VStr "") in
  Forall (fun name => is_type stype name = false)
    ["adb_shell"; "adb_input"; "adb_tap"; "adb_swipe"; "adb_keyevent";
     "app_launch"; "autoglm_prompt"] ->
  env (run_step step params dev w).2 = env w /\
  (trace (run_step step params dev w).2 = trace w \/
   exists ev, trace (run_step step params dev w).2 = trace w ++ [ev] /\
     match ev with EvLog _ | EvSleep _ => True | _ => False end) /\
  (is_type stype "note" = false -> is_type stype "sleep" = false ->
   run_step step params dev w
   = (Returned (false, VStr ("未知步骤类型: " ++ str stype)%string), w)).
Proof.
  intros stype Hnot.
  repeat match goal with
         | Hx : Forall _ (_ :: _) |- _ =>
             let Hh := fresh "Hty" in
             apply Forall_cons in Hx as [Hh Hx]
         end.
  unfold run_step. fold stype.
  rewrite Hty, Hty0, Hty1, Hty2, Hty3, Hty4, Hty5.
  destruct (is_type stype "note") eqn:Enote.
  - split; [reflexivity|]. split; [|discriminate].
    right. eexists. split; [reflexivity|exact I].
  - destruct (is_type stype "sleep") eqn:Esleep.
    + unfold bind, int_field.
      destruct (int (or_else (_format (get step "ms" (VInt 500)) params) (VInt 500)));
        cbn.
      * split; [reflexivity|]. split; [|discriminate].
        right. eexists. split; [reflexivity|exact I].
      * split; [reflexivity|]. split; [by left|discriminate].
    + split; [reflexivity|]. split; [by left|reflexivity].
Qed.

(** *** Launching an application *)

Lemma all_chars_app (p : ascii -> bool) (a b : string) :
  all_chars p (a ++ b) = all_chars p a && all_chars p b.
Proof.
  induction a as [|c a IH].
  - by rewrite format_facts.append_nil_l.
  - rewrite format_facts.append_cons. simpl. by rewrite IH, andb_assoc.
Qed.

Lemma split_once_app (sep : ascii) (s : string) : forall a b,
  split_once sep s = Some (a, b) -> s = (a ++ String sep b)%string.
Proof.
  induction s as [|c s IH]; intros a b Hs; [discriminate Hs|].
  simpl in Hs. destruct (Ascii.eqb c sep) eqn:Ec.
  - apply Ascii.eqb_eq in Ec. injection Hs as <- <-.
    by rewrite format_facts.append_nil_l, Ec.
  - destruct (split_once sep s) as [[a' b']|]; [|discriminate Hs].
    injection Hs as <- <-. rewrite format_facts.append_cons.
    f_equal. by apply IH.
Qed.

Lemma valid_name_component (name : string) :
  adb.valid_name name = true -> all_chars adb_spec.component_char name = true.
Proof.
  unfold adb.valid_name. intros Hv. apply andb_true_iff in Hv as [_ Hv].
  revert Hv. apply interp_facts.all_chars_impl.
  intros c Hc. unfold adb_spec.component_char.
  apply orb_true_iff in Hc as [Hc|Hc]; [by rewrite Hc|].
  apply orb_true_iff. right. simpl in *.
  repeat (apply orb_true_iff in Hc as [Hc|Hc]; [rewrite Hc; by rewrite ?orb_true_r|]).
  discriminate Hc.
Qed.

Lemma validate_cases (name : value) (field : string) (w : world E) :
  (exists s, name = VStr s /\ adb.valid_name s = true /\
             adb._validate name field w = (Returned tt, w)) \/
  (exists msg, adb._validate name field w = (Raised msg, w)).
Proof.
  destruct name as [|b|n|s]; simpl.
  - right. by eexists.
  - right. destruct b; by eexists.
  - right. destruct (negb (n =? 0)); by eexists.
  - destruct (adb.valid_name s) eqn:Ev.
    + left. by exists s.
    + right. by eexists.
Qed.

(** The checks [start_app] makes on the activity. *)
Lemma activity_cases (activity : value) (w : world E) :
  let check : M E unit :=
    if truthy activity then
      match activity with
      | VStr a =>
          match split_once "/" a with
          | Some (p1, p2) =>
              let* _ := adb._validate (VStr p1) "activity" in
              adb._validate (VStr p2) "activity"
          | None => adb._validate (VStr a) "activity"
          end
      | _ => raise "AttributeError"
      end
    else ret tt in
  (check w = (Returned tt, w) /\
   (truthy activity = false \/
    exists a, activity = VStr a /\ a <> "" /\
              all_chars adb_spec.component_char a = true)) \/
  (exists msg, check w = (Raised msg, w)).
Proof.
  intros check. unfold check.
  destruct (truthy activity) eqn:Et; [|left; split; [reflexivity|by left]].
  destruct activity as [|b|n|a]; try (right; by eexists).
  assert (Ha : a <> "").
  { intros ->. discriminate Et. }
  destruct (split_once "/" a) as [[p1 p2]|] eqn:Esp.
  - unfold bind.
    destruct (validate_cases (VStr p1) "activity" w)
      as [(s1 & Hs1 & Hv1 & ->)|[msg ->]]; [|right; by eexists].
    destruct (validate_cases (VStr p2) "activity" w)
      as [(s2 & Hs2 & Hv2 & ->)|[msg ->]]; [|right; by eexists].
    injection Hs1 as <-. injection Hs2 as <-.
    left. split; [reflexivity|]. right. exists a.
    split; [reflexivity|]. split; [exact Ha|].
    rewrite (split_once_app _ _ _ _ Esp), all_chars_app.
    rewrite (valid_name_component _ Hv1). simpl.
    by rewrite (valid_name_component _ Hv2).
  - destruct (validate_cases (VStr a) "activity" w)
      as [(s1 & Hs1 & Hv1 & ->)|[msg ->]]; [|right; by eexists].
    injection Hs1 as <-.
    left. split; [reflexivity|]. right. exists a.
    split; [reflexivity|]. split; [exact Ha|]. by apply valid_name_component.
Qed.


(** *** Typing text *)

Lemma contains_app (c : ascii) (a b : string) :
  contains c (a ++ b) = contains c a || contains c b.
Proof.
  induction a as [|x a IH].
  - by rewrite format_facts.append_nil_l.
  - rewrite format_facts.append_cons. simpl. by rewrite IH, orb_assoc.
Qed.

Lemma replace_char_absent (old : ascii) (new s : string) :
  contains old new = false -> contains old (replace_char old new s) = false.
Proof.
  intros Hnew. induction s as [|c s IH]; [reflexivity|].
  simpl. destruct (Ascii.eqb c old) eqn:Ec.
  - by rewrite contains_app, Hnew, IH.
  - simpl. rewrite IH, orb_false_r. rewrite Ascii.eqb_sym. exact Ec.
Qed.

Lemma replace_char_keeps_absent (c old : ascii) (new s : string) :
  contains c new = false -> contains c s = false ->
  contains c (replace_char old new s) = false.
Proof.
  intros Hnew. induction s as [|x s IH]; [reflexivity|].
  simpl. intros Hs. apply orb_false_iff in Hs as [Hx Hs].
  destruct (Ascii.eqb x old).
  - by rewrite contains_app, Hnew, IH.
  - simpl. by rewrite Hx, IH.
Qed.

Lemma replace_char_blank_length (old : ascii) (s : string) :
  String.length (replace_char old " " s) = String.length s.
Proof.
  induction s as [|c s IH]; [reflexivity|].
  simpl. destruct (Ascii.eqb c old).
  - change (String.length (String " " (replace_char old " " s))
            = S (String.length s)).
    simpl. by rewrite IH.
  - simpl. by rewrite IH.
Qed.

Lemma replace_char_id (old : ascii) (new s : string) :
  contains old s = false -> replace_char old new s = s.
Proof.
  induction s as [|c s IH]; [reflexivity|].
  simpl. intros Hs. apply orb_false_iff in Hs as [Hc Hs].
  rewrite Ascii.eqb_sym, Hc. by rewrite IH.
Qed.

Lemma shlex_quote_keeps_absent (c : ascii) (s : string) :
  contains c ("'" ++ adb.dquote)%string = false ->
  contains c s = false -> contains c (adb.shlex_quote s) = false.
Proof.
  intros Hq Hs. unfold adb.shlex_quote.
  destruct (String.eqb s ""); [|destruct (all_chars adb.shlex_safe s)].
  - rewrite contains_app in Hq. apply orb_false_iff in Hq as [Hq _].
    simpl in *. apply orb_false_iff in Hq as [Hq _]. by rewrite Hq.
  - exact Hs.
  - rewrite contains_app in Hq. apply orb_false_iff in Hq as [Hq1 Hq2].
    rewrite !contains_app, Hq1. simpl.
    rewrite replace_char_keeps_absent; [reflexivity| |exact Hs].
    by rewrite !contains_app, Hq1, Hq2.
Qed.

(** X15.  [input_text] sends text to the device as a single line: each
    carriage return and line feed of the text is replaced by a blank
    (the length is kept, and text without them is left as it is), and
    the one command issued, [input text] followed by the quoted text,
    holds neither character.  A value that is not text raises before
    anything is sent. *)
Theorem input_text_single_line (text : value) (dev : option string) (w : world E) :
  match text with
  | VStr t =>
      let sanitized := replace_char adb_spec.LF " " (replace_char adb_spec.CR " " t) in
      let cmd := ("input text " ++ adb.shlex_quote sanitized)%string in
      let argv := adb._adb_base_args dev ++ [VStr "shell"; VStr cmd] in
      contains adb_spec.LF sanitized = false /\
      contains adb_spec.CR sanitized = false /\
      String.length sanitized = String.length t /\
      (contains adb_spec.LF t = false -> contains adb_spec.CR t = false ->
       sanitized = t) /\
      contains adb_spec.LF cmd = false /\ contains adb_spec.CR cmd = false /\
      adb.input_text text dev w
      = (Returned ((host_adb argv (env w)).1.1 =? 0, (host_adb argv (env w)).1.2),
         {| trace := trace w ++ [EvAdb argv]; env := (host_adb argv (env w)).2 |})
  | _ => adb.input_text text dev w = (Raised "AttributeError", w)
  end.
Proof.
  destruct text as [| | |t]; try reflexivity.
  intros sanitized cmd argv.
  assert (Hlf : contains adb_spec.LF sanitized = false)
    by (by apply replace_char_absent).
  assert (Hcr : contains adb_spec.CR sanitized = false).
  { apply replace_char_keeps_absent; [reflexivity|].
    by apply replace_char_absent. }
  split; [exact Hlf|]. split; [exact Hcr|].
  split; [unfold sanitized; by rewrite !replace_char_blank_length|].
  split.
  { intros H1 H2. unfold sanitized.
    rewrite (replace_char_id adb_spec.CR _ t H2). by apply replace_char_id. }
  split; [|split].
  - unfold cmd. rewrite contains_app.
    rewrite shlex_quote_keeps_absent; [reflexivity|reflexivity|exact Hlf].
  - unfold cmd. rewrite contains_app.
    rewrite shlex_quote_keeps_absent; [reflexivity|reflexivity|exact Hcr].
  - change (adb.input_text (VStr t) dev w) with (adb.shell (VStr cmd) dev w).
    unfold adb.shell, adb._run_adb, bind, ask.
    change (adb._adb_base_args dev ++ [VStr "shell"; VStr cmd]) with argv.
    destruct (host_adb argv (env w)) as [[rc out] e]. reflexivity.
Qed.

End with_host.

Lemma run_steps_results_shape_witness :
  let steps := [samples.step_a; samples.step_b; samples.step_c] in
  let rs := [{| r_type := VStr "note"; r_app_id := None; r_ok := true;
                r_output := VStr "hello world" |};
             {| r_type := VStr "adb_keyevent"; r_app_id := None; r_ok := false;
                r_output := VStr "invalid keyevent" |}] in
  (length rs <= length steps)%nat /\
  r_type <$> rs = (fun st => get st "type" VNone) <$> take (length rs) steps /\
  forallb r_ok (take (length rs - 1) rs) = true /\
  ((length rs < length steps)%nat ->
   exists r, last rs = Some r /\ r_ok r = false) /\
  (forallb r_ok rs = true -> length rs = length steps).
Proof.
  apply (@run_steps_results_shape nat samples.counting_host
           [samples.step_a; samples.step_b; samples.step_c]
           samples.name_world (Some "emulator-5554") _ samples.fresh_world
           {| trace := [EvLog "[note] hello world";
                        EvLog "[adb keyevent] 3;rm -rf / -> invalid keyevent"];
              env := 0%nat |}).
  vm_compute. reflexivity.
Defined.

Lemma other_steps_leave_device_alone_witness :
  env (@run_step nat samples.counting_host samples.step_a samples.name_world None
         samples.fresh_world).2 = env samples.fresh_world /\
  (trace (@run_step nat samples.counting_host samples.step_a samples.name_world None
            samples.fresh_world).2 = trace samples.fresh_world \/
   exists ev,
     trace (@run_step nat samples.counting_host samples.step_a samples.name_world
              None samples.fresh_world).2 = trace samples.fresh_world ++ [ev] /\
     match ev with EvLog _ | EvSleep _ => True | _ => False end).
Proof.
  destruct (@other_steps_leave_device_alone nat samples.counting_host
              samples.step_a samples.name_world None samples.fresh_world)
    as (Henv & Htrace & _).
  - repeat constructor.
  - split; [exact Henv|exact Htrace].
Defined.



End step_facts.

(** ** What a session keeps *)

Module session_log_facts.

Import tasks_runner session_view.

Lemma lookup_cons sid k x d :
  lookup sid ((k, x) :: d) = if String.eqb k sid then Some x else lookup sid d.
Proof.
  unfold lookup. simpl. destruct (decide (k = sid)) as [->|Hne].
  - by rewrite String.eqb_refl.
  - apply String.eqb_neq in Hne. rewrite Hne.
    by destruct (list_find _ d) as [[i [k' l]]|].
Qed.

Lemma get_log_lines sid r :
  get_interactive_log sid r
  = match lines_of sid r with
    | Some lines => schedule.last_n 50 lines
    | None => []
    end.
Proof.
  unfold get_interactive_log, lines_of, lookup.
  by destruct (list_find _ (_sessions r)) as [[i [k l]]|].
Qed.

Lemma lookup_dict_set_eq sid v d : lookup sid (dict_set sid v d) = Some v.
Proof.
  induction d as [|[k x] d IH]; simpl.
  - by rewrite lookup_cons, String.eqb_refl.
  - destruct (String.eqb k sid) eqn:Ek; rewrite lookup_cons, Ek; [reflexivity|].
    exact IH.
Qed.

Lemma lookup_dict_set_ne sid sid' v d :
  sid' <> sid -> lookup sid' (dict_set sid v d) = lookup sid' d.
Proof.
  intros Hne. induction d as [|[k x] d IH]; simpl.
  - rewrite lookup_cons.
    destruct (String.eqb sid sid') eqn:Ek; [|reflexivity].
    apply String.eqb_eq in Ek. congruence.
  - destruct (String.eqb k sid) eqn:Ek; rewrite !lookup_cons.
    + apply String.eqb_eq in Ek as ->.
      destruct (String.eqb sid sid') eqn:Ek'; [|reflexivity].
      apply String.eqb_eq in Ek'. congruence.
    + by rewrite IH.
Qed.

Lemma lookup_dict_del_ne k sid' (d : list (string * list string)) :
  sid' <> k -> lookup sid' (dict_del k d) = lookup sid' d.
Proof.
  intros Hne. unfold dict_del. induction d as [|[k' x] d IH]; [reflexivity|].
  rewrite filter_cons. simpl. destruct (decide (k' <> k)) as [Hk|Hk].
  - by rewrite !lookup_cons, IH.
  - assert (k' = k) as -> by (destruct (decide (k' = k)); tauto).
    rewrite lookup_cons.
    destruct (String.eqb k sid') eqn:Ek; [|exact IH].
    apply String.eqb_eq in Ek. congruence.
Qed.

Lemma lookup_extend sid sid' new (d : list (string * list string)) :
  lookup sid'
    ((fun kv : string * list string =>
        if String.eqb kv.1 sid then (kv.1, kv.2 ++ new) else kv) <$> d)
  = if String.eqb sid' sid then (fun l => l ++ new) <$> lookup sid' d
    else lookup sid' d.
Proof.
  induction d as [|[k x] d IH].
  - simpl. by destruct (String.eqb sid' sid).
  - rewrite fmap_cons. cbn [fst snd].
    destruct (String.eqb k sid) eqn:Ek; rewrite !lookup_cons, IH;
      destruct (String.eqb k sid') eqn:Ek'; try reflexivity.
    + apply String.eqb_eq in Ek as ->, Ek' as ->. by rewrite String.eqb_refl.
    + destruct (String.eqb sid' sid) eqn:Es; [|reflexivity].
      apply String.eqb_eq in Es as ->, Ek' as ->.
      by rewrite String.eqb_refl in Ek.
Qed.

Lemma dict_has_lookup sid (d : list (string * list string)) :
  dict_has sid d = true <-> is_Some (lookup sid d).
Proof.
  unfold dict_has. induction d as [|[k x] d IH].
  - simpl. split; [discriminate|]. intros [l Hl]. discriminate Hl.
  - rewrite lookup_cons. simpl. destruct (String.eqb k sid); simpl; [|exact IH].
    split; [by eexists|reflexivity].
Qed.



(** X17.  Recording an exchange fails exactly when the session is not
    in the registry.  When it succeeds it appends the line sent and the
    output lines, each under the tag of the session, to the lines of
    that session, and sets its offset; the lines and offsets of every
    other session are as they were, and so is the order of the
    sessions.  The log read back is the last 50 of these lines. *)
Theorem send_appends_to_its_session (sid : string) (offset : Z) (text : string)
    (output_lines : list string) (r : registry) :
  match send_interactive_record sid offset text output_lines r with
  | None => lines_of sid r = None /\ get_interactive_log sid r = []
  | Some r' =>
      exists lines,
        lines_of sid r = Some lines /\
        lines_of sid r' = Some (lines ++ exchange_lines sid text output_lines) /\
        get_interactive_log sid r'
        = schedule.last_n 50 (lines ++ exchange_lines sid text output_lines) /\
        (length (get_interactive_log sid r') <= 50)%nat /\
        _session_offsets r' !! sid = Some offset /\
        (_sessions r').*1 = (_sessions r).*1 /\
        forall sid', sid' <> sid ->
          lines_of sid' r' = lines_of sid' r /\
          _session_offsets r' !! sid' = _session_offsets r !! sid'
  end.
Proof.
  unfold send_interactive_record.
  destruct (dict_has sid (_sessions r)) eqn:Ehas; cbn [negb].
  - apply dict_has_lookup in Ehas as [lines Hlines].
    exists lines. fold (exchange_lines sid text output_lines).
    assert (Hnew : lines_of sid
              {| _sessions :=
                   (fun kv : string * list string =>
                      if String.eqb kv.1 sid
                      then (kv.1, kv.2 ++ exchange_lines sid text output_lines)
                      else kv) <$> _sessions r;
                 _session_offsets := <[sid:=offset]> (_session_offsets r) |}
              = Some (lines ++ exchange_lines sid text output_lines)).
    { unfold lines_of. cbn [_sessions].
      by rewrite lookup_extend, String.eqb_refl, Hlines. }
    split; [exact Hlines|]. split; [exact Hnew|].
    split; [by rewrite get_log_lines, Hnew|].
    split; [rewrite get_log_lines, Hnew; apply schedule_facts.last_n_length|].
    split; [cbn [_session_offsets]; by rewrite lookup_insert_eq|].
    split.
    { cbn [_sessions]. rewrite <- list_fmap_compose. apply list_fmap_ext.
      intros i [k x] _. simpl. by destruct (String.eqb k sid). }
    intros sid' Hne. unfold lines_of. cbn [_sessions _session_offsets].
    rewrite lookup_extend.
    apply String.eqb_neq in Hne. rewrite Hne.
    split; [reflexivity|]. apply lookup_insert_ne.
    apply String.eqb_neq in Hne. congruence.
  - assert (Hnone : lines_of sid r = None).
    { unfold lines_of. destruct (lookup sid (_sessions r)) as [l|] eqn:El;
        [|reflexivity].
      assert (Hs : is_Some (lookup sid (_sessions r))) by by eexists.
      apply dict_has_lookup in Hs. congruence. }
    split; [exact Hnone|]. by rewrite get_log_lines, Hnone.
Qed.

End session_log_facts.

(** ** More on the supervisor *)

Module supervisor_facts.

Import autoglm_process sys_spec sys_view.

Section with_os.

Context {O : Type} `{OS O}.

Lemma status_cases (s : supervisor O) :
  exists running pid pf evs,
    status s = ((running, pid),
                {| pid_file := pf; _proc := _proc (status s).2;
                   calls := calls s ++ evs; os := os (status s).2 |}) /\
    (length evs <= 3)%nat /\
    forallb is_probe evs = true /\
    match recorded_pid s with
    | Some p => forallb (only_to p) evs = true
    | None => forallb (fun ev => negb (is_kill ev)) evs = true
    end /\
    (_proc (status s).2 = _proc s \/ _proc (status s).2 = None) /\
    (_proc s = None -> _proc (status s).2 = None) /\
    ((running = true /\ pf = pid_file s /\
      exists p, pid = Some p /\ p <> 0 /\ recorded_pid s = Some p) \/
     (running = false /\ pf = pid_file s /\ pid = None /\ recorded_pid s = None /\
      forallb (fun ev => negb (is_kill ev)) evs = true) \/
     (running = false /\ pf = pid_file s /\ pid = Some 0 /\
      recorded_pid s = Some 0 /\
      forallb (fun ev => negb (is_kill ev)) evs = true) \/
     (running = false /\ pf = None /\ pid = None /\
      exists p, p <> 0 /\ recorded_pid s = Some p)).
Proof.
  unfold status, recorded_pid, _is_running, kill, unlink.
  destruct s as [pf pr cs o]. cbn [pid_file _proc calls os].
  destruct (match pf with
            | Some text => Py.int_of_str (Py.strip text)
            | None => None
            end) as [p|] eqn:Epid;
    [destruct (p =? 0) eqn:Ep;
       [apply Z.eqb_eq in Ep as ->
       |apply Z.eqb_neq in Ep; destruct (os_kill p SIG0 o) as [alive o1];
        destruct alive]|];
    destruct pr as [proc|]; cbn [pid_file _proc calls os];
    try destruct (os_poll (popen_pid proc) _) as [exited o'];
    cbn [pid_file _proc calls os];
    rewrite <- ?app_assoc;
    (do 3 eexists);
    match goal with
    | |- exists evs, (_, {| pid_file := _; _proc := _; calls := ?c ++ ?l; os := _ |}) = _ /\ _ =>
        exists l
    | |- exists evs, (_, {| pid_file := _; _proc := _; calls := ?c; os := _ |}) = _ /\ _ =>
        exists []; rewrite app_nil_r
    end;
    (split; [reflexivity|]);
    cbn [app forallb is_probe only_to is_kill negb andb];
    rewrite ?Z.eqb_refl;
    repeat split; try discriminate; try tauto; try (destruct exited; tauto);
    try (simpl; lia);
    solve [ left; repeat split; eauto
          | right; left; repeat split; eauto
          | right; right; left; repeat split; eauto
          | right; right; right; repeat split; eauto ].
Qed.


Lemma wait_exit_calls n pid : forall s : supervisor O,
  pid_file (wait_exit n pid s) = pid_file s /\
  _proc (wait_exit n pid s) = _proc s /\
  exists evs,
    calls (wait_exit n pid s) = calls s ++ evs /\
    forallb (only_to pid) evs = true.
Proof.
  induction n as [|n IH]; intros s.
  - repeat split. exists []. by rewrite app_nil_r.
  - simpl. unfold _is_running, kill.
    destruct (os_kill pid SIG0 (os s)) as [running o]. destruct running; simpl.
    + match goal with |- context [wait_exit n pid ?s'] =>
        destruct (IH s') as (Hpf & Hpr & evs & Hc & Hall) end.
      simpl in Hpf, Hpr, Hc.
      split; [exact Hpf|]. split; [exact Hpr|].
      exists (SysKill pid SIG0 true :: SysSleep 200 :: evs).
      rewrite Hc, <- !app_assoc. simpl. by rewrite Z.eqb_refl, Hall.
    + repeat split. exists [SysKill pid SIG0 false]. simpl.
      by rewrite Z.eqb_refl.
Qed.

Lemma stop_cases (s : supervisor O) :
  exists evs,
    calls (stop s).2 = calls s ++ evs /\
    match recorded_pid s with
    | Some p => forallb (only_to p) evs = true
    | None => forallb (fun ev => negb (is_kill ev)) evs = true
    end /\
    (recorded_pid s = None \/ recorded_pid s = Some 0 ->
     (stop s).1 = (false, nothing_to_stop) /\
     forallb (fun ev => negb (is_kill ev)) evs = true /\
     pid_file (stop s).2 = pid_file s) /\
    ((stop s).1.1 = true -> pid_file (stop s).2 = None /\ _proc (stop s).2 = None).
Proof.
  unfold stop.
  destruct (status_cases s)
    as (r & pid & pf & evs & Hst & _ & _ & Honly & _ & _ & Hcases).
  rewrite Hst. set (s1 := {| pid_file := pf; _proc := _proc (status s).2;
                            calls := calls s ++ evs; os := os (status s).2 |}).
  destruct Hcases as [(_ & Hpf & p & -> & Hp & Hrec)|
                      [(_ & Hpf & -> & Hrec & Hnk)|
                       [(_ & Hpf & -> & Hrec & Hnk)|(_ & Hpf & -> & p & Hp & Hrec)]]].
  - rewrite Hrec in *. pose proof Hp as Hp'. apply Z.eqb_neq in Hp. rewrite Hp.
    destruct (process_facts.kill_spec p SIGTERM s1) as (Hpf2 & Hpr2 & Hc2).
    destruct (kill p SIGTERM s1) as [sent s2].
    cbn [fst snd] in Hpf2, Hpr2, Hc2 |- *.
    destruct sent; cbn [negb]; cbv iota.
    + destruct (wait_exit_calls 30 p s2) as (Hpf3 & Hpr3 & evs3 & Hc3 & Hall3).
      unfold _is_running.
      destruct (process_facts.kill_spec p SIG0 (wait_exit 30 p s2)) as (Hpf4 & Hpr4 & Hc4).
      destruct (kill p SIG0 (wait_exit 30 p s2)) as [alive s4].
      cbn [fst snd] in Hpf4, Hpr4, Hc4 |- *.
      destruct (process_facts.kill_spec p SIGKILL s4) as (Hpf5 & Hpr5 & Hc5).
      destruct (kill p SIGKILL s4) as [k s5]. cbn [fst snd] in Hpf5, Hpr5, Hc5 |- *.
      exists (evs ++ [SysKill p SIGTERM true] ++ evs3 ++ [SysKill p SIG0 alive]
              ++ (if alive then [SysKill p SIGKILL k] else [])
              ++ [SysUnlink]
              ++ match _proc s4 with
                 | Some proc => if popen_stdin proc then [SysCloseStdin] else []
                 | None => []
                 end).
      assert (Hall : forallb (only_to p)
                (evs ++ [SysKill p SIGTERM true] ++ evs3 ++ [SysKill p SIG0 alive]
                 ++ (if alive then [SysKill p SIGKILL k] else [])
                 ++ [SysUnlink]
                 ++ match _proc s4 with
                    | Some proc => if popen_stdin proc then [SysCloseStdin] else []
                    | None => []
                    end) = true).
      { rewrite !forallb_app, Honly, Hall3. simpl. rewrite Z.eqb_refl. simpl.
        destruct alive; simpl; rewrite ?Z.eqb_refl; simpl;
          destruct (_proc s4) as [proc|]; try destruct (popen_stdin proc);
          reflexivity. }
      unfold unlink. cbn [_proc calls pid_file os].
      split; [|split; [exact Hall|split; [intros [Hx|Hx]; [discriminate Hx|injection Hx as ->; by destruct Hp']|]]].
      * destruct alive; rewrite ?Hpr5;
          destruct (_proc s4) as [proc|]; try destruct (popen_stdin proc);
          cbn [fst snd _proc calls pid_file os];
          rewrite ?Hc5, Hc4, Hc3, Hc2; unfold s1; cbn [calls];
          rewrite <- ?app_assoc; reflexivity.
      * intros _.
        destruct alive; rewrite ?Hpr5;
          destruct (_proc s4) as [proc|]; try destruct (popen_stdin proc);
          cbn [fst snd _proc calls pid_file os]; by split.
    + exists (evs ++ [SysKill p SIGTERM false]). cbn [fst snd].
      split; [rewrite Hc2; unfold s1; cbn [calls]; by rewrite <- app_assoc|].
      split; [rewrite forallb_app, Honly; simpl; by rewrite Z.eqb_refl|].
      split; [intros [Hx|Hx]; [discriminate Hx|injection Hx as ->; by destruct Hp']|].
      discriminate.
  - rewrite Hrec in *. exists evs. cbn [fst snd].
    split; [reflexivity|]. split; [exact Hnk|].
    split; [|discriminate]. intros _. by repeat split.
  - rewrite Hrec in *. change (0 =? 0) with true. cbv iota. exists evs.
    cbn [fst snd]. split; [reflexivity|]. split; [exact Honly|].
    split; [|discriminate]. intros _. by repeat split.
  - rewrite Hrec in *. exists evs. cbn [fst snd].
    split; [reflexivity|]. split; [exact Honly|].
    split; [intros [Hx|Hx]; [discriminate Hx|injection Hx as ->; by destruct Hp]|].
    discriminate.
Qed.

(** X19.  [stop] signals no process but the one on record: every
    [os.kill] it makes, probes included, goes to the pid the marker
    holds.  With no marker, or one that is unreadable or holds 0, it
    makes no such call at all, reports that there is nothing to stop
    and leaves the marker as it is. *)
Theorem stop_signals_only_recorded_pid (s : supervisor O) :
  exists evs,
    calls (stop s).2 = calls s ++ evs /\
    match recorded_pid s with
    | Some p => forallb (only_to p) evs = true
    | None => forallb (fun ev => negb (is_kill ev)) evs = true
    end /\
    (recorded_pid s = None \/ recorded_pid s = Some 0 ->
     (stop s).1 = (false, nothing_to_stop) /\
     forallb (fun ev => negb (is_kill ev)) evs = true /\
     pid_file (stop s).2 = pid_file s).
Proof.
  destruct (stop_cases s) as (evs & Hc & Honly & Hnone & _).
  by exists evs.
Qed.


End with_os.


End supervisor_facts.

(** ** Polling the log *)

Module log_facts.

Import autoglm_process.

Lemma take_min {A : Type} (n : nat) (l : list A) :
  take n l = take (n `min` length l) l.
Proof. by rewrite <- take_take, firstn_all. Qed.

(** X21.  Polling with the offset the previous call returned reads the
    log without gap or overlap.  From an offset within the file a call
    reads from that offset and returns an offset within the file; when
    the log has grown in between, what two successive calls read, put
    end to end, is the stretch of the log from the first offset to the
    last.  A call makes no progress only at the end of the file or with
    a limit of 0. *)
Theorem tail_log_polls_contiguous (decode : list Byte.byte -> string)
    (content more : list Byte.byte) (offset max_bytes : Z) :
  0 <= offset <= Z.of_nat (length content) ->
  0 <= max_bytes ->
  let o1 := (tail_log decode (Some content) offset max_bytes).1 in
  let o2 := (tail_log decode (Some (content ++ more)) o1 max_bytes).1 in
  offset <= o1 <= Z.of_nat (length content) /\
  o1 <= o2 <= Z.of_nat (length (content ++ more)) /\
  o1 = offset + Z.of_nat (length (tail_data content offset max_bytes)) /\
  o2 = o1 + Z.of_nat (length (tail_data (content ++ more) o1 max_bytes)) /\
  tail_data content offset max_bytes ++ tail_data (content ++ more) o1 max_bytes
  = take (Z.to_nat (o2 - offset)) (drop (Z.to_nat offset) (content ++ more)) /\
  (o1 = offset <-> max_bytes = 0 \/ offset = Z.of_nat (length content)).
Proof.
  intros Hoff Hmb o1 o2.
  assert (Hstart : forall (c : list Byte.byte) o, 0 <= o <= Z.of_nat (length c) ->
            tail_start (Z.of_nat (length c)) o max_bytes = o).
  { intros c o Ho. unfold tail_start.
    rewrite (proj2 (Z.ltb_ge o 0)) by lia.
    by rewrite (proj2 (Z.ltb_ge (Z.of_nat (length c)) o)) by lia. }
  assert (Hread : forall l : list Byte.byte,
            read max_bytes l = take (Z.to_nat max_bytes) l).
  { intros l. unfold read. by rewrite (proj2 (Z.ltb_ge max_bytes 0)) by lia. }
  assert (Hd1 : tail_data content offset max_bytes
                = take (Z.to_nat max_bytes) (drop (Z.to_nat offset) content)).
  { unfold tail_data. by rewrite Hstart, Hread. }
  assert (Ho1 : o1 = offset + Z.of_nat (length (tail_data content offset max_bytes))).
  { unfold o1, tail_log, tail_data. cbn [fst]. by rewrite !Hstart by lia. }
  assert (Hl1 : Z.of_nat (length (tail_data content offset max_bytes))
                = Z.min max_bytes (Z.of_nat (length content) - offset)).
  { rewrite Hd1, length_take, length_drop. lia. }
  assert (Ho1r : offset <= o1 <= Z.of_nat (length content)) by lia.
  assert (Hd2 : tail_data (content ++ more) o1 max_bytes
                = take (Z.to_nat max_bytes) (drop (Z.to_nat o1) (content ++ more))).
  { unfold tail_data. rewrite Hstart, Hread; [reflexivity|].
    rewrite length_app. lia. }
  assert (Ho2 : o2 = o1 + Z.of_nat (length (tail_data (content ++ more) o1 max_bytes))).
  { unfold o2, tail_log, tail_data. cbn [fst].
    by rewrite !Hstart by (rewrite length_app; lia). }
  assert (Hl2 : Z.of_nat (length (tail_data (content ++ more) o1 max_bytes))
                = Z.min max_bytes (Z.of_nat (length (content ++ more)) - o1)).
  { rewrite Hd2, length_take, length_drop. rewrite length_app in *. lia. }
  split; [exact Ho1r|]. split; [rewrite length_app in *; lia|].
  split; [exact Ho1|]. split; [exact Ho2|]. split; [|lia].
  set (a := Z.to_nat offset).
  set (n1 := length (tail_data content offset max_bytes)).
  set (n2 := length (tail_data (content ++ more) o1 max_bytes)).
  replace (Z.to_nat (o2 - offset)) with (n1 + n2)%nat by (unfold n1, n2; lia).
  rewrite <- take_take_drop.
  assert (Hn1 : (n1 <= length (drop a content))%nat).
  { unfold n1, a. rewrite length_drop. lia. }
  f_equal.
  - rewrite drop_app_le by (unfold a; lia).
    rewrite take_app_le by exact Hn1.
    rewrite Hd1. fold a. rewrite (take_min (Z.to_nat max_bytes)).
    f_equal. unfold n1. rewrite Hd1, length_take. reflexivity.
  - rewrite drop_drop.
    replace (a + n1)%nat with (Z.to_nat o1) by (unfold a, n1; lia).
    rewrite Hd2. rewrite (take_min (Z.to_nat max_bytes)).
    f_equal. unfold n2. rewrite Hd2, length_take. reflexivity.
Qed.

Lemma tail_log_polls_contiguous_witness :
  tail_data samples.three_bytes 1 1
  ++ tail_data (samples.three_bytes ++ [Byte.x64; Byte.x65]) 2 1
  = [Byte.x62; Byte.x63].
Proof.
  destruct (tail_log_polls_contiguous samples.ascii_decode samples.three_bytes
              [Byte.x64; Byte.x65] 1 1)
    as (_ & _ & _ & _ & Hcat & _).
  - simpl. lia.
  - lia.
  - exact Hcat.
Defined.

End log_facts.

(** ** Screenshots *)

Module screen_facts.

Import Py adb_screen.

Lemma bytes_eqb_eq (a b : list Byte.byte) : bytes_eqb a b = true <-> a = b.
Proof.
  revert b. induction a as [|x a IH]; intros [|y b]; simpl; try done.
  rewrite andb_true_iff, IH. split.
  - intros [Hxy ->]. by rewrite (Byte.byte_dec_bl _ _ Hxy).
  - intros [= -> ->]. split; [by apply Byte.byte_dec_lb|reflexivity].
Qed.

Lemma byte_val_range (b : Byte.byte) : 0 <= byte_val b < 256.
Proof. unfold byte_val. destruct b; vm_compute; split; congruence. Qed.

Lemma from_bytes_big_acc (bs : list Byte.byte) : forall acc,
  fold_left (fun acc b => 256 * acc + byte_val b) bs acc
  = acc * 256 ^ Z.of_nat (length bs) + from_bytes_big bs.
Proof.
  unfold from_bytes_big. induction bs as [|b bs IH]; intros acc.
  - simpl. lia.
  - cbn [fold_left length]. rewrite IH, (IH (256 * 0 + byte_val b)).
    rewrite Nat2Z.inj_succ, Z.pow_succ_r by lia. ring.
Qed.

Lemma from_bytes_big_range (bs : list Byte.byte) :
  0 <= from_bytes_big bs < 256 ^ Z.of_nat (length bs).
Proof.
  induction bs as [|b bs IH] using rev_ind.
  - simpl. unfold from_bytes_big. simpl. lia.
  - unfold from_bytes_big in *. rewrite fold_left_app. cbn [fold_left].
    rewrite length_app, Nat2Z.inj_add. simpl (Z.of_nat (length [b])).
    rewrite Z.pow_add_r by lia. pose proof (byte_val_range b). lia.
Qed.

Lemma of_N_byte (n : Z) :
  0 <= n < 256 ->
  byte_val (match Byte.of_N (Z.to_N n) with Some b => b | None => Byte.x00 end) = n.
Proof.
  intros Hn. unfold byte_val.
  pose proof (Byte.to_of_N_option_map (Z.to_N n)) as Hopt.
  rewrite (proj2 (N.leb_le (Z.to_N n) 255)) in Hopt by lia.
  destruct (Byte.of_N (Z.to_N n)) as [b|]; [|discriminate Hopt].
  simpl in Hopt. injection Hopt as ->. lia.
Qed.

Lemma to_bytes_big_length k : forall n, length (to_bytes_big k n) = k.
Proof.
  induction k as [|k IH]; intros n; [reflexivity|].
  simpl. rewrite length_app, IH. simpl. lia.
Qed.

Lemma from_to_bytes_big k : forall n,
  0 <= n < 256 ^ Z.of_nat k -> from_bytes_big (to_bytes_big k n) = n.
Proof.
  induction k as [|k IH]; intros n Hn.
  - simpl in Hn. unfold from_bytes_big. simpl. lia.
  - rewrite Nat2Z.inj_succ, Z.pow_succ_r in Hn by lia.
    simpl. unfold from_bytes_big. rewrite fold_left_app. cbn [fold_left].
    fold (from_bytes_big (to_bytes_big k (n / 256))).
    rewrite IH by (split; [apply Z.div_pos; lia|apply Z.div_lt_upper_bound; lia]).
    rewrite of_N_byte by (apply Z.mod_pos_bound; lia).
    pose proof (Z.div_mod n 256). lia.
Qed.

Lemma png_dimensions_cases (png : list Byte.byte) :
  png_dimensions png = (None, None) \/
  (take 8 png = PNG_SIGNATURE /\ (24 <= length png)%nat /\
   slice 12 16 png = IHDR /\
   0 < from_bytes_big (slice 16 20 png) /\ 0 < from_bytes_big (slice 20 24 png) /\
   png_dimensions png
   = (Some (from_bytes_big (slice 16 20 png)),
      Some (from_bytes_big (slice 20 24 png)))).
Proof.
  unfold png_dimensions, startswith.
  destruct (bytes_eqb (take (length PNG_SIGNATURE) png) PNG_SIGNATURE) eqn:Esig;
    [|by left].
  cbn [negb]. destruct (length png <? 24)%nat eqn:Elen; [by left|].
  destruct (bytes_eqb (slice 12 16 png) IHDR) eqn:Ehdr; [|by left].
  cbn [negb].
  destruct ((from_bytes_big (slice 16 20 png) <=? 0)
            || (from_bytes_big (slice 20 24 png) <=? 0)) eqn:Epos; [by left|].
  right. apply orb_false_iff in Epos as [Hw Hh].
  apply bytes_eqb_eq in Esig, Ehdr. apply Nat.ltb_ge in Elen.
  repeat split; try assumption; lia.
Qed.

(** X22.  [png_dimensions] gives both dimensions or neither.  When it
    gives them, the data begins with the PNG signature, holds at least
    24 bytes with [IHDR] at bytes 12 to 15, and the width and height
    are the big-endian numbers at bytes 16 to 19 and 20 to 23, each
    positive and below 2^32.  Only the first 24 bytes matter.  A header
    written with a width and a height in that range is read back as
    these, whatever follows it. *)
Theorem png_dimensions_reads_header (png : list Byte.byte) :
  match png_dimensions png with
  | (Some w, Some h) =>
      take 8 png = PNG_SIGNATURE /\ (24 <= length png)%nat /\
      slice 12 16 png = IHDR /\
      w = from_bytes_big (slice 16 20 png) /\
      h = from_bytes_big (slice 20 24 png) /\
      0 < w < 2 ^ 32 /\ 0 < h < 2 ^ 32
  | (None, None) => True
  | _ => False
  end /\
  png_dimensions png = png_dimensions (take 24 png) /\
  (forall (w h : Z) (len4 rest : list Byte.byte),
     0 < w < 2 ^ 32 -> 0 < h < 2 ^ 32 -> length len4 = 4%nat ->
     png_dimensions (PNG_SIGNATURE ++ len4 ++ IHDR ++ to_bytes_big 4 w
                     ++ to_bytes_big 4 h ++ rest)
     = (Some w, Some h)).
Proof.
  split; [|split].
  - destruct (png_dimensions_cases png)
      as [->|(Hsig & Hlen & Hhdr & Hw & Hh & ->)]; [exact I|].
    repeat split; try assumption.
    + pose proof (from_bytes_big_range (slice 16 20 png)) as Hr.
      assert (Hls : length (slice 16 20 png) = 4%nat)
        by (unfold slice; rewrite length_take, length_drop; lia).
      rewrite Hls in Hr. change (256 ^ Z.of_nat 4) with (2 ^ 32) in Hr. lia.
    + pose proof (from_bytes_big_range (slice 20 24 png)) as Hr.
      assert (Hls : length (slice 20 24 png) = 4%nat)
        by (unfold slice; rewrite length_take, length_drop; lia).
      rewrite Hls in Hr. change (256 ^ Z.of_nat 4) with (2 ^ 32) in Hr. lia.
  - destruct (Nat.le_gt_cases 24 (length png)) as [Hlen|Hlen];
      [|by rewrite take_ge by lia].
    unfold png_dimensions, startswith, slice.
    rewrite length_take, (Nat.min_l 24) by exact Hlen.
    rewrite take_take. change (length PNG_SIGNATURE `min` 24)%nat with
      (length PNG_SIGNATURE).
    rewrite (proj2 (Nat.ltb_ge (length png) 24)) by exact Hlen.
    change (24 <? 24)%nat with false.
    rewrite !take_drop_commute, !take_take.
    reflexivity.
  - intros w h len4 rest Hw Hh Hlen.
    destruct len4 as [|b1 [|b2 [|b3 [|b4 [|]]]]]; try discriminate Hlen.
    pose proof (to_bytes_big_length 4 w) as Hlw.
    pose proof (to_bytes_big_length 4 h) as Hlh.
    pose proof (from_to_bytes_big 4 w ltac:(change (256 ^ Z.of_nat 4) with (2 ^ 32); lia))
      as Hrw.
    pose proof (from_to_bytes_big 4 h ltac:(change (256 ^ Z.of_nat 4) with (2 ^ 32); lia))
      as Hrh.
    destruct (to_bytes_big 4 w) as [|w1 [|w2 [|w3 [|w4 [|]]]]]; try discriminate Hlw.
    destruct (to_bytes_big 4 h) as [|h1 [|h2 [|h3 [|h4 [|]]]]]; try discriminate Hlh.
    unfold png_dimensions, startswith, slice. cbn [app PNG_SIGNATURE IHDR length take drop Nat.sub].
    rewrite take_0, Hrw, Hrh.
    rewrite (proj2 (Z.leb_gt w 0)), (proj2 (Z.leb_gt h 0)) by lia.
    reflexivity.
Qed.

Section with_outside.

Context {S : Type}.
Variable run : list value -> option string -> S -> (Z * list Byte.byte * string) * S.

Lemma after_requests_S (k : nat) (device_id : option string) (s : S) :
  after_requests run (Datatypes.S k) device_id s
  = after_requests run k device_id (run screencap_args device_id s).2.
Proof. reflexivity. Qed.

Lemma answer_S (k : nat) (device_id : option string) (s : S) :
  answer run (Datatypes.S k) device_id s
  = answer run k device_id (run screencap_args device_id s).2.
Proof. reflexivity. Qed.

Lemma screenshot_loop_spec (device_id : option string) (n : nat) :
  forall (last_err : string) (s : S),
  exists k,
    (k <= n)%nat /\
    (screenshot_loop run n device_id last_err s).2
    = after_requests run k device_id s /\
    match (screenshot_loop run n device_id last_err s).1 with
    | (true, data, msg) =>
        (1 <= k)%nat /\
        (forall j, (j < k - 1)%nat ->
           acceptable (answer run j device_id s) = false) /\
        acceptable (answer run (k - 1) device_id s) = true /\
        data = (answer run (k - 1) device_id s).1.2 /\
        msg = "ok"
    | (false, data, msg) =>
        k = n /\
        (forall j, (j < n)%nat -> acceptable (answer run j device_id s) = false) /\
        data = [] /\
        (last_err <> "" \/ (1 <= n)%nat -> msg <> "")
    end.
Proof.
  induction n as [|n IH]; intros last_err s.
  - exists 0%nat. simpl. repeat split; try lia.
    intros [Hne|Hn]; [|lia].
    apply String.eqb_neq in Hne. rewrite Hne. by apply String.eqb_neq.
  - cbn [screenshot_loop].
    destruct (run screencap_args device_id s) as [[[rc data] err] s1] eqn:Erun.
    assert (Hs1 : s1 = (run screencap_args device_id s).2) by by rewrite Erun.
    assert (Ha0 : answer run 0 device_id s = (rc, data, err))
      by (unfold answer; simpl; by rewrite Erun).
    assert (Hbad : forall last_err',
              last_err' <> "" ->
              acceptable (rc, data, err) = false ->
              exists k,
                (k <= Datatypes.S n)%nat /\
                (screenshot_loop run n device_id last_err' s1).2
                = after_requests run k device_id s /\
                match (screenshot_loop run n device_id last_err' s1).1 with
                | (true, data0, msg) =>
                    (1 <= k)%nat /\
                    (forall j, (j < k - 1)%nat ->
                       acceptable (answer run j device_id s) = false) /\
                    acceptable (answer run (k - 1) device_id s) = true /\
                    data0 = (answer run (k - 1) device_id s).1.2 /\
                    msg = "ok"
                | (false, data0, msg) =>
                    k = Datatypes.S n /\
                    (forall j, (j < Datatypes.S n)%nat ->
                       acceptable (answer run j device_id s) = false) /\
                    data0 = [] /\
                    (last_err <> "" \/ (1 <= Datatypes.S n)%nat -> msg <> "")
                end).
    { intros last_err' Hne Hacc.
      destruct (IH last_err' s1) as (k & Hk & Hstate & Hres).
      exists (Datatypes.S k). split; [lia|].
      split; [by rewrite after_requests_S, <- Hs1|].
      destruct (screenshot_loop run n device_id last_err' s1) as [[[ok d] m] s2].
      cbn [fst] in Hres |- *. destruct ok.
      - destruct Hres as (Hk1 & Hbefore & Hthis & Hd & Hm).
        split; [lia|]. split.
        { intros j Hj. destruct j as [|j]; [by rewrite Ha0|].
          rewrite answer_S, <- Hs1. apply Hbefore. lia. }
        replace (Datatypes.S k - 1)%nat with (Datatypes.S (k - 1)) by lia.
        by rewrite answer_S, <- Hs1.
      - destruct Hres as (-> & Hall & Hd & Hm).
        split; [reflexivity|]. split.
        { intros j Hj. destruct j as [|j]; [by rewrite Ha0|].
          rewrite answer_S, <- Hs1. apply Hall. lia. }
        split; [exact Hd|]. intros _. apply Hm. by left. }
    destruct (negb (rc =? 0) || is_empty data) eqn:E1.
    + apply Hbad.
      * destruct (String.eqb err "") eqn:Ee; [discriminate|by apply String.eqb_neq].
      * unfold acceptable. by rewrite E1.
    + destruct ((length data <=? length PNG_SIGNATURE + 8)%nat
                || negb (startswith PNG_SIGNATURE data)) eqn:E2.
      * apply Hbad; [discriminate|]. unfold acceptable. by rewrite E1, E2.
      * exists 1%nat. cbn [fst snd]. split; [lia|].
        split; [by rewrite after_requests_S, <- Hs1|].
        split; [lia|]. split; [intros j Hj; lia|].
        change (1 - 1)%nat with 0%nat. rewrite Ha0.
        split; [unfold acceptable; by rewrite E1, E2|]. by split.
Qed.

(** X23.  [screenshot_png] asks the device for a screenshot at most
    [max 1 (retries + 1)] times, and at least once, and returns the
    first answer it accepts: one with exit code 0 whose data begins
    with the PNG signature and holds more than 16 bytes.  Every answer
    before it was not acceptable.  When no answer is acceptable it has
    asked that many times and returns no data and a message that is not
    empty. *)
Theorem screenshot_first_acceptable (device_id : option string) (retries : Z)
    (s : S) :
  let attempts := Z.to_nat (Z.max 1 (retries + 1)) in
  exists k,
    (1 <= k <= attempts)%nat /\
    (screenshot_png run device_id retries s).2
    = after_requests run k device_id s /\
    match (screenshot_png run device_id retries s).1 with
    | (true, data, msg) =>
        (forall j, (j < k - 1)%nat ->
           acceptable (answer run j device_id s) = false) /\
        answer run (k - 1) device_id s = (0, data, (answer run (k - 1) device_id s).2) /\
        startswith PNG_SIGNATURE data = true /\
        (16 < length data)%nat /\
        msg = "ok"
    | (false, data, msg) =>
        k = attempts /\
        (forall j, (j < attempts)%nat ->
           acceptable (answer run j device_id s) = false) /\
        data = [] /\ msg <> ""
    end.
Proof.
  intros attempts. unfold screenshot_png. fold attempts.
  assert (Hpos : (1 <= attempts)%nat) by (unfold attempts; lia).
  destruct (screenshot_loop_spec device_id attempts "" s) as (k & Hk & Hstate & Hres).
  exists k.
  destruct (screenshot_loop run attempts device_id "" s) as [[[ok data] msg] s'].
  cbn [fst snd] in *. destruct ok.
  - destruct Hres as (Hk1 & Hbefore & Hthis & Hd & Hm).
    split; [lia|]. split; [exact Hstate|]. split; [exact Hbefore|].
    destruct (answer run (k - 1) device_id s) as [[rc d] err] eqn:Ea.
    cbn [fst snd] in Hd |- *. subst d.
    unfold acceptable in Hthis.
    destruct (negb (rc =? 0) || is_empty data) eqn:E1; [discriminate Hthis|].
    destruct ((length data <=? length PNG_SIGNATURE + 8)%nat
              || negb (startswith PNG_SIGNATURE data)) eqn:E2; [discriminate Hthis|].
    apply orb_false_iff in E1 as [Hrc _], E2 as [Hlen Hsig].
    apply negb_false_iff in Hrc, Hsig. apply Z.eqb_eq in Hrc as ->.
    apply Nat.leb_gt in Hlen. simpl in Hlen.
    repeat split; try assumption; lia.
  - destruct Hres as (-> & Hall & Hd & Hm).
    split; [lia|]. split; [exact Hstate|].
    split; [reflexivity|]. split; [exact Hall|]. split; [exact Hd|].
    apply Hm. by right.
Qed.

End with_outside.

End screen_facts.

(** ** The effects of a step *)

Module effect_facts.

Import Py tasks_runner effects.

Section with_host.

Context {E : Type} `{Host E}.

Lemma device_commands_app (a b : list event) :
  device_commands (a ++ b) = (device_commands a + device_commands b)%nat.
Proof. unfold device_commands. by rewrite List.filter_app, length_app. Qed.

(** *** Building blocks *)

Lemma pure_ret {A : Type} (a : A) : pure (ret a : M E A).
Proof. by intros w. Qed.

Lemma pure_raise {A : Type} (msg : string) : pure (raise msg : M E A).
Proof. by intros w. Qed.

Lemma pure_bind {A B : Type} (m : M E A) (f : A -> M E B) :
  pure m -> (forall a, pure (f a)) -> pure (bind m f).
Proof.
  intros Hm Hf w. unfold bind. specialize (Hm w).
  destruct (m w) as [[a|msg] w1]; simpl in Hm; subst w1; [apply Hf|reflexivity].
Qed.

Lemma total_ret {A : Type} (a : A) : total (ret a : M E A).
Proof. intros w. by exists a. Qed.

Lemma total_emit (ev : event) : total (emit ev : M E unit).
Proof. intros w. by exists tt. Qed.

Lemma total_ask {A : Type} (ev : event) (reply : E -> A * E) : total (ask ev reply).
Proof. intros w. unfold ask. destruct (reply (env w)) as [a e]. by exists a. Qed.

Lemma total_bind {A B : Type} (m : M E A) (f : A -> M E B) :
  total m -> (forall a, total (f a)) -> total (bind m f).
Proof.
  intros Hm Hf w. unfold bind. destruct (Hm w) as [a Ha].
  destruct (m w) as [[a'|msg] w1]; simpl in Ha; [apply Hf|discriminate Ha].
Qed.

Lemma atomic_total {A : Type} (m : M E A) : total m -> atomic m.
Proof. intros Hm w msg Hr. destruct (Hm w) as [a Ha]. congruence. Qed.

Lemma atomic_pure {A : Type} (m : M E A) : pure m -> atomic m.
Proof. intros Hm w msg _. apply Hm. Qed.

Lemma atomic_pure_bind {A B : Type} (m : M E A) (f : A -> M E B) :
  pure m -> (forall a, atomic (f a)) -> atomic (bind m f).
Proof.
  intros Hm Hf w msg. unfold bind. specialize (Hm w).
  destruct (m w) as [[a|msg'] w1]; simpl in Hm; subst w1; [apply Hf|reflexivity].
Qed.

Lemma atomic_bind_total {A B : Type} (m : M E A) (f : A -> M E B) :
  atomic m -> (forall a, total (f a)) -> atomic (bind m f).
Proof.
  intros Hm Hf w msg. unfold bind. specialize (Hm w).
  destruct (m w) as [[a|msg'] w1].
  - intros Hr. destruct (Hf a w1) as [b Hb]. congruence.
  - intros _. by apply (Hm msg').
Qed.

Lemma bounded_weaken {A : Type} (k k' : nat) (m : M E A) :
  (k <= k')%nat -> bounded k m -> bounded k' m.
Proof.
  intros Hk Hm w. destruct (Hm w) as (evs & Ht & Hc). exists evs.
  split; [exact Ht|lia].
Qed.

Lemma bounded_pure {A : Type} (m : M E A) : pure m -> bounded 0 m.
Proof. intros Hm w. exists []. rewrite Hm, app_nil_r. by split. Qed.

Lemma bounded_emit (ev : event) : is_adb ev = false -> bounded 0 (emit ev : M E unit).
Proof.
  intros Hev w. exists [ev]. split; [reflexivity|].
  unfold device_commands. simpl. by rewrite Hev.
Qed.

Lemma bounded_ask {A : Type} (ev : event) (reply : E -> A * E) :
  bounded 1 (ask ev reply).
Proof.
  intros w. unfold ask. destruct (reply (env w)) as [a e]. exists [ev].
  split; [reflexivity|]. unfold device_commands. simpl.
  destruct (is_adb ev); simpl; lia.
Qed.

Lemma bounded_bind {A B : Type} (k k' : nat) (m : M E A) (f : A -> M E B) :
  bounded k m -> (forall a, bounded k' (f a)) -> bounded (k + k') (bind m f).
Proof.
  intros Hm Hf w. unfold bind. destruct (Hm w) as (evs & Ht & Hc).
  destruct (m w) as [[a|msg] w1]; cbn [snd] in Ht.
  - destruct (Hf a w1) as (evs' & Ht' & Hc'). exists (evs ++ evs').
    split; [by rewrite Ht', Ht, app_assoc|].
    rewrite device_commands_app. lia.
  - exists evs. split; [exact Ht|lia].
Qed.

(** *** The operations of [adb] and the log *)

Lemma log_line_total text : total (_log_line text : M E unit).
Proof. apply total_emit. Qed.

Lemma log_line_bounded text : bounded 0 (_log_line text : M E unit).
Proof. by apply bounded_emit. Qed.

Lemma run_adb_total args dev : total (adb._run_adb args dev).
Proof. apply total_ask. Qed.

Lemma run_adb_bounded args dev : bounded 1 (adb._run_adb args dev).
Proof. apply bounded_ask. Qed.

Lemma shell_total cmd dev : total (adb.shell cmd dev).
Proof.
  apply total_bind; [apply run_adb_total|]. intros [rc out]. apply total_ret.
Qed.

Lemma shell_bounded cmd dev : bounded 1 (adb.shell cmd dev).
Proof.
  apply (bounded_bind 1 0); [apply run_adb_bounded|].
  intros [rc out]. apply bounded_pure, pure_ret.
Qed.

Lemma shell_argv_total argv dev : total (adb.shell_argv argv dev).
Proof.
  apply total_bind; [apply run_adb_total|]. intros [rc out]. apply total_ret.
Qed.

Lemma shell_argv_bounded argv dev : bounded 1 (adb.shell_argv argv dev).
Proof.
  apply (bounded_bind 1 0); [apply run_adb_bounded|].
  intros [rc out]. apply bounded_pure, pure_ret.
Qed.

Lemma keyevent_total key dev : total (adb.keyevent key dev).
Proof.
  unfold adb.keyevent.
  repeat match goal with |- context [if ?b then _ else _] => destruct b end;
    first [apply total_ret|apply shell_argv_total].
Qed.

Lemma keyevent_bounded key dev : bounded 1 (adb.keyevent key dev).
Proof.
  unfold adb.keyevent.
  repeat match goal with |- context [if ?b then _ else _] => destruct b end;
    first [apply shell_argv_bounded
          |apply (bounded_weaken 0); [lia|apply bounded_pure, pure_ret]].
Qed.

Lemma input_text_atomic text dev : atomic (adb.input_text text dev).
Proof.
  destruct text; try (apply atomic_pure, pure_raise).
  apply atomic_total, shell_total.
Qed.

Lemma input_text_bounded text dev : bounded 1 (adb.input_text text dev).
Proof.
  destruct text;
    try (apply (bounded_weaken 0); [lia|apply bounded_pure, pure_raise]).
  apply shell_bounded.
Qed.

Lemma validate_pure name field : pure (adb._validate name field : M E unit).
Proof.
  unfold adb._validate.
  destruct name; repeat match goal with |- context [if ?b then _ else _] => destruct b end;
    first [apply pure_ret|apply pure_raise].
Qed.

Lemma activity_check_pure (activity : value) :
  pure (if truthy activity then
          match activity with
          | VStr a =>
              match split_once "/" a with
              | Some (p1, p2) =>
                  let* _ := adb._validate (VStr p1) "activity" in
                  adb._validate (VStr p2) "activity"
              | None => adb._validate (VStr a) "activity"
              end
          | _ => raise "AttributeError"
          end
        else ret tt : M E unit).
Proof.
  destruct (truthy activity); [|apply pure_ret].
  destruct activity as [| | |a]; try apply pure_raise.
  destruct (split_once "/" a) as [[p1 p2]|]; [|apply validate_pure].
  apply pure_bind; [apply validate_pure|]. intros _. apply validate_pure.
Qed.

Lemma start_app_atomic package activity action dev :
  atomic (adb.start_app package activity action dev).
Proof.
  unfold adb.start_app.
  apply atomic_pure_bind; [apply validate_pure|]. intros _.
  apply atomic_pure_bind; [apply activity_check_pure|]. intros _.
  unfold adb.monkey.
  repeat match goal with |- context [if ?b then _ else _] => destruct b end;
    apply atomic_total, shell_argv_total.
Qed.

Lemma start_app_bounded package activity action dev :
  bounded 1 (adb.start_app package activity action dev).
Proof.
  unfold adb.start_app.
  apply (bounded_bind 0 1); [apply bounded_pure, validate_pure|]. intros _.
  apply (bounded_bind 0 1); [apply bounded_pure, activity_check_pure|]. intros _.
  unfold adb.monkey.
  repeat match goal with |- context [if ?b then _ else _] => destruct b end;
    apply shell_argv_bounded.
Qed.

Lemma int_field_pure step params key default :
  pure (int_field step params key default : M E Z).
Proof.
  unfold int_field.
  destruct (int _); [apply pure_ret|apply pure_raise].
Qed.

Lemma prompt_bounded text timeout_s : bounded 0 (run_prompt_via_process text timeout_s).
Proof.
  intros w. unfold run_prompt_via_process.
  destruct (host_prompt text timeout_s (env w)) as [r e].
  exists [EvPrompt text timeout_s]. by split.
Qed.

Lemma log_lines_bounded (pre : string) (lines : list string) :
  bounded 0 (foldr (fun ln k => let* _ := _log_line (pre ++ ln)%string in k)
               (ret tt) lines : M E unit).
Proof.
  induction lines as [|ln lines IH]; [apply bounded_pure, pure_ret|].
  simpl. apply (bounded_bind 0 0); [apply log_line_bounded|]. by intros _.
Qed.

(** *** A step *)

Ltac step_total :=
  repeat first
    [ apply total_ret
    | apply log_line_total
    | apply shell_total
    | apply shell_argv_total
    | apply keyevent_total
    | apply total_emit
    | (apply total_bind; [|intros ?])
    | match goal with |- total (let '(_, _) := ?p in _) => destruct p end ].

Lemma run_step_bounded step params dev : bounded 1 (run_step step params dev).
Proof.
  unfold run_step, adb.tap, adb.swipe, adb.pause_ms.
  repeat match goal with
         | |- bounded _ (if ?b then _ else _) => destruct b
         end.
  - apply (bounded_bind 0 1); [apply log_line_bounded|].
    intros _. apply (bounded_weaken 0); [lia|apply bounded_pure, pure_ret].
  - apply (bounded_bind 0 1); [apply bounded_pure, int_field_pure|]. intros ms.
    apply (bounded_bind 0 1); [by apply bounded_emit|]. intros _.
    apply (bounded_weaken 0); [lia|apply bounded_pure, pure_ret].
  - apply (bounded_bind 1 0); [apply shell_bounded|]. intros [ok out].
    apply (bounded_bind 0 0); [apply log_line_bounded|]. intros _.
    apply bounded_pure, pure_ret.
  - apply (bounded_bind 1 0); [apply input_text_bounded|]. intros [ok out].
    apply (bounded_bind 0 0); [apply log_line_bounded|]. intros _.
    apply bounded_pure, pure_ret.
  - apply (bounded_bind 0 1); [apply bounded_pure, int_field_pure|]. intros x.
    apply (bounded_bind 0 1); [apply bounded_pure, int_field_pure|]. intros y.
    apply (bounded_bind 1 0); [apply shell_argv_bounded|]. intros [ok out].
    apply (bounded_bind 0 0); [apply log_line_bounded|]. intros _.
    apply bounded_pure, pure_ret.
  - do 5 (apply (bounded_bind 0 1); [apply bounded_pure, int_field_pure|]; intros ?).
    apply (bounded_bind 1 0); [apply shell_argv_bounded|]. intros [ok out].
    apply (bounded_bind 0 0); [apply log_line_bounded|]. intros _.
    apply bounded_pure, pure_ret.
  - apply (bounded_bind 1 0); [apply keyevent_bounded|]. intros [ok out].
    apply (bounded_bind 0 0); [apply log_line_bounded|]. intros _.
    apply bounded_pure, pure_ret.
  - apply (bounded_bind 1 0); [apply start_app_bounded|]. intros [ok out].
    apply (bounded_bind 0 0); [apply log_line_bounded|]. intros _.
    apply bounded_pure, pure_ret.
  - apply (bounded_weaken 0); [lia|].
    apply (bounded_bind 0 0); [apply bounded_pure, int_field_pure|]. intros t.
    apply (bounded_bind 0 0); [apply prompt_bounded|]. intros [ok out].
    apply (bounded_bind 0 0); [apply log_line_bounded|]. intros _.
    apply (bounded_bind 0 0); [apply log_lines_bounded|]. intros _.
    apply bounded_pure, pure_ret.
  - apply (bounded_weaken 0); [lia|apply bounded_pure, pure_ret].
Qed.

Lemma run_step_atomic step params dev :
  is_type (get step "type" (VStr "")) "autoglm_prompt" = false ->
  atomic (run_step step params dev).
Proof.
  intros Hnp. unfold run_step, adb.tap, adb.swipe, adb.pause_ms. rewrite Hnp.
  repeat match goal with
         | |- atomic (if ?b then _ else _) => destruct b
         end.
  - apply atomic_total. step_total.
  - apply atomic_pure_bind; [apply int_field_pure|]. intros ms.
    apply atomic_total. step_total.
  - apply atomic_total. step_total.
  - apply atomic_bind_total; [apply input_text_atomic|]. intros [ok out].
    step_total.
  - apply atomic_pure_bind; [apply int_field_pure|]. intros x.
    apply atomic_pure_bind; [apply int_field_pure|]. intros y.
    apply atomic_total. step_total.
  - do 5 (apply atomic_pure_bind; [apply int_field_pure|]; intros ?).
    apply atomic_total. step_total.
  - apply atomic_total. step_total.
  - apply atomic_bind_total; [apply start_app_atomic|]. intros [ok out].
    step_total.
  - apply atomic_total, total_ret.
Qed.


(** *** The loop *)

Lemma step_entry_bounded st params dev :
  bounded 1 (run_spec.step_entry st params dev).
Proof.
  unfold run_spec.step_entry.
  destruct (is_type (get st "type" VNone) "app").
  - apply (bounded_weaken 0); [lia|apply bounded_pure, pure_ret].
  - apply (bounded_bind 1 0); [apply run_step_bounded|].
    intros [ok out]. apply bounded_pure, pure_ret.
Qed.

Lemma run_steps_commands params dev steps : forall acc (w : world E),
  exists evs,
    trace (run_steps steps params dev acc w).2 = trace w ++ evs /\
    match (run_steps steps params dev acc w).1 with
    | Returned rs => (device_commands evs + length acc <= length rs)%nat
    | Raised _ => (device_commands evs <= length steps)%nat
    end.
Proof.
  induction steps as [|st steps IH]; intros acc w.
  - exists []. rewrite app_nil_r. simpl. split; [reflexivity|].
    unfold device_commands. simpl. lia.
  - rewrite interp_facts.run_steps_cons.
    destruct (step_entry_bounded st params dev w) as (evs & Ht & Hc).
    destruct (run_spec.step_entry st params dev w) as [[r|msg] w1]; cbn [snd] in Ht.
    + destruct (r_ok r).
      * destruct (IH (acc ++ [r]) w1) as (evs' & Ht' & Hc').
        exists (evs ++ evs'). split; [by rewrite Ht', Ht, app_assoc|].
        rewrite device_commands_app.
        destruct (run_steps steps params dev (acc ++ [r]) w1) as [[rs|msg] w2];
          cbn [fst] in Hc' |- *.
        -- rewrite length_app in Hc'. simpl in Hc'. lia.
        -- simpl. lia.
      * exists evs. cbn [fst snd]. split; [exact Ht|].
        rewrite length_app. simpl. lia.
    + exists evs. cbn [fst snd]. split; [exact Ht|]. simpl. lia.
Qed.


End with_host.

End effect_facts.

(** ** One exchange of an interactive session *)

Module interactive_facts.

Import Py autoglm_process tasks_runner interactive.

Section with_log.

Variable decode : list Byte.byte -> string.
Variable log_at : nat -> option (list Byte.byte).

Lemma poll_bounds (n : nat) : forall k offset collected slept,
  let r := poll decode log_at n k offset collected slept in
  (k <= r.1.2 <= k + n)%nat /\
  ((1 <= n)%nat -> (k + 1 <= r.1.2)%nat) /\
  slept <= r.2 <= slept + 250 * Z.of_nat n /\
  (r.2 = slept + 250 * Z.of_nat (r.1.2 - k) \/
   (k + 1 <= r.1.2)%nat /\ r.2 = slept + 250 * Z.of_nat (r.1.2 - k - 1)).
Proof.
  induction n as [|n IH]; intros k offset collected slept.
  - simpl. split; [lia|]. split; [lia|]. split; [lia|]. left.
    rewrite Nat.sub_diag. simpl. lia.
  - cbn [poll].
    destruct (tail_log decode (log_at k) offset default_max_bytes)
      as [new_offset chunk].
    assert (Hrec : forall c,
      let r := poll decode log_at n (S k) new_offset c (slept + 250) in
      (k <= r.1.2 <= k + S n)%nat /\
      ((1 <= S n)%nat -> (k + 1 <= r.1.2)%nat) /\
      slept <= r.2 <= slept + 250 * Z.of_nat (S n) /\
      (r.2 = slept + 250 * Z.of_nat (r.1.2 - k) \/
       (k + 1 <= r.1.2)%nat /\ r.2 = slept + 250 * Z.of_nat (r.1.2 - k - 1))).
    { intros c. destruct (IH (S k) new_offset c (slept + 250))
        as (Hk & _ & Hs & Hcount).
      cbv zeta. split; [lia|]. split; [lia|]. split; [lia|].
      destruct Hcount as [Hc|[Hk1 Hc]]; [left|right; split; [lia|]];
        rewrite Hc; lia. }
    destruct (negb (String.eqb chunk "")); [|apply Hrec].
    destruct (negb (String.eqb (strip chunk) "")); [|apply Hrec].
    cbn [fst snd]. split; [lia|]. split; [lia|]. split; [lia|]. right.
    split; [lia|].
    replace (S k - k - 1)%nat with 0%nat by lia. simpl. lia.
Qed.

Lemma output_lines_nonblank (collected : list string) :
  output_lines_of collected <> [] /\
  Forall (fun ln => strip ln <> "") (output_lines_of collected).
Proof.
  unfold output_lines_of.
  pose proof (Forall_forall (fun ln => strip ln <> "")
                (filter (fun ln => strip ln <> "") collected)) as [_ Hall].
  specialize (Hall (fun ln Hln => proj1 (proj1 (list_elem_of_filter _ _ _) Hln))).
  destruct (filter (fun ln => strip ln <> "") collected) as [|l ls].
  - split; [discriminate|]. constructor; [|constructor].
    vm_compute. discriminate.
  - split; [discriminate|exact Hall].
Qed.


End with_log.

End interactive_facts.
